(** * Verification of the cached anime-scraping server (animeapiv5fasttry.py)

    A shallow embedding of the TTL cache, the cache-through fetcher, the
    fan-out/fan-in aggregation of the detail and stream endpoints and the
    stream-URL extraction and classification, with the properties the
    specification states about them; and of the scrapers of the home page
    and of the search page and of the five handlers as a whole, with
    further properties read off the code.

    Modelling conventions.
    - Python [str] is [string]; a character is a code point below 256.
    - [time.time()] is its reading in clock ticks, an integer [Z]; the TTL
      is a number of ticks.
    - A [dict] used as a map is a [gmap], and a dict whose order is
      returned an association list; [list(set(l))] is the elements of
      [l] in some duplicate-free order, which the platform chooses.
    - A Python exception is a constructor of an error type; a handler
      returns its HTTP status with its JSON body.
    - The thread pool is its observable behaviour: each task's outcome and
      the order in which [as_completed] hands the futures back. *)

From Stdlib Require Import ZArith String Ascii List Bool Lia.
From stdpp Require Import gmap strings list fin_maps sets.

Local Open Scope string_scope.
Local Open Scope Z_scope.
#[local] Set Warnings "-register-all".
#[local] Arguments String.append !s1 s2 / : simpl nomatch.

(** ** Python string primitives *)

Module Py.

Definition code (c : ascii) : nat := nat_of_ascii c.

Definition in_range (lo hi : nat) (c : ascii) : bool :=
  (lo <=? code c)%nat && (code c <=? hi)%nat.

Definition is_upper (c : ascii) : bool := in_range 65 90 c.
Definition is_lower (c : ascii) : bool := in_range 97 122 c.
Definition is_digit (c : ascii) : bool := in_range 48 57 c.

(** [c.isascii() and c.isalpha()] *)
Definition is_ascii_alpha (c : ascii) : bool := is_upper c || is_lower c.

(** [c.isspace()], which is also the class [\s] of [re] on [str]:
    9-13, 28-32, 133 and 160 among the code points below 256. *)
Definition isspace (c : ascii) : bool :=
  in_range 9 13 c || in_range 28 32 c
  || (code c =? 133)%nat || (code c =? 160)%nat.

(** [c.lower()]: A-Z, and the upper-case letters of Latin-1 (192-222
    without the multiplication sign 215), move up by 32. *)
Definition lower_char (c : ascii) : ascii :=
  if is_upper c || (in_range 192 222 c && negb (code c =? 215)%nat)
  then ascii_of_nat (code c + 32) else c.

(** [s.lower()] *)
Fixpoint lower (s : string) : string :=
  match s with
  | EmptyString => EmptyString
  | String c rest => String (lower_char c) (lower rest)
  end.

(** [s.startswith(p)] *)
Definition startswith (s p : string) : bool := String.prefix p s.

(** [needle in hay] *)
Fixpoint contains (needle hay : string) : bool :=
  String.prefix needle hay
  || match hay with
     | EmptyString => false
     | String _ rest => contains needle rest
     end.

(** [c in s] for a single character *)
Fixpoint has_char (c : ascii) (s : string) : bool :=
  match s with
  | EmptyString => false
  | String d rest => Ascii.eqb c d || has_char c rest
  end.

(** [s[n:]] *)
Fixpoint drop (n : nat) (s : string) : string :=
  match n, s with
  | S k, String _ rest => drop k rest
  | _, _ => s
  end.

(** [s[:n]] *)
Fixpoint take (n : nat) (s : string) : string :=
  match n, s with
  | S k, String c rest => String c (take k rest)
  | _, _ => EmptyString
  end.

(** [s.endswith(p)] *)
Definition endswith (s p : string) : bool :=
  (String.length p <=? String.length s)%nat
  && String.eqb (drop (String.length s - String.length p) s) p.

(** [s.lstrip(chars)] for the characters that satisfy [p] *)
Fixpoint lstrip_by (p : ascii → bool) (s : string) : string :=
  match s with
  | String c rest => if p c then lstrip_by p rest else s
  | EmptyString => EmptyString
  end.

(** [s.rstrip(chars)] for the characters that satisfy [p] *)
Fixpoint rstrip_by (p : ascii → bool) (s : string) : string :=
  match s with
  | EmptyString => EmptyString
  | String c rest =>
      match rstrip_by p rest with
      | EmptyString => if p c then EmptyString else String c EmptyString
      | r => String c r
      end
  end.

(** [s.strip()] *)
Definition strip (s : string) : string := rstrip_by isspace (lstrip_by isspace s).

(** [s.replace(c, "")] for a set of single characters *)
Fixpoint remove_chars (p : ascii → bool) (s : string) : string :=
  match s with
  | EmptyString => EmptyString
  | String c rest => if p c then remove_chars p rest else String c (remove_chars p rest)
  end.

(** [s.partition(c)] at the first [c]: what stands before it, and what
    stands after it when there is one. [s.find(c)] is the length of the
    first part, [s.split(c, 1)] its two parts. *)
Fixpoint cut (c : ascii) (s : string) : string * option string :=
  match s with
  | EmptyString => (EmptyString, None)
  | String d rest =>
      if Ascii.eqb c d then (EmptyString, Some rest)
      else let '(a, b) := cut c rest in (String d a, b)
  end.

(** [s.split(c)] *)
Fixpoint split (c : ascii) (s : string) : list string :=
  match s with
  | EmptyString => [EmptyString]
  | String d rest =>
      if Ascii.eqb c d then EmptyString :: split c rest
      else match split c rest with
           | w :: ws => String d w :: ws
           | [] => [String d EmptyString]
           end
  end.

(** [sep.join(parts)] *)
Fixpoint join (sep : string) (parts : list string) : string :=
  match parts with
  | [] => EmptyString
  | [w] => w
  | w :: ws => w ++ sep ++ join sep ws
  end.

(** [s.replace(old, new)] for a non-empty [old]: the occurrences are
    replaced from the left and do not overlap; [skip] counts the
    characters of an occurrence still to pass over. *)
Fixpoint replace_go (old new : string) (skip : nat) (s : string) : string :=
  match s with
  | EmptyString => EmptyString
  | String c rest =>
      match skip with
      | S k => replace_go old new k rest
      | O =>
          if String.prefix old s
          then new ++ replace_go old new (String.length old - 1) rest
          else String c (replace_go old new O rest)
      end
  end.

Definition replace (old new s : string) : string := replace_go old new O s.

(** truth value of a [str]: the empty string is falsy *)
Definition truthy_str (s : string) : bool :=
  match s with EmptyString => false | _ => true end.

End Py.

(** ** hashlib.md5 (RFC 1321) and [str.encode()]

    The fetcher keys its cache by [hashlib.md5(url.encode()).hexdigest()].
    Words are 32-bit integers in [Z] with the wrap-around written out. *)

Module Md5.

Definition add32 (x y : Z) : Z := (x + y) mod 2 ^ 32.
Definition not32 (x : Z) : Z := Z.lxor x 0xffffffff.
Definition rotl32 (x n : Z) : Z :=
  Z.lor (Z.shiftl x n mod 2 ^ 32) (Z.shiftr x (32 - n)).

(** [floor(2^32 * abs(sin(i + 1)))] for i = 0..63 *)
Definition sines : list Z :=
  [0xd76aa478; 0xe8c7b756; 0x242070db; 0xc1bdceee;
   0xf57c0faf; 0x4787c62a; 0xa8304613; 0xfd469501;
   0x698098d8; 0x8b44f7af; 0xffff5bb1; 0x895cd7be;
   0x6b901122; 0xfd987193; 0xa679438e; 0x49b40821;
   0xf61e2562; 0xc040b340; 0x265e5a51; 0xe9b6c7aa;
   0xd62f105d; 0x02441453; 0xd8a1e681; 0xe7d3fbc8;
   0x21e1cde6; 0xc33707d6; 0xf4d50d87; 0x455a14ed;
   0xa9e3e905; 0xfcefa3f8; 0x676f02d9; 0x8d2a4c8a;
   0xfffa3942; 0x8771f681; 0x6d9d6122; 0xfde5380c;
   0xa4beea44; 0x4bdecfa9; 0xf6bb4b60; 0xbebfbc70;
   0x289b7ec6; 0xeaa127fa; 0xd4ef3085; 0x04881d05;
   0xd9d4d039; 0xe6db99e5; 0x1fa27cf8; 0xc4ac5665;
   0xf4292244; 0x432aff97; 0xab9423a7; 0xfc93a039;
   0x655b59c3; 0x8f0ccc92; 0xffeff47d; 0x85845dd1;
   0x6fa87e4f; 0xfe2ce6e0; 0xa3014314; 0x4e0811a1;
   0xf7537e82; 0xbd3af235; 0x2ad7d2bb; 0xeb86d391].

Definition shifts : list Z :=
  [7; 12; 17; 22; 7; 12; 17; 22; 7; 12; 17; 22; 7; 12; 17; 22;
   5; 9; 14; 20; 5; 9; 14; 20; 5; 9; 14; 20; 5; 9; 14; 20;
   4; 11; 16; 23; 4; 11; 16; 23; 4; 11; 16; 23; 4; 11; 16; 23;
   6; 10; 15; 21; 6; 10; 15; 21; 6; 10; 15; 21; 6; 10; 15; 21].

Definition state : Type := Z * Z * Z * Z.

Definition init_state : state := (0x67452301, 0xefcdab89, 0x98badcfe, 0x10325476).

(** One of the 64 operations on the block [m] (16 words). *)
Definition operation (m : list Z) (st : state) (i : nat) : state :=
  let '(a, b, c, d) := st in
  let '(f, g) :=
    if (i <? 16)%nat then (Z.lor (Z.land b c) (Z.land (not32 b) d), i)
    else if (i <? 32)%nat then (Z.lor (Z.land d b) (Z.land (not32 d) c), (5 * i + 1) mod 16)%nat
    else if (i <? 48)%nat then (Z.lxor (Z.lxor b c) d, (3 * i + 5) mod 16)%nat
    else (Z.lxor c (Z.lor b (not32 d)), (7 * i) mod 16)%nat in
  let f' := add32 (add32 (add32 f a) (nth i sines 0)) (nth g m 0) in
  (d, add32 b (rotl32 f' (nth i shifts 0)), b, c).

Definition process_block (st : state) (m : list Z) : state :=
  let '(a0, b0, c0, d0) := st in
  let '(a, b, c, d) := fold_left (operation m) (seq 0 64) st in
  (add32 a0 a, add32 b0 b, add32 c0 c, add32 d0 d).

(** The little-endian bytes of a word, and back. *)
Definition word_bytes (w : Z) : list Z :=
  [w mod 256; (w / 256) mod 256; (w / 65536) mod 256; (w / 16777216) mod 256].

Fixpoint words_of (bytes : list Z) : list Z :=
  match bytes with
  | b0 :: b1 :: b2 :: b3 :: rest =>
      (b0 + 256 * b1 + 65536 * b2 + 16777216 * b3) :: words_of rest
  | _ => []
  end.

(** The message, a 1 bit, zeros up to 56 modulo 64, and the length in bits
    as a 64-bit little-endian integer. *)
Definition pad (msg : list Z) : list Z :=
  let n := Z.of_nat (length msg) in
  let zeros := Z.to_nat ((55 - n) mod 64) in
  let bits := (8 * n) mod 2 ^ 64 in
  msg ++ [128] ++ replicate zeros 0
      ++ word_bytes (bits mod 2 ^ 32) ++ word_bytes (bits / 2 ^ 32).

Fixpoint blocks (fuel : nat) (words : list Z) : list (list Z) :=
  match fuel, words with
  | S k, _ :: _ => firstn 16 words :: blocks k (skipn 16 words)
  | _, _ => []
  end.

Definition digest_state (msg : list Z) : state :=
  let words := words_of (pad msg) in
  fold_left process_block (blocks (length words) words) init_state.

Definition hexdigit (n : Z) : ascii :=
  if n <? 10 then ascii_of_nat (48 + Z.to_nat n)
  else ascii_of_nat (87 + Z.to_nat n).

Definition hex_byte (b : Z) (tail : string) : string :=
  String (hexdigit (b / 16)) (String (hexdigit (b mod 16)) tail).

Definition hex_word (w : Z) (tail : string) : string :=
  fold_right hex_byte tail (word_bytes w).

(** [hashlib.md5(msg).hexdigest()] *)
Definition hexdigest (msg : list Z) : string :=
  let '(a, b, c, d) := digest_state msg in
  hex_word a (hex_word b (hex_word c (hex_word d EmptyString))).

(** [s.encode()]: UTF-8, one byte below 128 and two bytes from 128 on. *)
Fixpoint encode (s : string) : list Z :=
  match s with
  | EmptyString => []
  | String c rest =>
      let n := Z.of_nat (nat_of_ascii c) in
      if n <? 128 then n :: encode rest
      else (192 + n / 64) :: (128 + n mod 64) :: encode rest
  end.

Definition is_hexdigit (c : ascii) : bool :=
  Py.is_digit c || Py.in_range 97 102 c.

End Md5.

(** ** The TTL cache (class CacheManager) *)

Module CacheManager.

Section cache.
Context {V : Type}.

(** [self.cache] maps a key to [(value, timestamp)]; [self.ttl]. The
    lock makes each method one atomic step, which is what a function
    from state to state is. *)
Record t : Type := mk { cache : gmap string (V * Z); ttl : Z }.

Definition init (ttl : Z) : t := {| cache := ∅; ttl := ttl |}.

(** [get(key)] at clock reading [now]: the value and the state left. *)
Definition get (now : Z) (key : string) (c : t) : option V * t :=
  match cache c !! key with
  | Some (data, timestamp) =>
      if now - timestamp <? ttl c
      then (Some data, c)
      else (None, {| cache := delete key (cache c); ttl := ttl c |})
  | None => (None, c)
  end.

(** [set(key, value)] at clock reading [now]. *)
Definition set (now : Z) (key : string) (value : V) (c : t) : t :=
  {| cache := <[key := (value, now)]> (cache c); ttl := ttl c |}.

Definition clear (c : t) : t := {| cache := ∅; ttl := ttl c |}.

End cache.

Arguments t : clear implicits.

End CacheManager.

(** ** Regular expressions ([re]), the fragment the four patterns use

    Python's [re] is a backtracking matcher: alternatives are tried from
    the left, a greedy repetition tries the longest run first and a lazy
    one the shortest. Every repetition in the source's patterns is over a
    single-character class, which is what [Many] is. The matcher is
    written in continuation-passing style: [k] is the rest of the match,
    and a failing [k] sends the matcher back to its last choice. *)

Module Re.

Inductive regex : Type :=
| Chr (p : ascii → bool)
| Eps
| Seq (r1 r2 : regex)
| Alt (r1 r2 : regex)
| Opt (r : regex)
| Many (greedy : bool) (p : ascii → bool)
| Group (r : regex).

Fixpoint many_greedy {A} (p : ascii → bool) (s : string)
    (k : string → option A) : option A :=
  match s with
  | String c rest =>
      if p c then
        match many_greedy p rest k with
        | Some x => Some x
        | None => k s
        end
      else k s
  | EmptyString => k s
  end.

Fixpoint many_lazy {A} (p : ascii → bool) (s : string)
    (k : string → option A) : option A :=
  match k s with
  | Some x => Some x
  | None =>
      match s with
      | String c rest => if p c then many_lazy p rest k else None
      | EmptyString => None
      end
  end.

(** [run r s cap k]: match [r] at the start of [s]; [cap] is what group 1
    holds so far; [k] receives what is left of [s] and the group. *)
Fixpoint run {A} (r : regex) (s : string) (cap : option string)
    (k : string → option string → option A) : option A :=
  match r with
  | Chr p =>
      match s with
      | String c rest => if p c then k rest cap else None
      | EmptyString => None
      end
  | Eps => k s cap
  | Seq r1 r2 => run r1 s cap (λ s1 cap1, run r2 s1 cap1 k)
  | Alt r1 r2 =>
      match run r1 s cap k with
      | Some x => Some x
      | None => run r2 s cap k
      end
  | Opt r1 =>
      match run r1 s cap k with
      | Some x => Some x
      | None => k s cap
      end
  | Many true p => many_greedy p s (λ s1, k s1 cap)
  | Many false p => many_lazy p s (λ s1, k s1 cap)
  | Group r1 =>
      run r1 s cap
        (λ s1 _, k s1 (Some (Py.take (String.length s - String.length s1) s)))
  end.

(** A match at the start of [s]: group 1 and what follows the match. *)
Definition match_at (r : regex) (s : string) : option (string * string) :=
  run r s None (λ rest cap, Some (default EmptyString cap, rest)).

Definition tail (s : string) : string :=
  match s with String _ rest => rest | EmptyString => EmptyString end.

(** [pattern.findall(text)] for a pattern with one group: the matches are
    searched from the left and do not overlap; after a match the search
    goes on where the match ended (one character further when the match
    is empty). *)
Fixpoint findall_go (fuel : nat) (r : regex) (s : string) : list string :=
  match fuel with
  | O => []
  | S fuel' =>
      match match_at r s with
      | Some (g, rest) =>
          g :: (if (String.length rest <? String.length s)%nat
                then findall_go fuel' r rest
                else match s with
                     | String _ s' => findall_go fuel' r s'
                     | EmptyString => []
                     end)
      | None =>
          match s with
          | String _ s' => findall_go fuel' r s'
          | EmptyString => []
          end
      end
  end.

Definition findall (r : regex) (text : string) : list string :=
  findall_go (S (String.length text)) r text.

(** Pattern syntax. With [re.IGNORECASE] a letter of the pattern matches
    its two cases. *)
Definition ci (c : ascii) : ascii → bool :=
  λ d, Ascii.eqb (Py.lower_char d) (Py.lower_char c).

Fixpoint lit (s : string) : regex :=
  match s with
  | EmptyString => Eps
  | String c rest => Seq (Chr (ci c)) (lit rest)
  end.

Definition plus (p : ascii → bool) : regex := Seq (Chr p) (Many true p).

Fixpoint alts (rs : list regex) : regex :=
  match rs with
  | [] => Chr (λ _, false)
  | [r] => r
  | r :: rest => Alt r (alts rest)
  end.

(** The class of the stream patterns: anything but white space, the two
    quotes, the angle brackets and the backquote. *)
Definition url_char (c : ascii) : bool :=
  negb (Py.isspace c || Py.has_char c "'<>`" || (Py.code c =? 34)%nat).

(** [[^>]] *)
Definition not_gt (c : ascii) : bool := negb (Ascii.eqb c ">").

(** [.]: anything but a newline *)
Definition dot (c : ascii) : bool := negb (Py.code c =? 10)%nat.

(** The class of the two quotes, double (34) and single. *)
Definition quote (c : ascii) : bool := (Py.code c =? 34)%nat || Ascii.eqb c "'".

(** What a pattern can match, without the order of the attempts. *)
Fixpoint lang (r : regex) (w : string) : Prop :=
  match r with
  | Chr p => ∃ c, w = String c EmptyString ∧ p c = true
  | Eps => w = EmptyString
  | Seq r1 r2 => ∃ w1 w2, w = w1 ++ w2 ∧ lang r1 w1 ∧ lang r2 w2
  | Alt r1 r2 => lang r1 w ∨ lang r2 w
  | Opt r1 => lang r1 w ∨ w = EmptyString
  | Many _ p => ∀ c, Py.has_char c w = true → p c = true
  | Group r1 => lang r1 w
  end.

End Re.

(** ** The patterns of the stream endpoint *)

Fixpoint seqs (rs : list Re.regex) : Re.regex :=
  match rs with
  | [] => Re.Eps
  | [r] => r
  | r :: rest => Re.Seq r (seqs rest)
  end.

(** find_urls_in_text, the playlist pattern: [http], an optional [s],
    [://], one or more [Re.url_char], [.m3u8], any number of
    [Re.url_char]; the whole is group 1; with [re.IGNORECASE]. *)
Definition m3u8_pattern : Re.regex :=
  Re.Group (seqs [Re.lit "http"; Re.Opt (Re.Chr (Re.ci "s")); Re.lit "://";
                  Re.plus Re.url_char; Re.lit ".m3u8"; Re.Many true Re.url_char]).

(** find_urls_in_text, the media pattern: [http], an optional [s],
    [://], one or more [Re.url_char], a dot, one of the six extensions,
    and optionally a question mark with any number of [Re.url_char]; the
    whole is group 1; with [re.IGNORECASE]. *)
Definition video_pattern : Re.regex :=
  Re.Group (seqs [Re.lit "http"; Re.Opt (Re.Chr (Re.ci "s")); Re.lit "://";
                  Re.plus Re.url_char; Re.lit ".";
                  Re.alts [Re.lit "mp4"; Re.lit "webm"; Re.lit "ogg";
                           Re.lit "mov"; Re.lit "mkv"; Re.lit "ts"];
                  Re.Opt (Re.Seq (Re.lit "?") (Re.Many true Re.url_char))]).

(** An opening tag [name] with a quoted [src] attribute, the value in
    group 1: the tag, one or more characters other than the closing
    bracket, [src], [=] with optional white space around it, a quote,
    the shortest run of non-newline characters, a quote; with
    [re.IGNORECASE]. *)
Definition src_pattern (name : string) : Re.regex :=
  seqs [Re.lit "<"; Re.lit name; Re.plus Re.not_gt; Re.lit "src";
        Re.Many true Py.isspace; Re.lit "="; Re.Many true Py.isspace;
        Re.Chr Re.quote; Re.Group (Re.Many false Re.dot); Re.Chr Re.quote].

(** get_streaming_links *)
Definition iframe_pattern : Re.regex := src_pattern "iframe".

(** find_js_file_urls *)
Definition js_pattern : Re.regex := src_pattern "script".

(** ** urllib.parse: urlsplit, urlparse, urlunparse and urljoin

    As CPython 3.11 has them. [ValueError] is [None]. The validation of a
    bracketed host ([_check_bracketed_netloc], which calls [ipaddress])
    is the parameter [bracket_ok]; releases without it are the constant
    [true]. [_checknetloc] only rejects characters whose NFKC form holds
    a delimiter, and no code point below 256 has such a form. *)

Module Urllib.

Definition in_list (s : string) (l : list string) : bool :=
  existsb (String.eqb s) l.

Definition uses_relative : list string :=
  [""; "ftp"; "http"; "gopher"; "nntp"; "imap"; "wais"; "file"; "https";
   "shttp"; "mms"; "prospero"; "rtsp"; "rtspu"; "sftp"; "svn"; "svn+ssh";
   "ws"; "wss"].

Definition uses_netloc : list string :=
  [""; "ftp"; "http"; "gopher"; "nntp"; "telnet"; "imap"; "wais"; "file";
   "mms"; "https"; "shttp"; "snews"; "prospero"; "rtsp"; "rtspu"; "rsync";
   "svn"; "svn+ssh"; "sftp"; "nfs"; "git"; "git+ssh"; "ws"; "wss"].

Definition uses_params : list string :=
  [""; "ftp"; "hdl"; "prospero"; "http"; "imap"; "https"; "shttp"; "rtsp";
   "rtspu"; "sip"; "sips"; "mms"; "sftp"; "tel"].

(** [scheme_chars]: letters, digits and [+-.] *)
Definition scheme_char (c : ascii) : bool :=
  Py.is_lower c || Py.is_upper c || Py.is_digit c || Py.has_char c "+-.".

(** [_WHATWG_C0_CONTROL_OR_SPACE]: the code points 0 to 32 *)
Definition c0_or_space (c : ascii) : bool := (Py.code c <=? 32)%nat.

(** [_UNSAFE_URL_BYTES_TO_REMOVE]: tab, carriage return, newline *)
Definition unsafe_byte (c : ascii) : bool :=
  (Py.code c =? 9)%nat || (Py.code c =? 13)%nat || (Py.code c =? 10)%nat.

Fixpoint all_chars (p : ascii → bool) (s : string) : bool :=
  match s with
  | EmptyString => true
  | String c rest => p c && all_chars p rest
  end.

(** The first lines of urlsplit: the url without its leading controls and
    spaces and without tabs and line ends. *)
Definition clean (url : string) : string :=
  Py.remove_chars unsafe_byte (Py.lstrip_by c0_or_space url).

(** The scheme a cleaned url states and what follows its colon: the text
    before the first colon when it is not empty, starts with an ASCII
    letter and is made of scheme characters. *)
Definition explicit_scheme (url : string) : option (string * string) :=
  match Py.cut ":" url with
  | (String c0 pre, Some rest) =>
      if Py.is_ascii_alpha c0 && all_chars scheme_char (String c0 pre)
      then Some (Py.lower (String c0 pre), rest)
      else None
  | _ => None
  end.

(** A url is absolute when urlsplit finds a scheme in it. *)
Definition is_absolute (url : string) : bool :=
  match explicit_scheme (clean url) with Some _ => true | None => false end.

(** [_splitnetloc(url, 2)] on what follows the two slashes: up to the
    first of [/?#]. *)
Fixpoint splitnetloc (s : string) : string * string :=
  match s with
  | EmptyString => (EmptyString, EmptyString)
  | String c rest =>
      if Py.has_char c "/?#" then (EmptyString, s)
      else let '(n, r) := splitnetloc rest in (String c n, r)
  end.

Record SplitResult : Type := mkSplit {
  scheme : string; netloc : string; path : string;
  query : string; fragment : string }.

Record ParseResult : Type := mkParse {
  p_scheme : string; p_netloc : string; p_path : string;
  p_params : string; p_query : string; p_fragment : string }.

Section parse.
Variable bracket_ok : string → bool.

(** The two bracket checks of urlsplit on a network location. *)
Definition netloc_ok (netloc : string) : bool :=
  let lb := Py.has_char "[" netloc in
  let rb := Py.has_char "]" netloc in
  if (lb && negb rb) || (rb && negb lb) then false
  else if lb && rb then bracket_ok netloc
  else true.

(** [urlsplit(url, scheme)] with [allow_fragments=True] *)
Definition urlsplit (url default : string) : option SplitResult :=
  let url := clean url in
  let default := Py.remove_chars unsafe_byte (Py.rstrip_by c0_or_space
                   (Py.lstrip_by c0_or_space default)) in
  let '(scheme, url) :=
    match explicit_scheme url with
    | Some (s, rest) => (s, rest)
    | None => (default, url)
    end in
  let '(netloc, url) :=
    if Py.startswith url "//" then splitnetloc (Py.drop 2 url)
    else (EmptyString, url) in
  if netloc_ok netloc then
    let '(url, fragment) :=
      match Py.cut "#" url with
      | (a, Some b) => (a, b)
      | (a, None) => (a, EmptyString)
      end in
    let '(url, query) :=
      match Py.cut "?" url with
      | (a, Some b) => (a, b)
      | (a, None) => (a, EmptyString)
      end in
    Some (mkSplit scheme netloc url query fragment)
  else None.

(** [_splitparams(url)] when [';' in url]: cut at the first semicolon
    after the last slash. *)
Definition splitparams (url : string) : string * string :=
  let segs := Py.split "/" url in
  match Py.cut ";" (List.last segs EmptyString) with
  | (a, Some b) => (Py.join "/" (removelast segs ++ [a])%list, b)
  | (_, None) => (url, EmptyString)
  end.

(** [urlparse(url, scheme)] *)
Definition urlparse (url default : string) : option ParseResult :=
  match urlsplit url default with
  | Some r =>
      let '(url, params) :=
        if in_list (scheme r) uses_params && Py.has_char ";" (path r)
        then splitparams (path r) else (path r, EmptyString) in
      Some (mkParse (scheme r) (netloc r) url params (query r) (fragment r))
  | None => None
  end.

End parse.

(** [urlunsplit((scheme, netloc, url, query, fragment))] *)
Definition urlunsplit (scheme netloc url query fragment : string) : string :=
  let url :=
    if Py.truthy_str netloc
       || (Py.truthy_str scheme && in_list scheme uses_netloc
           && negb (Py.startswith url "//"))
    then "//" ++ netloc
         ++ (if Py.truthy_str url && negb (Py.startswith url "/")
             then "/" ++ url else url)
    else url in
  let url := if Py.truthy_str scheme then scheme ++ ":" ++ url else url in
  let url := if Py.truthy_str query then url ++ "?" ++ query else url in
  if Py.truthy_str fragment then url ++ "#" ++ fragment else url.

(** [urlunparse((scheme, netloc, url, params, query, fragment))] *)
Definition urlunparse (scheme netloc url params query fragment : string) : string :=
  urlunsplit scheme netloc
    (if Py.truthy_str params then url ++ ";" ++ params else url)
    query fragment.

(** [segments[1:-1] = filter(None, segments[1:-1])] *)
Definition drop_empty_inner (segments : list string) : list string :=
  match segments with
  | first :: (_ :: _) as rest =>
      (first :: List.filter Py.truthy_str (removelast rest)
         ++ [List.last rest EmptyString])%list
  | _ => segments
  end.

(** The loop of urljoin over the segments: [..] pops, [.] is skipped. *)
Definition resolve (segments : list string) : list string :=
  fold_left
    (λ resolved seg,
       if String.eqb seg ".." then removelast resolved
       else if String.eqb seg "." then resolved
       else (resolved ++ [seg])%list)
    segments [].

Section join.
Variable bracket_ok : string → bool.

(** [urljoin(base, url)] *)
Definition urljoin (base url : string) : option string :=
  if negb (Py.truthy_str base) then Some url
  else if negb (Py.truthy_str url) then Some base
  else
    match urlparse bracket_ok base EmptyString with
    | None => None
    | Some b =>
        match urlparse bracket_ok url (p_scheme b) with
        | None => None
        | Some u =>
            if negb (String.eqb (p_scheme u) (p_scheme b))
               || negb (in_list (p_scheme u) uses_relative)
            then Some url
            else if in_list (p_scheme u) uses_netloc && Py.truthy_str (p_netloc u)
            then Some (urlunparse (p_scheme u) (p_netloc u) (p_path u)
                         (p_params u) (p_query u) (p_fragment u))
            else
              let netloc :=
                if in_list (p_scheme u) uses_netloc then p_netloc b
                else p_netloc u in
              if negb (Py.truthy_str (p_path u)) && negb (Py.truthy_str (p_params u))
              then Some (urlunparse (p_scheme u) netloc (p_path b) (p_params b)
                           (if Py.truthy_str (p_query u) then p_query u
                            else p_query b)
                           (p_fragment u))
              else
                let base_parts :=
                  let parts := Py.split "/" (p_path b) in
                  if negb (String.eqb (List.last parts EmptyString) EmptyString)
                  then removelast parts else parts in
                let segments :=
                  if Py.startswith (p_path u) "/" then Py.split "/" (p_path u)
                  else drop_empty_inner (base_parts ++ Py.split "/" (p_path u))%list in
                let resolved := resolve segments in
                let resolved :=
                  if in_list (List.last segments EmptyString) ["."; ".."]
                  then (resolved ++ [EmptyString])%list else resolved in
                let joined := Py.join "/" resolved in
                Some (urlunparse (p_scheme u) netloc
                        (if Py.truthy_str joined then joined else "/")
                        (p_params u) (p_query u) (p_fragment u))
        end
    end.

End join.

End Urllib.


(** ** urllib.parse.quote_plus *)

Module Quote.

(** [_ALWAYS_SAFE]: the letters, the digits and the four marks *)
Definition always_safe (c : ascii) : bool :=
  Py.is_ascii_alpha c || Py.is_digit c || Py.has_char c "_.-~".

Definition hex_upper (n : Z) : ascii :=
  if n <? 10 then ascii_of_nat (48 + Z.to_nat n)
  else ascii_of_nat (55 + Z.to_nat n).

(** One byte as [quote_from_bytes] writes it: itself when it is safe, and
    otherwise a percent sign and two hexadecimal digits. *)
Definition quote_byte (safe : string) (b : Z) : string :=
  let c := ascii_of_nat (Z.to_nat b) in
  if (b <? 128) && (always_safe c || Py.has_char c safe)
  then String c EmptyString
  else String "%" (String (hex_upper (b / 16))
                     (String (hex_upper (b mod 16)) EmptyString)).

(** [quote(string, safe)]: the bytes of the UTF-8 encoding, each quoted *)
Definition quote (safe : string) (s : string) : string :=
  fold_right (λ b acc, quote_byte safe b ++ acc) EmptyString (Md5.encode s).

(** [quote_plus(string)]: quote with the space kept, then every space
    replaced by a plus sign *)
Definition quote_plus (s : string) : string :=
  if negb (Py.has_char " " s) then quote "" s
  else Py.replace " " "+" (quote " " s).

End Quote.

(** ** BeautifulSoup documents

    A parsed document is a tree of tags and text; the [BeautifulSoup]
    object is the root tag. The functions are the ones of bs4 the source
    calls. Parsing itself is a parameter of the model (see [platform]). *)

Module Soup.

Inductive node : Type :=
| Tag (name : string) (attrs : gmap string string) (children : list node)
| Text (s : string).

Definition children (n : node) : list node :=
  match n with Tag _ _ ch => ch | Text _ => [] end.

(** [tag.get(key)] *)
Definition get (key : string) (n : node) : option string :=
  match n with Tag _ a _ => a !! key | Text _ => None end.

(** [tag.has_attr(key)] *)
Definition has_attr (key : string) (n : node) : bool :=
  match get key n with Some _ => true | None => false end.

(** A value of an attribute is truthy when it is there and not empty. *)
Definition truthy_attr (v : option string) : bool :=
  match v with Some s => Py.truthy_str s | None => false end.

(** Everything below [n], in document order. *)
Fixpoint descendants (n : node) : list node :=
  match n with
  | Tag _ _ ch => flat_map (λ c, c :: descendants c) ch
  | Text _ => []
  end.

(** [tag.text]: the text below [n], concatenated. *)
Fixpoint text (n : node) : string :=
  match n with
  | Tag _ _ ch => fold_right (λ c acc, text c ++ acc) EmptyString ch
  | Text s => s
  end.

(** [tag.string]: the text of a tag whose only content is one string,
    directly or through a chain of only children. *)
Fixpoint string_of (n : node) : option string :=
  match n with
  | Text s => Some s
  | Tag _ _ [c] => string_of c
  | Tag _ _ _ => None
  end.

(** The white-space separated words of an attribute value, as bs4 splits
    the [class] attribute. *)
Fixpoint words_go (cur : string) (s : string) : list string :=
  match s with
  | EmptyString => if Py.truthy_str cur then [cur] else []
  | String c rest =>
      if Py.isspace c
      then (if Py.truthy_str cur then cur :: words_go EmptyString rest
            else words_go EmptyString rest)
      else words_go (cur ++ String c EmptyString) rest
  end.

Definition words (s : string) : list string := words_go EmptyString s.

Definition is_tag (name : string) (n : node) : bool :=
  match n with Tag nm _ _ => String.eqb nm name | Text _ => false end.

(** The filter [class_=cls] for a class name without white space. *)
Definition has_class (cls : string) (n : node) : bool :=
  match get "class" n with
  | Some v => existsb (String.eqb cls) (words v)
  | None => false
  end.

(** The filter [key=value] on a single-valued attribute. *)
Definition has_attr_value (key value : string) (n : node) : bool :=
  match get key n with Some v => String.eqb v value | None => false end.

(** [tag.find_all(...)] with the filter [p]. *)
Definition find_all (p : node → bool) (n : node) : list node :=
  List.filter p (descendants n).

(** [tag.find(...)] *)
Definition find (p : node → bool) (n : node) : option node :=
  head (find_all p n).

(** [tag.find(...)] together with the siblings that follow the tag found,
    for [find_next_sibling]. *)
Fixpoint find_in (p : node → bool) (n : node) (following : list node)
    : option (node * list node) :=
  if p n then Some (n, following)
  else match n with
       | Tag _ _ ch =>
           (fix go (l : list node) : option (node * list node) :=
              match l with
              | [] => None
              | c :: r =>
                  match find_in p c r with
                  | Some x => Some x
                  | None => go r
                  end
              end) ch
       | Text _ => None
       end.

Definition find_with_siblings (p : node → bool) (root : node)
    : option (node * list node) :=
  match root with
  | Tag _ _ ch =>
      (fix go (l : list node) : option (node * list node) :=
         match l with
         | [] => None
         | c :: r =>
             match find_in p c r with
             | Some x => Some x
             | None => go r
             end
         end) ch
  | Text _ => None
  end.

End Soup.


(** ** More of BeautifulSoup: stripped text, positions, CSS selectors

    What the scrapers of the home page and of the search page call
    beyond the functions above: [get_text(strip=True)],
    [find_next_sibling], and [select] and [select_one] for the two
    selectors of the source. *)

Module Bs4.

(** The strings below a tag, each stripped, the empty ones left out. *)
Fixpoint stripped_strings (n : Soup.node) : list string :=
  match n with
  | Soup.Text s =>
      let t := Py.strip s in if Py.truthy_str t then [t] else []
  | Soup.Tag _ _ ch => flat_map stripped_strings ch
  end.

(** [tag.get_text(strip=True)] *)
Definition get_text (n : Soup.node) : string := Py.join "" (stripped_strings n).

(** A node where it stands: with the siblings that follow it and with its
    ancestors, the nearest first. *)
Record located : Type := mkLocated {
  here : Soup.node;
  following : list Soup.node;
  ancestors : list Soup.node }.

(** Everything below [n], in document order, each where it stands;
    [above] are the ancestors of [n]. *)
Fixpoint below (above : list Soup.node) (n : Soup.node) : list located :=
  match n with
  | Soup.Tag _ _ ch =>
      (fix go (l : list Soup.node) : list located :=
         match l with
         | [] => []
         | c :: r =>
             (mkLocated c r (n :: above) :: below (n :: above) c ++ go r)%list
         end) ch
  | Soup.Text _ => []
  end.

(** [tag.find_next_sibling(...)] with the filter [p] *)
Definition find_next_sibling (p : Soup.node → bool) (x : located)
    : option Soup.node :=
  head (List.filter p (following x)).

(** [tag.select(...)] for a selector with a child combinator: the tags
    below that match [child] and whose parent matches [parent]. *)
Definition select_child (parent child : Soup.node → bool)
    (above : list Soup.node) (n : Soup.node) : list located :=
  List.filter
    (λ y, child (here y)
          && match ancestors y with p :: _ => parent p | [] => false end)
    (below above n).

(** [tag.select_one(...)] for a selector with a descendant combinator:
    the first tag below that matches [descendant] and has an ancestor
    that matches [ancestor], inside the tag or above it. *)
Definition select_one_descendant (ancestor descendant : Soup.node → bool)
    (x : located) : option Soup.node :=
  here <$> head (List.filter
                   (λ y, descendant (here y) && existsb ancestor (ancestors y))
                   (below (ancestors x) (here x))).

End Bs4.

(** ** Values, exceptions and the outside world *)

(** The base URL for the anime site *)
Definition BASE_URL : string := "https://animesalt.cc".

(** An item of the home page or of a search: a dict of strings. *)
Definition item : Type := list (string * string).

(** An entry of ['episodes'] in the detail response. *)
Record episode : Type := mkEpisode {
  episode_number : string;
  ep_title : string;
  ep_url : string;
  ep_image_url : string }.

(** [anime_data] of get_anime_info *)
Record anime_data : Type := mkAnime {
  title : string;
  url : string;
  image_url : string;
  languages : list string;
  total_episodes : nat;
  episodes : list episode }.

(** [result] of get_streaming_links *)
Record stream_result : Type := mkStream {
  episode_url : string;
  m3u8_links : list string;
  video_links : list string;
  iframes : list string;
  total_streams : nat }.

(** What the cache holds and what [jsonify] is given: page text, the
    dict of the home page, the dict of a search, [anime_data], or the
    [result] of the stream endpoint. *)
Inductive value : Type :=
| VText (html : string)
| VHome (sections : list (string * list item))
| VSearch (results : list item) (count : nat)
| VAnime (a : anime_data)
| VStream (r : stream_result).

(** [if cached_result:] - an empty string and an empty dict are falsy. *)
Definition truthy (v : value) : bool :=
  match v with
  | VText s => Py.truthy_str s
  | VHome sections => match sections with [] => false | _ => true end
  | VSearch _ _ | VAnime _ | VStream _ => true
  end.

(** Exceptions, each with its [str(e)]. [RequestException] stands for
    the class and its subclasses (timeouts, connection and HTTP errors);
    [OtherException] for any [Exception] outside the classes named. *)
Inductive exn : Type :=
| RequestException (msg : string)
| ValueError (msg : string)
| IndexError (msg : string)
| Exception (msg : string)
| OtherException (msg : string).

Definition str (e : exn) : string :=
  match e with
  | RequestException m | ValueError m | IndexError m
  | Exception m | OtherException m => m
  end.

Definition is_request_exception (e : exn) : bool :=
  match e with RequestException _ => true | _ => false end.

(** An HTTP GET as [requests] is asked for it. *)
Record request : Type := mkRequest {
  req_url : string;
  req_params : list (string * string);
  req_timeout : Z }.

(** What comes back: the status, the [Content-Encoding] header, the body
    as bytes ([response.content]) and as [requests] decodes it
    ([response.text]). *)
Record reply : Type := mkReply {
  status_code : Z;
  content_encoding : option string;
  content : string;
  reply_text : string }.

(** The upstream site and the network: an answer, or the exception that
    [get] raises. *)
Definition site : Type := request → exn + reply.

(** [response.raise_for_status()]: an HTTPError, which is a
    RequestException, for a status from 400 to 599. *)
Definition raise_for_status (r : reply) : exn + unit :=
  if (400 <=? status_code r) && (status_code r <? 600)
  then inl (RequestException "HTTPError")
  else inr tt.

(** Library code whose body is outside the repository. *)
Record platform : Type := mkPlatform {
  (** [BeautifulSoup(text, 'html.parser')]; [None] when it raises *)
  html_parser : string → option Soup.node;
  (** [gzip.decompress]; [None] when it raises *)
  gzip_decompress : string → option string;
  (** [bytes.decode('utf-8', errors='ignore')] *)
  utf8_decode : string → string;
  (** [_check_bracketed_netloc] of urllib.parse *)
  bracket_ok : string → bool;
  (** [list(set(l))]: the elements of [l], once each, in the order the
      set iterates *)
  list_set : list string → list string;
  list_set_NoDup : ∀ l, NoDup (list_set l);
  list_set_elem : ∀ l x, x ∈ list_set l ↔ x ∈ l }.

(** The state of the process and of its surroundings. [clock] is what the
    successive calls of [time.time()] return, [ticks] how many were made;
    [session_log] lists the requests sent on the shared [session], the
    latest first. *)
Record world : Type := mkWorld {
  cache : CacheManager.t value;
  clock : nat → Z;
  ticks : nat;
  upstream : site;
  session_log : list request }.

(** Computations that read and change the world and may raise. *)
Definition M (A : Type) : Type := world → (exn + A) * world.

Definition ret {A} (x : A) : M A := λ w, (inr x, w).

Definition raise {A} (e : exn) : M A := λ w, (inl e, w).

Definition bind {A B} (m : M A) (f : A → M B) : M B :=
  λ w, match m w with
       | (inr x, w') => f x w'
       | (inl e, w') => (inl e, w')
       end.

(** [try: m except Exception as e: h e] *)
Definition try_except {A} (m : M A) (h : exn → M A) : M A :=
  λ w, match m w with
       | (inr x, w') => (inr x, w')
       | (inl e, w') => h e w'
       end.

(** A pure step that may raise. *)
Definition lift {A} (r : exn + A) : M A := λ w, (r, w).

Notation "'let!' x := m 'in' k" := (bind m (λ x, k))
  (at level 10, x name, m at level 100, k at level 200).

(** The world after one more reading of the clock. *)
Definition tick (w : world) : world :=
  mkWorld (cache w) (clock w) (S (ticks w)) (upstream w) (session_log w).

(** [time.time()] *)
Definition time_time : M Z := λ w, (inr (clock w (ticks w)), tick w).

Definition with_cache (c : CacheManager.t value) (w : world) : world :=
  mkWorld c (clock w) (ticks w) (upstream w) (session_log w).

(** [cache.get(key)]: the clock is read only when the key is present. *)
Definition cache_get (key : string) : M (option value) :=
  λ w, match CacheManager.cache (cache w) !! key with
       | Some _ =>
           match time_time w with
           | (inr now, w') =>
               let '(r, c) := CacheManager.get now key (cache w') in
               (inr r, with_cache c w')
           | (inl e, w') => (inl e, w')
           end
       | None => (inr None, w)
       end.

(** [cache.set(key, value)] *)
Definition cache_set (key : string) (v : value) : M unit :=
  let! now := time_time in
  λ w, (inr tt, with_cache (CacheManager.set now key v (cache w)) w).

(** [cache.clear()] *)
Definition cache_clear : M unit :=
  λ w, (inr tt, with_cache (CacheManager.clear (cache w)) w).

(** [session.get(url, timeout=t)] on the shared session *)
Definition session_get (u : string) (t : Z) : M reply :=
  λ w, let rq := mkRequest u [] t in
       (upstream w rq,
        mkWorld (cache w) (clock w) (ticks w) (upstream w) (rq :: session_log w)).

(** A handler answers with a status and a JSON body. *)
Inductive body : Type :=
| BError (msg : string)
| BStatus (msg : string)
| BValue (v : value).

Definition response : Type := Z * body.

(** [remove_base_url(url)] *)
Definition remove_base_url (u : string) : string :=
  if Py.startswith u BASE_URL then Py.replace BASE_URL "" u else u.

(** [add_base_url(url)] *)
Definition add_base_url (u : string) : string :=
  if negb (Py.startswith u "http")
  then (if Py.startswith u "/" then BASE_URL ++ u else BASE_URL ++ "/" ++ u)
  else u.

(** [concurrent.futures.as_completed]: the futures, each once, in the
    order they complete. [order] lists their positions in the order of
    completion; it is a schedule when it is a permutation of the
    positions. *)
Definition as_completed {A} (order : list nat) (futures : list A) : list A :=
  omap (λ i, futures !! i) order.

Definition is_schedule {A} (order : list nat) (futures : list A) : Prop :=
  order ≡ₚ seq 0 (length futures).

(** ** The server *)

Section server.
Context (P : platform).

(** [hashlib.md5(url.encode()).hexdigest()] *)
Definition md5_key (u : string) : string := Md5.hexdigest (Md5.encode u).

(** The [try] block of fetch_with_cache. *)
Definition fetch_from_network (u : string) (use_cache : bool)
    (cache_key : string) : M value :=
  try_except
    (let! resp := session_get u 10 in
     let! _ := lift (raise_for_status resp) in
     let! bytes :=
       (match content_encoding resp with
        | Some enc =>
            if String.eqb enc "gzip" then
              match gzip_decompress P (content resp) with
              | Some c => ret c
              | None => raise (OtherException "BadGzipFile")
              end
            else ret (content resp)
        | None => ret (content resp)
        end) in
     let html_content := utf8_decode P bytes in
     let! _ := (if use_cache then cache_set cache_key (VText html_content)
                else ret tt) in
     ret (VText html_content))
    (λ e, match e with
          | RequestException m => raise (Exception ("Error fetching URL: " ++ m))
          | _ => raise e
          end).

(** [fetch_with_cache(url, use_cache)] *)
Definition fetch_with_cache (u : string) (use_cache : bool) : M value :=
  let cache_key := md5_key u in
  let! cached_data := (if use_cache then cache_get cache_key else ret None) in
  match cached_data with
  | Some v => if truthy v then ret v else fetch_from_network u use_cache cache_key
  | None => fetch_from_network u use_cache cache_key
  end.

(** A page handed to [BeautifulSoup] or to a pattern must be text. *)
Definition as_text (v : value) : exn + string :=
  match v with
  | VText s => inr s
  | _ => inl (OtherException "TypeError")
  end.

(** [[urljoin(base, u) for u in urls]] *)
Definition join_all (base : string) (urls : list string) : exn + list string :=
  match mapM (Urllib.urljoin (bracket_ok P) base) urls with
  | Some l => inr l
  | None => inl (ValueError "Invalid IPv6 URL")
  end.

(** [find_urls_in_text(text, base_url)] *)
Definition find_urls_in_text (text base_url : string) : exn + list string :=
  let found_urls :=
    (Re.findall m3u8_pattern text ++ Re.findall video_pattern text)%list in
  match join_all base_url found_urls with
  | inr absolute_urls => inr (list_set P absolute_urls)
  | inl e => inl e
  end.

(** [find_js_file_urls(html_content, base_url)] *)
Definition find_js_file_urls (html_content base_url : string) : exn + list string :=
  let js_urls := Re.findall js_pattern html_content in
  match join_all base_url
          (List.filter (λ u, Py.endswith u ".js" || Py.contains "javascript" u)
             js_urls) with
  | inr absolute_js_urls => inr (list_set P absolute_js_urls)
  | inl e => inl e
  end.

(** [scan_js_file(js_url)], a task of the stream fan-out. It has a session
    of its own, and its bare [except] turns every failure into []. *)
Definition scan_js_file (s : site) (js_url : string) : list string :=
  match s (mkRequest js_url [] 5) with
  | inr js_response =>
      match raise_for_status js_response with
      | inr _ =>
          match find_urls_in_text (reply_text js_response) js_url with
          | inr l => l
          | inl _ => []
          end
      | inl _ => []
      end
  | inl _ => []
  end.

(** The loop of get_streaming_links over the completed scans:
    [found_in_js = future.result()], extended when not empty, and
    [continue] on an exception. *)
Definition gather_js (completed : list (exn + list string)) : list string :=
  fold_left
    (λ js_streams outcome,
       match outcome with
       | inr found_in_js =>
           match found_in_js with
           | [] => js_streams
           | _ => (js_streams ++ found_in_js)%list
           end
       | inl _ => js_streams
       end)
    completed [].

Definition non_stream_exts : list string :=
  [".js"; ".css"; ".png"; ".jpg"; ".gif"; ".svg"; ".ico"].

Definition video_exts : list string := [".mp4"; ".webm"; ".mov"; ".ts"].

(** [any(ext in url.lower() for ext in exts)] *)
Definition any_ext (exts : list string) (u : string) : bool :=
  existsb (λ ext, Py.contains ext (Py.lower u)) exts.

(** "Combine, Deduplicate, and Filter Results" and "Prioritize the
    results": the response built from the streams of the page, the
    streams of the scripts and the iframes. *)
Definition build_result (url_path : string)
    (html_streams js_streams found_iframes : list string) : stream_result :=
  let all_streams := list_set P (html_streams ++ js_streams)%list in
  let filtered_streams :=
    List.filter (λ u, negb (any_ext non_stream_exts u)) all_streams in
  let m3u8_links :=
    List.filter (λ u, Py.contains ".m3u8" (Py.lower u)) filtered_streams in
  let video_links := List.filter (any_ext video_exts) filtered_streams in
  mkStream url_path m3u8_links video_links found_iframes
    (length m3u8_links + length video_links + length found_iframes)%nat.

(** The [try] block of get_streaming_links. *)
Definition stream_body (url_path source_url cache_key : string)
    (order : list nat) : M response :=
  let! page := fetch_with_cache source_url false in
  let! html_content := lift (as_text page) in
  let! html_streams := lift (find_urls_in_text html_content source_url) in
  let! js_file_urls := lift (find_js_file_urls html_content source_url) in
  let! js_streams :=
    (λ w, (inr (gather_js
                  (as_completed order
                     (map (λ js_url, inr (scan_js_file (upstream w) js_url))
                        (firstn 5 js_file_urls)))), w)) in
  let! joined :=
    lift (join_all source_url (Re.findall iframe_pattern html_content)) in
  let found_iframes := list_set P joined in
  let result := build_result url_path html_streams js_streams found_iframes in
  let! _ := cache_set cache_key (VStream result) in
  ret (200, BValue (VStream result)).

(** The stream endpoint after a cache miss. *)
Definition stream_fresh (url_path cache_key : string) (order : list nat) : M response :=
  let final_path :=
    if Py.startswith url_path "movies/" || Py.startswith url_path "episode/"
    then url_path else "episode/" ++ url_path in
  let source_url := add_base_url final_path in
  try_except (stream_body url_path source_url cache_key order)
    (λ e, ret (500, BError (str e))).

(** [if cached_result:] on what [cache.get] returned *)
Definition hit (cached_result : option value) : option value :=
  match cached_result with
  | Some v => if truthy v then Some v else None
  | None => None
  end.

(** [get_streaming_links(url_path)], the handler of [/api/stream/<path>] *)
Definition get_streaming_links (url_path : string) (order : list nat) : M response :=
  let cache_key := "stream_" ++ url_path in
  let! cached_result := cache_get cache_key in
  match hit cached_result with
  | Some v => ret (200, BValue v)
  | None => stream_fresh url_path cache_key order
  end.

(** *** The detail endpoint *)

(** [BeautifulSoup(text, 'html.parser')] *)
Definition parse_html (text : string) : exn + Soup.node :=
  match html_parser P text with
  | Some soup => inr soup
  | None => inl (OtherException "parser error")
  end.

(** [get_episodes_for_season(post_id, season_num)], a task of the season
    fan-out, with a session of its own: the [li] tags of the answer, []
    on a RequestException; any other exception leaves the task. *)
Definition get_episodes_for_season (s : site) (post_id season_num : string)
    : exn + list Soup.node :=
  let ajax_url := BASE_URL ++ "/wp-admin/admin-ajax.php" in
  let params := [("action", "action_select_season");
                 ("season", season_num); ("post", post_id)] in
  match s (mkRequest ajax_url params 15) with
  | inr resp =>
      match raise_for_status resp with
      | inr _ =>
          match parse_html (reply_text resp) with
          | inr soup => inr (Soup.find_all (Soup.is_tag "li") soup)
          | inl e => inl e
          end
      | inl _ => inr []
      end
  | inl e => if is_request_exception e then inr [] else inl e
  end.

(** [button.get('data-post') and button.get('data-season')] *)
Definition has_post_and_season (button : Soup.node) : bool :=
  Soup.truthy_attr (Soup.get "data-post" button)
  && Soup.truthy_attr (Soup.get "data-season" button).

(** [enumerate(season_buttons)] *)
Definition enumerate {A} (l : list A) : list (nat * A) := zip (seq 0 (length l)) l.

(** The task submitted for a season button:
    [get_episodes_for_season(button.get('data-post'),
    button.get('data-season'))]. *)
Definition season_task (s : site) (button : Soup.node)
    : exn + list Soup.node :=
  get_episodes_for_season s
    (default "" (Soup.get "data-post" button))
    (default "" (Soup.get "data-season" button)).

(** The dict [future_to_season] in the order of submission: for each
    button that has both attributes, its position among all the buttons
    and the outcome of its task. *)
Definition submit_seasons (s : site) (season_buttons : list Soup.node)
    : list (nat * (exn + list Soup.node)) :=
  map (λ '(i, button), (i, season_task s button))
      (List.filter (λ '(_, button), has_post_and_season button)
         (enumerate season_buttons)).

(** [results[index] = x]: an IndexError outside the list. *)
Definition assign {A} (results : list A) (index : nat) (x : A) : exn + list A :=
  if (index <? length results)%nat then inr (<[index := x]> results)
  else inl (IndexError "list assignment index out of range").

(** One round of the loop over the completed season tasks:
    [try: season_results[index] = future.result()]
    [except Exception: season_results[index] = []]. The [try] covers the
    assignment as well as the task. *)
Definition collect_season (season_results : list (option (list Soup.node)))
    (done : nat * (exn + list Soup.node))
    : exn + list (option (list Soup.node)) :=
  let '(index, outcome) := done in
  match (match outcome with
         | inr episodes => assign season_results index (Some episodes)
         | inl e => inl e
         end) with
  | inr season_results' => inr season_results'
  | inl _ => assign season_results index (Some [])
  end.

(** The loop: it stops at the first exception that leaves a round. *)
Fixpoint collect_seasons (season_results : list (option (list Soup.node)))
    (completed : list (nat * (exn + list Soup.node)))
    : exn + list (option (list Soup.node)) :=
  match completed with
  | [] => inr season_results
  | done :: rest =>
      match collect_season season_results done with
      | inr season_results' => collect_seasons season_results' rest
      | inl e => inl e
      end
  end.

(** [for episodes in season_results: if episodes: extend] *)
Definition merge_seasons (season_results : list (option (list Soup.node)))
    : list Soup.node :=
  flat_map (λ slot, default [] slot) season_results.

(** The fan-out and fan-in of get_anime_info: the episode items of all
    seasons, or the exception that leaves the [with] block. *)
Definition fetch_all_seasons (s : site) (season_buttons : list Soup.node)
    (order : list nat) : exn + list Soup.node :=
  let future_to_season := submit_seasons s season_buttons in
  let season_results := replicate (length future_to_season) None in
  match collect_seasons season_results (as_completed order future_to_season) with
  | inr season_results' => inr (merge_seasons season_results')
  | inl e => inl e
  end.

(** [tag.text.strip() if tag else 'N/A'] *)
Definition text_or_na (tag : option Soup.node) : string :=
  match tag with
  | Some t => Py.strip (Soup.text t)
  | None => "N/A"
  end.

(** One round of "Process All Episode Items": the entry of an item, none
    when it has no link. *)
Definition process_item (it : Soup.node) : option episode :=
  let link_tag := Soup.find (λ n, Soup.is_tag "a" n && Soup.has_class "lnk-blk" n) it in
  match link_tag with
  | None => None
  | Some lt =>
      match Soup.get "href" lt with
      | None => None
      | Some href =>
          if negb (Py.truthy_str href) then None
          else
            let ep_url :=
              if Py.startswith href "/"
              then BASE_URL ++ Py.lstrip_by (Ascii.eqb "/") href
              else href in
            let ep_number :=
              text_or_na (Soup.find (λ n, Soup.is_tag "span" n
                                          && Soup.has_class "num-epi" n) it) in
            let ep_title :=
              text_or_na (Soup.find (λ n, Soup.is_tag "h2" n
                                          && Soup.has_class "entry-title" n) it) in
            let ep_image_tag :=
              Soup.find (λ n, Soup.is_tag "div" n
                              && Soup.has_class "post-thumbnail" n) it in
            let ep_image_url :=
              match ep_image_tag with
              | Some d =>
                  match Soup.find (Soup.is_tag "img") d with
                  | Some img =>
                      if Soup.truthy_attr (Soup.get "data-src" img)
                      then default "N/A" (Soup.get "data-src" img)
                      else if Soup.truthy_attr (Soup.get "src" img)
                      then default "N/A" (Soup.get "src" img)
                      else "N/A"
                  | None => "N/A"
                  end
              | None => "N/A"
              end in
            Some (mkEpisode ep_number ep_title (remove_base_url ep_url) ep_image_url)
      end
  end.

(** "Scrape Main Anime Info": title, image and languages of the page. *)
Definition page_title (soup : Soup.node) : string :=
  text_or_na (Soup.find (Soup.is_tag "h1") soup).

Definition page_image (soup : Soup.node) : string :=
  match Soup.find (λ n, Soup.is_tag "meta" n
                        && Soup.has_attr_value "property" "og:image" n) soup with
  | Some og =>
      if Soup.truthy_attr (Soup.get "content" og)
      then default "N/A" (Soup.get "content" og) else "N/A"
  | None => "N/A"
  end.

Definition page_languages (soup : Soup.node) : list string :=
  match Soup.find_with_siblings
          (λ n, Soup.is_tag "h4" n
                && match Soup.string_of n with
                   | Some s => Py.contains "languages" (Py.lower s)
                   | None => false
                   end) soup with
  | Some (_, following) =>
      match List.filter (Soup.is_tag "div") following with
      | next_div :: _ =>
          map (λ g, Py.strip (Soup.text g))
            (Soup.find_all (Soup.is_tag "a") next_div)
      | [] => []
      end
  | None => []
  end.

(** [soup.find_all('a', class_='season-btn')] *)
Definition find_season_buttons (soup : Soup.node) : list Soup.node :=
  Soup.find_all (λ n, Soup.is_tag "a" n && Soup.has_class "season-btn" n) soup.

(** "Process All Episode Items" and "Assemble Final Data" *)
Definition assemble (url_path : string) (soup : Soup.node)
    (all_episode_items : list Soup.node) : anime_data :=
  let all_episodes := omap process_item all_episode_items in
  mkAnime (page_title soup) url_path (page_image soup) (page_languages soup)
    (length all_episodes) all_episodes.

(** The [try] block of get_anime_info. *)
Definition anime_body (url_path full_url cache_key : string)
    (order : list nat) : M response :=
  let! page := fetch_with_cache full_url true in
  let! html_content := lift (as_text page) in
  let! soup := lift (parse_html html_content) in
  let season_buttons := find_season_buttons soup in
  match season_buttons with
  | [] => ret (404, BError "No season buttons found")
  | _ =>
      let! all_episode_items :=
        (λ w, (fetch_all_seasons (upstream w) season_buttons order, w)) in
      let anime_data := assemble url_path soup all_episode_items in
      let! _ := cache_set cache_key (VAnime anime_data) in
      ret (200, BValue (VAnime anime_data))
  end.

(** [get_anime_info(url_path)], the handler of [/api/anime/<path>] *)
Definition get_anime_info (url_path : string) (order : list nat) : M response :=
  let cache_key := "anime_info_" ++ url_path in
  let! cached_result := cache_get cache_key in
  match hit cached_result with
  | Some v => ret (200, BValue v)
  | None =>
      try_except (anime_body url_path (add_base_url url_path) cache_key order)
        (λ e, ret (500, BError (str e)))
  end.

(** *** The other endpoints

    The markup rules of the home page and of the search page are outside
    the core; they are the parameters [scrape_home] and [scrape_search].
    What the handlers do with the cache is modelled as written. *)

Context (scrape_home : Soup.node → exn + list (string * list item)).
Context (scrape_search : Soup.node → exn + list item).
Context (quote_plus : string → string).

(** [get_homepage_data()], the handler of [/api/home] *)
Definition get_homepage_data : M response :=
  let cache_key := "homepage_data" in
  let! cached_result := cache_get cache_key in
  match hit cached_result with
  | Some v => ret (200, BValue v)
  | None =>
      try_except
        (let! page := fetch_with_cache BASE_URL true in
         let! html_content := lift (as_text page) in
         let! soup := lift (parse_html html_content) in
         let! all_anime_data := lift (scrape_home soup) in
         let! _ := cache_set cache_key (VHome all_anime_data) in
         ret (200, BValue (VHome all_anime_data)))
        (λ e, ret (500, BError (str e)))
  end.

(** [search_anime()], the handler of [/api/search], for the query [q] *)
Definition search_anime (q : option string) : M response :=
  match q with
  | None => ret (400, BError "Missing search query parameter 'q'")
  | Some search_query =>
      if negb (Py.truthy_str search_query)
      then ret (400, BError "Missing search query parameter 'q'")
      else
        let cache_key := "search_" ++ search_query in
        let! cached_result := cache_get cache_key in
        match hit cached_result with
        | Some v => ret (200, BValue v)
        | None =>
            let search_url := BASE_URL ++ "?s=" ++ quote_plus search_query in
            try_except
              (let! page := fetch_with_cache search_url true in
               let! html_content := lift (as_text page) in
               let! soup := lift (parse_html html_content) in
               let! scraped_data := lift (scrape_search soup) in
               let result := VSearch scraped_data (length scraped_data) in
               let! _ := cache_set cache_key result in
               ret (200, BValue result))
              (λ e, ret (500, BError (str e)))
        end
  end.

(** [clear_cache()], the handler of [/api/clear-cache] *)
Definition clear_cache : M response :=
  let! _ := cache_clear in
  ret (200, BStatus "Cache cleared").

(** The worlds the server can be in: it starts with an empty cache, the
    site and the clock may change at any time, and requests are served
    one after another. *)
Inductive reachable : world → Prop :=
| reach_start ttl clk s : reachable (mkWorld (CacheManager.init ttl) clk 0 s [])
| reach_environment w clk n s :
    reachable w → reachable (mkWorld (cache w) clk n s (session_log w))
| reach_home w :
    reachable w → reachable (snd (get_homepage_data w))
| reach_search w q :
    reachable w → reachable (snd (search_anime q w))
| reach_anime w url_path order :
    reachable w → reachable (snd (get_anime_info url_path order w))
| reach_stream w url_path order :
    reachable w → reachable (snd (get_streaming_links url_path order w))
| reach_clear w :
    reachable w → reachable (snd (clear_cache w)).

End server.


(** ** The home page *)

(** The filter [name, class_=cls] of find and find_all. *)
Definition tag_class (name cls : string) (n : Soup.node) : bool :=
  Soup.is_tag name n && Soup.has_class cls n.

(** [if image.startswith('//'): image = 'https:' + image] *)
Definition with_scheme (image : string) : string :=
  if Py.startswith image "//" then "https:" ++ image else image.

(** One round of the loop of scrape_section_parallel: the dict of a chart
    item; none when the round raises (a tag or an attribute is missing)
    and [except Exception: continue] skips it. *)
Definition chart_item (it : Soup.node) : option item :=
  match Soup.find (tag_class "div" "chart-title") it with
  | None => None
  | Some title_tag =>
      let title := Bs4.get_text title_tag in
      match Soup.find (tag_class "a" "chart-poster") it with
      | None => None
      | Some poster =>
          match Soup.get "href" poster with
          | None => None
          | Some href =>
              let link := remove_base_url href in
              match Soup.find (Soup.is_tag "img") it with
              | None => None
              | Some img =>
                  match Soup.get "data-src" img with
                  | None => None
                  | Some src =>
                      Some [("title", title); ("link", link);
                            ("image", with_scheme src)]
                  end
              end
          end
      end
  end.

(** [scrape_section_parallel(section)] for a title tag where it stands *)
Definition scrape_section_parallel (title_tag : Bs4.located)
    : string * list item :=
  let section_name := Bs4.get_text (Bs4.here title_tag) in
  match Bs4.find_next_sibling (tag_class "div" "aa-cn") title_tag with
  | None => (section_name, [])
  | Some content_container =>
      match Soup.find (tag_class "div" "chart-content") content_container with
      | None => (section_name, [])
      | Some chart_content =>
          (section_name,
           omap chart_item
             (Soup.find_all (tag_class "div" "chart-item") chart_content))
      end
  end.

(** One round of the loop of scrape_swiper_section_parallel: the dict of a
    slide; none when the slide has no [li], when the link tag has no href
    (the round raises and is skipped), or when there is no title. *)
Definition slide_item (section_name : string) (slide : Soup.node) : option item :=
  match Soup.find (Soup.is_tag "li") slide with
  | None => None
  | Some list_item =>
      let title :=
        match Soup.find (tag_class "h2" "entry-title") list_item with
        | Some title_tag => Bs4.get_text title_tag
        | None => "N/A"
        end in
      match (match Soup.find (tag_class "a" "lnk-blk") list_item with
             | Some link_tag => Soup.get "href" link_tag
             | None => Some "N/A"
             end) with
      | None => None
      | Some link0 =>
          let link :=
            if negb (String.eqb link0 "N/A") then remove_base_url link0
            else link0 in
          let image :=
            match Soup.find (Soup.is_tag "img") list_item with
            | Some img_tag => default "N/A" (Soup.get "data-src" img_tag)
            | None => "N/A"
            end in
          let image := with_scheme image in
          if String.eqb section_name "Fresh Drops" then
            let episodes :=
              match Soup.find (tag_class "span" "year") list_item with
              | Some ep_tag => Bs4.get_text ep_tag
              | None => "N/A"
              end in
            if negb (String.eqb title "N/A")
            then Some [("title", title); ("link", link); ("image", image);
                       ("episodes", episodes)]
            else None
          else
            if negb (String.eqb title "N/A")
            then Some [("title", title); ("link", link); ("image", image)]
            else None
      end
  end.

(** What scrape_swiper_section_parallel returns: the pair of None and the
    empty list, or a name with its items. *)
Inductive swiper : Type :=
| NoTitle
| Titled (section_name : string) (section_data : list item).

(** [scrape_swiper_section_parallel(section)] *)
Definition scrape_swiper_section_parallel (section : Soup.node) : swiper :=
  match Soup.find (tag_class "h3" "section-title") section with
  | None => NoTitle
  | Some name_tag =>
      let section_name := Bs4.get_text name_tag in
      match Soup.find (tag_class "div" "swiper-wrapper") section with
      | None => Titled section_name []
      | Some swiper_wrapper =>
          Titled section_name
            (omap (slide_item section_name)
               (Soup.find_all (tag_class "div" "swiper-slide") swiper_wrapper))
      end
  end.

(** [d[k] = v] on a dict, which keeps the order of insertion: the value
    of a key that is there is replaced where it stands. *)
Definition dict_set {A} (d : list (string * A)) (k : string) (v : A)
    : list (string * A) :=
  if existsb (λ kv, String.eqb (fst kv) k) d
  then map (λ kv, if String.eqb (fst kv) k then (k, v) else kv) d
  else (d ++ [(k, v)])%list.

(** The filter of the Most-Watched titles: an [h3] of class section-title
    whose string is not empty and contains Most-Watched. *)
Definition most_watched_title (n : Soup.node) : bool :=
  tag_class "h3" "section-title" n
  && match Soup.string_of n with
     | Some text => Py.truthy_str text && Py.contains "Most-Watched" text
     | None => false
     end.

(** The filter of the widget sections, a function of the class, which
    bs4 asks of each class of the tag and then of the classes joined. *)
Definition widget_class (c : string) : bool :=
  Py.truthy_str c && Py.contains "widget" c
  && (Py.contains "widget_list_episodes" c
      || Py.contains "widget_list_movies_series" c).

Definition widget_section (n : Soup.node) : bool :=
  Soup.is_tag "section" n
  && match Soup.get "class" n with
     | Some v =>
         existsb widget_class (Soup.words v)
         || widget_class (Py.join " " (Soup.words v))
     | None => false
     end.

(** The two fan-outs of get_homepage_data and the dict they fill, the
    sections entering it in the order their tasks complete. The tasks do
    not raise. *)
Definition scrape_home_page (order_charts order_swipers : list nat)
    (soup : Soup.node) : exn + list (string * list item) :=
  let most_watched_titles :=
    List.filter (λ x, most_watched_title (Bs4.here x)) (Bs4.below [] soup) in
  let all_anime_data :=
    fold_left
      (λ d done,
         let '(section_name, section_data) := done in
         match section_data with
         | [] => d
         | _ => dict_set d section_name section_data
         end)
      (as_completed order_charts (map scrape_section_parallel most_watched_titles))
      [] in
  let widget_sections := Soup.find_all widget_section soup in
  inr (fold_left
         (λ d result,
            match result with
            | Titled section_name ((_ :: _) as section_data) =>
                dict_set d section_name section_data
            | _ => d
            end)
         (as_completed order_swipers
            (map scrape_swiper_section_parallel widget_sections))
         all_anime_data).

(** ** The search page *)

(** The exceptions a round of the search loop is written for. *)
Inductive item_error : Type :=
| AttributeError
| KeyError (key : string).

(** One round of the loop of search_anime: the dict of a result, or the
    exception the round raises. *)
Definition search_item (x : Bs4.located) : item_error + item :=
  let it := Bs4.here x in
  let title := text_or_na (Soup.find (tag_class "h2" "entry-title") it) in
  match (match Soup.find (tag_class "a" "lnk-blk") it with
         | Some link_element =>
             match Soup.get "href" link_element with
             | Some href => inr href
             | None => inl (KeyError "href")
             end
         | None => inr "N/A"
         end) with
  | inl e => inl e
  | inr link0 =>
      let link := remove_base_url link0 in
      let image_url :=
        match Bs4.select_one_descendant (Soup.has_class "post-thumbnail")
                (Soup.is_tag "img") x with
        | Some image_element => default "N/A" (Soup.get "data-src" image_element)
        | None => "N/A"
        end in
      let item_classes :=
        match Soup.get "class" it with
        | Some v => Soup.words v
        | None => []
        end in
      let categories :=
        map (Py.replace "category-" "")
          (List.filter (λ cls, Py.startswith cls "category-") item_classes) in
      inr [("title", title); ("link", link); ("image_url", image_url);
           ("categories",
            match categories with
            | [] => "N/A"
            | _ => Py.join ", " categories
            end)]
  end.

(** The loop: [except AttributeError: continue]; any other exception
    leaves the loop. [str] of a KeyError is the key in quotes. *)
Fixpoint search_items (results_container : list Bs4.located) : exn + list item :=
  match results_container with
  | [] => inr []
  | x :: rest =>
      match search_item x with
      | inr anime_info =>
          match search_items rest with
          | inr scraped_data => inr (anime_info :: scraped_data)
          | inl e => inl e
          end
      | inl AttributeError => search_items rest
      | inl (KeyError key) => inl (OtherException ("'" ++ key ++ "'"))
      end
  end.

(** [soup.select('ul.post-lst > li')] *)
Definition results_container (soup : Soup.node) : list Bs4.located :=
  Bs4.select_child (tag_class "ul" "post-lst") (Soup.is_tag "li") [] soup.

(** The scrape of search_anime: the selection and the loop over it. *)
Definition scrape_search_page (soup : Soup.node) : exn + list item :=
  search_items (results_container soup).

(** ** A concrete platform and concrete worlds, for running the model *)

Module Fixtures.

(** A platform whose sets list their elements in the order of first
    occurrence, whose decoders are the identity, and whose parser knows
    the documents of [docs]. *)
Definition platform_of (docs : list (string * Soup.node)) : platform :=
  {| html_parser := λ text, snd <$> List.find (λ d, String.eqb (fst d) text) docs;
     gzip_decompress := Some;
     utf8_decode := λ b, b;
     bracket_ok := λ _, true;
     list_set := remove_dups;
     list_set_NoDup := NoDup_remove_dups;
     list_set_elem := λ l x, elem_of_remove_dups l x |}.

(** A site that answers 200 with the body listed for the url (and, for
    the season requests, for the url with the season and the post), and
    404 otherwise. *)
Definition request_key (rq : request) : string :=
  fold_left (λ acc kv, acc ++ "&" ++ fst kv ++ "=" ++ snd kv)
    (req_params rq) (req_url rq).

Definition site_of (pages : list (string * string)) : site :=
  λ rq, match List.find (λ pg, String.eqb (fst pg) (request_key rq)) pages with
        | Some (_, text) => inr (mkReply 200 None text text)
        | None => inr (mkReply 404 None "" "")
        end.

(** A freshly started process: an empty cache with the TTL of the source
    (300 seconds, in ticks of a second), a clock that advances by one
    tick per reading. *)
Definition fresh_world (s : site) : world :=
  mkWorld (CacheManager.init 300) (λ n, Z.of_nat n) 0 s [].

End Fixtures.

(** ** The vocabulary of the properties *)

(** A scheme as urlsplit accepts and returns one. *)
Definition valid_scheme (s : string) : bool :=
  match s with
  | String c0 _ => Py.is_ascii_alpha c0 && Urllib.all_chars Urllib.scheme_char s
  | EmptyString => false
  end.

(** The scheme urlsplit reports: the one the url states, or else the
    default, cleaned. *)
Definition clean_default (d : string) : string :=
  Py.remove_chars Urllib.unsafe_byte
    (Py.rstrip_by Urllib.c0_or_space (Py.lstrip_by Urllib.c0_or_space d)).

(** [any(ext in url.lower() ...)] for the playlist extension *)
Definition is_m3u8 (u : string) : bool := Py.contains ".m3u8" (Py.lower u).

(** What holds of every result the stream endpoint builds. *)
Record stream_ok (r : stream_result) : Prop := mkStreamOk {
  ok_total :
    total_streams r
    = (length (m3u8_links r) + length (video_links r) + length (iframes r))%nat;
  ok_absolute :
    ∀ u, u ∈ m3u8_links r ∨ u ∈ video_links r ∨ u ∈ iframes r →
         Urllib.is_absolute u = true;
  ok_m3u8_NoDup : NoDup (m3u8_links r);
  ok_video_NoDup : NoDup (video_links r);
  ok_iframes_NoDup : NoDup (iframes r);
  ok_buckets :
    ∃ filtered_streams,
      NoDup filtered_streams
      ∧ (∀ u, u ∈ filtered_streams → any_ext non_stream_exts u = false)
      ∧ m3u8_links r = List.filter is_m3u8 filtered_streams
      ∧ video_links r = List.filter (any_ext video_exts) filtered_streams }.

(** What holds of every detail record the endpoint builds. *)
Definition anime_ok (a : anime_data) : Prop :=
  total_episodes a = length (episodes a).

(** An entry under a key of the detail endpoint is a detail record, and
    one under a key of the stream endpoint is a stream result. *)
Definition entry_ok (key : string) (v : value) : Prop :=
  (Py.startswith key "anime_info_" = true → ∃ a, v = VAnime a ∧ anime_ok a)
  ∧ (Py.startswith key "stream_" = true → ∃ r, v = VStream r ∧ stream_ok r).

Definition cache_ok (c : CacheManager.t value) : Prop :=
  ∀ key v ts, CacheManager.cache c !! key = Some (v, ts) → entry_ok key v.

(** A computation keeps the cache well-formed. *)
Definition preserves {A} (m : M A) : Prop :=
  ∀ w r w', cache_ok (cache w) → m w = (r, w') → cache_ok (cache w').

(** What a task contributes: its result, or nothing when it raised. *)
Definition recover {A} (outcome : exn + list A) : list A :=
  match outcome with inr l => l | inl _ => [] end.

(** The loop over the completed tasks when no index is out of range:
    slot [index] receives what the task contributes. *)
Definition fill (season_results : list (option (list Soup.node)))
    (completed : list (nat * (exn + list Soup.node)))
    : list (option (list Soup.node)) :=
  fold_left (λ results done, <[fst done := Some (recover (snd done))]> results)
    completed season_results.

(** ** A detail page with its seasons, for running the model *)

Module DetailFixtures.

Definition tag (name : string) (attrs : list (string * string))
    (children : list Soup.node) : Soup.node :=
  Soup.Tag name (list_to_map attrs) children.

Definition season_button (post season : string) : Soup.node :=
  tag "a" [("class", "season-btn"); ("data-post", post); ("data-season", season)] [].

(** A button without its attributes. *)
Definition bare_button : Soup.node := tag "a" [("class", "season-btn")] [].

Definition episode_item (number name href : string) : Soup.node :=
  tag "li" []
    [tag "a" [("class", "lnk-blk"); ("href", href)] [];
     tag "span" [("class", "num-epi")] [Soup.Text number];
     tag "h2" [("class", "entry-title")] [Soup.Text name]].

Definition document (children : list Soup.node) : Soup.node :=
  tag "[document]" [] children.

Definition detail_page (buttons : list Soup.node) : Soup.node :=
  document (tag "h1" [] [Soup.Text " Naruto "] :: buttons).

Definition season_1 : Soup.node :=
  document [episode_item "1x1" "Enter Naruto" "https://animesalt.cc/episode/naruto-1x1";
            episode_item "1x2" "My Name is Konohamaru" "/episode/naruto-1x2"].

Definition season_2 : Soup.node :=
  document [episode_item "2x1" "Homecoming" "https://animesalt.cc/episode/naruto-2x1"].

Definition ajax (post season : string) : string :=
  "https://animesalt.cc/wp-admin/admin-ajax.php&action=action_select_season&season="
  ++ season ++ "&post=" ++ post.

(** The parser knows the detail page as the text [detail] and the two
    seasons as the texts [s1] and [s2]. *)
Definition naruto_platform (buttons : list Soup.node) : platform :=
  Fixtures.platform_of
    [("detail", detail_page buttons); ("s1", season_1); ("s2", season_2)].

Definition naruto_site : site :=
  Fixtures.site_of
    [("https://animesalt.cc/series/naruto", "detail");
     (ajax "77" "1", "s1"); (ajax "77" "2", "s2")].


End DetailFixtures.

Import DetailFixtures.

Definition no_home : Soup.node → exn + list (string * list item) := λ _, inr [].
Definition no_search : Soup.node → exn + list item := λ _, inr [].

(** A page whose only stream carries both markers. *)
Definition overlap_url : string := "https://cdn.test/hls/master.m3u8?src=movie.mp4".

Definition overlap_world : world :=
  Fixtures.fresh_world
    (Fixtures.site_of
       [("https://animesalt.cc/episode/naruto-1x1",
         "<video data-file='" ++ overlap_url ++ "'></video>")]).

Definition two_seasons : list Soup.node :=
  [season_button "77" "1"; season_button "77" "2"].

Definition gap_buttons : list Soup.node :=
  [season_button "77" "1"; bare_button; season_button "77" "2";
   season_button "77" "1"].

(** ** A home page and a search page, for running the model *)

Module PageFixtures.

Definition chart (name href src : string) : Soup.node :=
  tag "div" [("class", "chart-item")]
    [tag "div" [("class", "chart-title")] [Soup.Text ("  " ++ name ++ " ")];
     tag "a" [("class", "chart-poster"); ("href", href)] [];
     tag "img" [("data-src", src)] []].

(** A chart item without its link. *)
Definition broken_chart : Soup.node :=
  tag "div" [("class", "chart-item")]
    [tag "div" [("class", "chart-title")] [Soup.Text "No link"];
     tag "img" [("data-src", "//img.test/x.png")] []].

Definition slide (name href src : string) : Soup.node :=
  tag "div" [("class", "swiper-slide")]
    [tag "li" []
       [tag "h2" [("class", "entry-title")] [Soup.Text name];
        tag "a" [("class", "lnk-blk"); ("href", href)] [];
        tag "img" [("data-src", src)] [];
        tag "span" [("class", "year")] [Soup.Text " EP 12 "]]].

Definition home_page : Soup.node :=
  document
    [tag "div" []
       [tag "h3" [("class", "section-title")] [Soup.Text "Most-Watched Series"];
        Soup.Text " ";
        tag "div" [("class", "aa-cn")]
          [tag "div" [("class", "chart-content")]
             [chart "Naruto" "https://animesalt.cc/series/naruto" "//img.test/n.png";
              broken_chart;
              chart "Bleach" "/series/bleach" "https://img.test/b.png"]]];
     tag "section" [("class", "widget widget_list_episodes")]
       [tag "h3" [("class", "section-title")] [Soup.Text "Fresh Drops"];
        tag "div" [("class", "swiper-wrapper")]
          [slide "One Piece" "https://animesalt.cc/episode/one-piece-1x1"
             "//img.test/o.png"]];
     tag "section" [("class", "widget widget_list_movies_series")]
       [tag "h3" [("class", "section-title")] [Soup.Text "Movies"];
        tag "div" [("class", "swiper-wrapper")]
          [slide "Your Name" "/movies/your-name" "x.png"]];
     tag "section" [("class", "widget other")]
       [tag "h3" [("class", "section-title")] [Soup.Text "Ignored"]]].

Definition result_li (cls name href : string) (thumb : list Soup.node) : Soup.node :=
  tag "li" [("class", cls)]
    ([tag "h2" [("class", "entry-title")] [Soup.Text name];
      tag "a" [("class", "lnk-blk"); ("href", href)] []] ++ thumb)%list.

Definition search_page : Soup.node :=
  document
    [tag "ul" [("class", "post-lst rw")]
       [result_li "post category-action category-shounen" " Naruto "
          "https://animesalt.cc/series/naruto"
          [tag "div" [("class", "post-thumbnail")]
             [tag "img" [("data-src", "n.png")] []]];
        result_li "post" "Bleach" "/series/bleach"
          [tag "img" [("data-src", "loose.png")] []]];
     tag "ul" [("class", "other")] [result_li "post" "Skipped" "/x" []]].

(** A search page with a result whose link has no href. *)
Definition bad_search_page : Soup.node :=
  document
    [tag "ul" [("class", "post-lst")]
       [result_li "post" "Naruto" "/series/naruto" [];
        tag "li" [] [tag "a" [("class", "lnk-blk")] []]]].

(** The parser knows the two search pages as the texts [found] and [bad]. *)
Definition search_platform : platform :=
  Fixtures.platform_of [("found", search_page); ("bad", bad_search_page)].

Definition search_site : site :=
  Fixtures.site_of
    [("https://animesalt.cc?s=naruto", "found");
     ("https://animesalt.cc?s=one+piece", "bad")].

(** A site that cannot be reached. *)
Definition down_site : site := λ _, inl (RequestException "ConnectionError").

End PageFixtures.

Import PageFixtures.

(** ** The vocabulary of the further properties *)


(** The second store holds no entry that the first did not. *)
Definition no_new_entry (c c' : CacheManager.t value) : Prop :=
  ∀ k x, CacheManager.cache c' !! k = Some x → CacheManager.cache c !! k = Some x.

(** The shape the four scraping handlers share: answer from the cache
    when the entry is there, unexpired and truthy; otherwise compute. *)
Definition cache_aside (key : string) (fresh : M response) : M response :=
  let! cached_result := cache_get key in
  match hit cached_result with
  | Some v => ret (200, BValue v)
  | None => fresh
  end.

(** A handler answers, with one of the statuses listed; an answer other
    than 200 carries an error message. *)
Definition answers (m : M response) (statuses : list Z) (w : world) : Prop :=
  ∃ st b w', m w = (inr (st, b), w') ∧ st ∈ statuses
             ∧ (st ≠ 200 → ∃ msg, b = BError msg).

(** What the [except] clause of fetch_with_cache makes of an exception. *)
Definition wrapped (e : exn) : exn :=
  match e with
  | RequestException m => Exception ("Error fetching URL: " ++ m)
  | _ => e
  end.

(** The body of the 400 answer of the search endpoint. *)
Definition missing_query : body := BError "Missing search query parameter 'q'".

(** [final_path] of get_streaming_links *)
Definition final_path (url_path : string) : string :=
  if Py.startswith url_path "movies/" || Py.startswith url_path "episode/"
  then url_path else "episode/" ++ url_path.

(** [item.find('a', class_='lnk-blk')] *)
Definition find_link (it : Soup.node) : option Soup.node :=
  Soup.find (λ n, Soup.is_tag "a" n && Soup.has_class "lnk-blk" n) it.

(** Two results of the stream endpoint that differ at most in the order
    of the links. *)
Definition same_streams (r1 r2 : stream_result) : Prop :=
  episode_url r1 = episode_url r2
  ∧ m3u8_links r1 ≡ₚ m3u8_links r2
  ∧ video_links r1 ≡ₚ video_links r2
  ∧ iframes r1 = iframes r2
  ∧ total_streams r1 = total_streams r2.

Definition same_answer (a1 a2 : exn + response) : Prop :=
  a1 = a2
  ∨ ∃ r1 r2, a1 = inr (200, BValue (VStream r1))
             ∧ a2 = inr (200, BValue (VStream r2)) ∧ same_streams r1 r2.

(** Every entry of a store satisfies [I], and the computations that keep
    it so. *)
Definition holds (I : string → value → Prop) (c : CacheManager.t value) : Prop :=
  ∀ key v ts, CacheManager.cache c !! key = Some (v, ts) → I key v.

Definition keeps (I : string → value → Prop) {A} (m : M A) : Prop :=
  ∀ w r w', holds I (cache w) → m w = (r, w') → holds I (cache w').

(** Each family of keys holds its own kind of value: the key of the home
    page a dict of sections, a search key a search result whose count is
    the number of its results, the fingerprint of a url the text of a
    page. [Qh] and [Qs] are what is known of the sections and of the
    results. *)
Definition entry_typed (Qh : list (string * list item) → Prop)
    (Qs : list item → Prop) (key : string) (v : value) : Prop :=
  (key = "homepage_data" → ∃ sections, v = VHome sections ∧ Qh sections)
  ∧ (Py.startswith key "search_" = true →
     ∃ results, v = VSearch results (length results) ∧ Qs results)
  ∧ (∀ u, key = md5_key u → ∃ html, v = VText html).

(** A result whose link tag has no href. *)
Definition link_without_href (x : Bs4.located) : bool :=
  match Soup.find (tag_class "a" "lnk-blk") (Bs4.here x) with
  | Some link_element => negb (Soup.has_attr "href" link_element)
  | None => false
  end.

(** The keys of the dict of a search result. *)
Definition search_keys : list string := ["title"; "link"; "image_url"; "categories"].



(** The sections the tasks of the home page find, in the order of
    submission: the charts that have items, then the swipers that have
    items. *)
Definition chart_section (done : string * list item) : option (string * list item) :=
  match snd done with
  | [] => None
  | _ => Some done
  end.

Definition swiper_section (result : swiper) : option (string * list item) :=
  match result with
  | Titled section_name ((_ :: _) as section_data) =>
      Some (section_name, section_data)
  | _ => None
  end.

Definition chart_tasks (soup : Soup.node) : list (string * list item) :=
  map scrape_section_parallel
    (List.filter (λ x, most_watched_title (Bs4.here x)) (Bs4.below [] soup)).

Definition swiper_tasks (soup : Soup.node) : list swiper :=
  map scrape_swiper_section_parallel (Soup.find_all widget_section soup).

Definition home_sections (soup : Soup.node) : list (string * list item) :=
  (omap chart_section (chart_tasks soup)
   ++ omap swiper_section (swiper_tasks soup))%list.

(** What quote_plus writes for one character. *)
Definition plus_char (c : ascii) : string :=
  Quote.quote_plus (String c EmptyString).

(** The characters quote_plus writes: the safe ones, the plus sign and the
    percent sign. *)
Definition query_char (c : ascii) : bool :=
  Quote.always_safe c || Py.has_char c "+%".

(** The value of a hexadecimal digit as quote_plus writes them. *)
Definition hex_value (c : ascii) : Z :=
  let n := Z.of_nat (Py.code c) in
  if Py.is_digit c then n - 48 else n - 55.

(** The first character of a query, read back from what quote_plus wrote. *)
Definition unquote_head (s : string) : option (ascii * string) :=
  match s with
  | EmptyString => None
  | String "+" rest => Some (" "%char, rest)
  | String "%" (String h1 (String h2 rest)) =>
      let b := 16 * hex_value h1 + hex_value h2 in
      if b <? 128 then Some (ascii_of_nat (Z.to_nat b), rest)
      else
        match rest with
        | String "%" (String h3 (String h4 rest')) =>
            let b' := 16 * hex_value h3 + hex_value h4 in
            Some (ascii_of_nat (Z.to_nat ((b - 192) * 64 + (b' - 128))), rest')
        | _ => None
        end
  | String c rest => Some (c, rest)
  end.

(** * Properties *)

(** ** MD5 test vectors *)

Example hexdigest_empty :
  Md5.hexdigest (Md5.encode "") = "d41d8cd98f00b204e9800998ecf8427e".
Proof. vm_compute. reflexivity. Qed.

Example hexdigest_abc :
  Md5.hexdigest (Md5.encode "abc") = "900150983cd24fb0d6963f7d28e17f72".
Proof. vm_compute. reflexivity. Qed.

Example hexdigest_base_url :
  Md5.hexdigest (Md5.encode "https://animesalt.cc") = "983939a9b0a7ae32d0e720068a8db99c".
Proof. vm_compute. reflexivity. Qed.

Example hexdigest_two_blocks :
  Md5.hexdigest (Md5.encode "https://animesalt.cc/series/naruto-shippuden-the-long-running-title")
  = "d232ade4ff12ff9758e62ba51a890611".
Proof. vm_compute. reflexivity. Qed.

(** ** The TTL cache *)

Module CacheFacts.
Import CacheManager.

Section facts.
Context {V : Type}.
Implicit Types c : t V.

Lemma ttl_set now key value c : ttl (set now key value c) = ttl c.
Proof. reflexivity. Qed.


Lemma get_hit now key c data ts :
  cache c !! key = Some (data, ts) → now - ts < ttl c →
  get now key c = (Some data, c).
Proof.
  intros Hk Hlt. unfold get. rewrite Hk.
  by apply Z.ltb_lt in Hlt as ->.
Qed.



(** What a successful read says about the store it read. *)
Lemma get_Some_inv now key c data :
  fst (get now key c) = Some data →
  ∃ ts, cache c !! key = Some (data, ts) ∧ now - ts < ttl c
        ∧ snd (get now key c) = c.
Proof.
  unfold get. destruct (cache c !! key) as [[d ts]|] eqn:Hk; [|done].
  destruct (now - ts <? ttl c) eqn:Hlt; [|done].
  simpl. intros [= ->]. exists ts. by apply Z.ltb_lt in Hlt.
Qed.

(** A read leaves the other keys as they were. *)
Lemma get_other now key key' c :
  key ≠ key' → cache (snd (get now key c)) !! key' = cache c !! key'.
Proof.
  intros Hne. unfold get. destruct (cache c !! key) as [[d ts]|]; [|done].
  destruct (now - ts <? ttl c); [done|]. simpl. by rewrite lookup_delete_ne.
Qed.

(** A read never adds an entry. *)
Lemma get_lookup_Some now key key' c e :
  cache (snd (get now key c)) !! key' = Some e → cache c !! key' = Some e.
Proof.
  unfold get. destruct (cache c !! key) as [[d ts]|]; [|done].
  destruct (now - ts <? ttl c); [done|]. simpl.
  intros [_ ?]%lookup_delete_Some. done.
Qed.

End facts.

End CacheFacts.

(** ** Reasoning about computations *)

Lemma bind_inr {A B} (m : M A) (f : A → M B) w y w' :
  bind m f w = (inr y, w') →
  ∃ x w1, m w = (inr x, w1) ∧ f x w1 = (inr y, w').
Proof.
  unfold bind. destruct (m w) as [[e|x] w1]; [done|]. eauto.
Qed.

Lemma bind_step {A B} (m : M A) (f : A → M B) w x w1 :
  m w = (inr x, w1) → bind m f w = f x w1.
Proof. intros H. unfold bind. by rewrite H. Qed.

Lemma bind_raise {A B} (m : M A) (f : A → M B) w e w1 :
  m w = (inl e, w1) → bind m f w = (inl e, w1).
Proof. intros H. unfold bind. by rewrite H. Qed.

Lemma try_except_inr {A} (m : M A) (h : exn → M A) w x w1 :
  m w = (inr x, w1) → try_except m h w = (inr x, w1).
Proof. intros H. unfold try_except. by rewrite H. Qed.

Lemma try_except_inl {A} (m : M A) (h : exn → M A) w e w1 :
  m w = (inl e, w1) → try_except m h w = h e w1.
Proof. intros H. unfold try_except. by rewrite H. Qed.

(** ** The cache as the handlers use it *)

Lemma cache_get_present w key v ts :
  CacheManager.cache (cache w) !! key = Some (v, ts) →
  cache_get key w
  = (inr (fst (CacheManager.get (clock w (ticks w)) key (cache w))),
     with_cache (snd (CacheManager.get (clock w (ticks w)) key (cache w))) (tick w)).
Proof.
  intros Hk. unfold cache_get. rewrite Hk. simpl.
  by destruct (CacheManager.get _ _ _).
Qed.

Lemma cache_get_absent w key :
  CacheManager.cache (cache w) !! key = None → cache_get key w = (inr None, w).
Proof. intros Hk. unfold cache_get. by rewrite Hk. Qed.

Lemma with_cache_same w : with_cache (cache w) w = w.
Proof. by destruct w. Qed.

(** A read that finds an unexpired entry returns it and only reads the clock. *)
Lemma cache_get_hit w key v ts :
  CacheManager.cache (cache w) !! key = Some (v, ts) →
  clock w (ticks w) - ts < CacheManager.ttl (cache w) →
  cache_get key w = (inr (Some v), tick w).
Proof.
  intros Hk Hlt. rewrite (cache_get_present _ _ _ _ Hk).
  rewrite (CacheFacts.get_hit _ _ _ _ _ Hk Hlt). simpl.
  by rewrite <- (with_cache_same (tick w)) at 2.
Qed.

(** [cache.get] never raises. *)
Lemma cache_get_total w key : ∃ r w', cache_get key w = (inr r, w').
Proof.
  destruct (CacheManager.cache (cache w) !! key) as [[v ts]|] eqn:Hk.
  - rewrite (cache_get_present _ _ _ _ Hk). eauto.
  - rewrite (cache_get_absent _ _ Hk). eauto.
Qed.

(** What a read that returns a value says, and what it leaves. *)
Lemma cache_get_Some w key v w' :
  cache_get key w = (inr (Some v), w') →
  w' = tick w
  ∧ ∃ ts, CacheManager.cache (cache w) !! key = Some (v, ts)
          ∧ clock w (ticks w) - ts < CacheManager.ttl (cache w).
Proof.
  destruct (CacheManager.cache (cache w) !! key) as [[v0 ts]|] eqn:Hk.
  - rewrite (cache_get_present _ _ _ _ Hk). intros [= Hv Hw].
    destruct (CacheFacts.get_Some_inv _ _ _ _ Hv) as (ts' & Hk' & Hlt & Hsame).
    rewrite Hsame in Hw. split.
    + rewrite <- Hw. by destruct w.
    + exists ts'. split; [congruence|done].
  - by rewrite (cache_get_absent _ _ Hk).
Qed.

(** A read leaves the session log, the clock function and the site. *)
Lemma cache_get_frame w key r w' :
  cache_get key w = (inr r, w') →
  session_log w' = session_log w ∧ upstream w' = upstream w
  ∧ clock w' = clock w.
Proof.
  destruct (CacheManager.cache (cache w) !! key) as [[v0 ts]|] eqn:Hk.
  - rewrite (cache_get_present _ _ _ _ Hk). by intros [= _ <-].
  - rewrite (cache_get_absent _ _ Hk). by intros [= _ <-].
Qed.

Lemma cache_set_eq w key v :
  cache_set key v w
  = (inr tt, with_cache (CacheManager.set (clock w (ticks w)) key v (cache w)) (tick w)).
Proof. reflexivity. Qed.

(** ** The fetcher *)

Ltac inv_bind H :=
  let x := fresh "x" in
  let w := fresh "w" in
  let Hm := fresh "Hm" in
  apply bind_inr in H as (x & w & Hm & H).

Section fetcher.
Context (P : platform).

(** A cached fetch that finds an unexpired, truthy entry returns it; the
    only effect is one reading of the clock. *)
Lemma fetch_hit u w v ts :
  CacheManager.cache (cache w) !! md5_key u = Some (v, ts) →
  clock w (ticks w) - ts < CacheManager.ttl (cache w) →
  truthy v = true →
  fetch_with_cache P u true w = (inr v, tick w).
Proof.
  intros Hk Hlt Htruthy. unfold fetch_with_cache.
  rewrite (bind_step _ _ _ _ _ (cache_get_hit _ _ _ _ Hk Hlt)).
  by rewrite Htruthy.
Qed.

(** What the [try] block leaves when it returns: the text it returns is
    in the cache under the key, stamped with a reading of the clock. *)
Lemma fetch_from_network_stores u key w v w1 :
  fetch_from_network P u true key w = (inr v, w1) →
  ∃ ts, CacheManager.cache (cache w1) !! key = Some (v, ts).
Proof.
  unfold fetch_from_network, try_except.
  match goal with |- context [match ?m w with _ => _ end] =>
    destruct (m w) as [[e|x] w'] eqn:Hm end.
  - by destruct e.
  - intros [= -> ->].
    inv_bind Hm. inv_bind Hm. inv_bind Hm. inv_bind Hm.
    rewrite cache_set_eq in Hm3. injection Hm3 as _ <-.
    injection Hm as <- <-. simpl.
    eexists. apply lookup_insert_eq.
Qed.

(** A network fetch always sends one request on the shared session. *)
Lemma fetch_from_network_logs u use_cache key w r w1 :
  fetch_from_network P u use_cache key w = (r, w1) →
  ∃ rq rest, session_log w1 = rq :: rest.
Proof.
  unfold fetch_from_network, try_except, bind, session_get, lift.
  destruct (upstream w _) as [e|resp]; simpl.
  - destruct e; intros [= <- <-]; simpl; eauto.
  - destruct (raise_for_status resp) as [e|[]]; simpl.
    + destruct e; intros [= <- <-]; simpl; eauto.
    + destruct (content_encoding resp) as [enc|];
        [destruct (String.eqb enc "gzip");
           [destruct (gzip_decompress P (content resp))|]|];
        simpl; destruct use_cache; simpl; intros [= <- <-]; simpl; eauto.
Qed.

(** A cached fetch that returns leaves what it returned in the cache. *)
Lemma fetch_stores u w v w1 :
  fetch_with_cache P u true w = (inr v, w1) →
  ∃ ts, CacheManager.cache (cache w1) !! md5_key u = Some (v, ts).
Proof.
  unfold fetch_with_cache. intros H. inv_bind H.
  destruct x as [v0|].
  - destruct (truthy v0) eqn:Ht.
    + injection H as <- <-.
      apply cache_get_Some in Hm as (-> & ts & Hk & _). eauto.
    + by apply fetch_from_network_stores in H.
  - by apply fetch_from_network_stores in H.
Qed.

End fetcher.

(** ** What the patterns can match *)

Lemma length_append (w s : string) :
  String.length (w ++ s) = (String.length w + String.length s)%nat.
Proof. induction w as [|c w IH]; simpl; [done|]. by rewrite IH. Qed.

Lemma take_app_length (w s : string) :
  Py.take (String.length (w ++ s) - String.length s) (w ++ s) = w.
Proof.
  assert (String.length (w ++ s) - String.length s = String.length w)%nat as ->
    by (rewrite length_append; lia).
  induction w as [|c w IH]; simpl.
  - by destruct s.
  - by rewrite IH.
Qed.

Lemma has_char_app c (a b : string) :
  Py.has_char c (a ++ b) = Py.has_char c a || Py.has_char c b.
Proof.
  induction a as [|d a IH]; simpl; [done|].
  rewrite IH. by rewrite orb_assoc.
Qed.

Lemma many_greedy_sound {A} p s (k : string → option A) x :
  Re.many_greedy p s k = Some x →
  ∃ w s', s = w ++ s' ∧ (∀ c, Py.has_char c w = true → p c = true)
          ∧ k s' = Some x.
Proof.
  revert x. induction s as [|c s IH]; intros x; simpl.
  - intros Hk. exists "", "". done.
  - destruct (p c) eqn:Hp.
    + destruct (Re.many_greedy p s k) as [y|] eqn:Hrec.
      * intros [= ->]. destruct (IH _ eq_refl) as (w & s' & -> & Hall & Hk).
        exists (String c w), s'. split; [done|]. split; [|done].
        intros d. simpl. destruct (Ascii.eqb_spec d c) as [->|]; naive_solver.
      * intros Hk. exists "", (String c s). done.
    + intros Hk. exists "", (String c s). done.
Qed.

Lemma many_lazy_sound {A} p s (k : string → option A) x :
  Re.many_lazy p s k = Some x →
  ∃ w s', s = w ++ s' ∧ (∀ c, Py.has_char c w = true → p c = true)
          ∧ k s' = Some x.
Proof.
  revert x. induction s as [|c s IH]; intros x; simpl.
  - destruct (k "") eqn:Hk; [|done]. intros [= ->]. exists "", "". done.
  - destruct (k (String c s)) as [y|] eqn:Hk.
    + intros [= ->]. exists "", (String c s). done.
    + destruct (p c) eqn:Hp; [|done]. intros Hrec.
      destruct (IH _ Hrec) as (w & s' & -> & Hall & Hk').
      exists (String c w), s'. split; [done|]. split; [|done].
      intros d. simpl. destruct (Ascii.eqb_spec d c) as [->|]; naive_solver.
Qed.

(** The matcher only accepts what the pattern can match. *)
Lemma run_sound {A} r : ∀ s cap (k : string → option string → option A) x,
  Re.run r s cap k = Some x →
  ∃ w s' cap', s = w ++ s' ∧ Re.lang r w ∧ k s' cap' = Some x.
Proof.
  induction r as [p| |r1 IH1 r2 IH2|r1 IH1 r2 IH2|r IH|g p|r IH];
    intros s cap k x; simpl.
  - destruct s as [|c s]; [done|]. destruct (p c) eqn:Hp; [|done].
    intros Hk. exists (String c ""), s, cap. naive_solver.
  - intros Hk. exists "", s, cap. done.
  - intros H. apply IH1 in H as (w1 & s1 & cap1 & -> & Hl1 & H).
    apply IH2 in H as (w2 & s2 & cap2 & -> & Hl2 & H).
    exists (w1 ++ w2), s2, cap2. split; [|naive_solver].
    clear. induction w1; simpl; congruence.
  - destruct (Re.run r1 s cap k) as [y|] eqn:H1.
    + intros [= ->]. apply IH1 in H1 as (w & s' & cap' & ? & ? & ?).
      exists w, s', cap'. naive_solver.
    + intros H2. apply IH2 in H2 as (w & s' & cap' & ? & ? & ?).
      exists w, s', cap'. naive_solver.
  - destruct (Re.run r s cap k) as [y|] eqn:H1.
    + intros [= ->]. apply IH in H1 as (w & s' & cap' & ? & ? & ?).
      exists w, s', cap'. naive_solver.
    + intros Hk. exists "", s, cap. naive_solver.
  - destruct g.
    + intros H. apply many_greedy_sound in H as (w & s' & ? & ? & ?).
      exists w, s', cap. done.
    + intros H. apply many_lazy_sound in H as (w & s' & ? & ? & ?).
      exists w, s', cap. done.
  - intros H. apply IH in H as (w & s' & cap' & ? & ? & ?). eauto 10.
Qed.

(** A pattern that is one group: the group is the match. *)
Lemma match_at_group r s g rest :
  Re.match_at (Re.Group r) s = Some (g, rest) → Re.lang r g.
Proof.
  unfold Re.match_at. simpl. intros H.
  apply run_sound in H as (w & s' & cap' & -> & Hl & H).
  injection H as <- _. by rewrite take_app_length.
Qed.

(** Every element of [findall] is group 1 of a match somewhere. *)
Lemma findall_go_sound r fuel : ∀ s x,
  x ∈ Re.findall_go fuel r s → ∃ s' rest, Re.match_at r s' = Some (x, rest).
Proof.
  induction fuel as [|fuel IH]; intros s x; simpl; [by intros ?%elem_of_nil|].
  destruct (Re.match_at r s) as [[g rest]|] eqn:Hm.
  - intros [->|Hin]%elem_of_cons; [eauto|].
    destruct (String.length rest <? String.length s)%nat; [eauto|].
    destruct s; [by apply elem_of_nil in Hin|eauto].
  - destruct s; [by intros ?%elem_of_nil|eauto].
Qed.

Lemma findall_group_lang r text x :
  x ∈ Re.findall (Re.Group r) text → Re.lang r x.
Proof.
  intros (s' & rest & Hm)%findall_go_sound. by apply match_at_group in Hm.
Qed.

(** ** Absolute URLs *)

Ltac ascii_cases c :=
  destruct c as [[] [] [] [] [] [] [] []]; vm_compute; try done; auto.

Lemma ci_h c : Re.ci "h" c = true → c = "h"%char ∨ c = "H"%char.
Proof. ascii_cases c. Qed.

Lemma ci_t c : Re.ci "t" c = true → c = "t"%char ∨ c = "T"%char.
Proof. ascii_cases c. Qed.

Lemma ci_p c : Re.ci "p" c = true → c = "p"%char ∨ c = "P"%char.
Proof. ascii_cases c. Qed.

Lemma ci_s c : Re.ci "s" c = true → c = "s"%char ∨ c = "S"%char.
Proof. ascii_cases c. Qed.

Lemma ci_colon c : Re.ci ":" c = true → c = ":"%char.
Proof. ascii_cases c. Qed.

Lemma scheme_char_lower c :
  Urllib.scheme_char c = true → Urllib.scheme_char (Py.lower_char c) = true.
Proof. ascii_cases c. Qed.

Lemma alpha_lower c :
  Py.is_ascii_alpha c = true → Py.is_ascii_alpha (Py.lower_char c) = true.
Proof. ascii_cases c. Qed.

Lemma scheme_char_not_stripped c :
  Urllib.scheme_char c = true → Urllib.c0_or_space c = false.
Proof. ascii_cases c. Qed.

Lemma scheme_char_not_removed c :
  Urllib.scheme_char c = true → Urllib.unsafe_byte c = false.
Proof. ascii_cases c. Qed.

Lemma scheme_char_not_colon c :
  Urllib.scheme_char c = true → Ascii.eqb ":" c = false.
Proof. ascii_cases c. Qed.

Lemma all_chars_lower s :
  Urllib.all_chars Urllib.scheme_char s = true →
  Urllib.all_chars Urllib.scheme_char (Py.lower s) = true.
Proof.
  induction s as [|c s IH]; simpl; [done|].
  intros [Hc Hs]%andb_prop. rewrite (scheme_char_lower _ Hc). simpl. auto.
Qed.

Lemma explicit_scheme_valid x s rest :
  Urllib.explicit_scheme x = Some (s, rest) → valid_scheme s = true.
Proof.
  unfold Urllib.explicit_scheme.
  destruct (Py.cut ":" x) as [[|c0 pre] [r|]]; try done.
  destruct (Py.is_ascii_alpha c0 && Urllib.all_chars Urllib.scheme_char (String c0 pre))
    eqn:Hok; [|done].
  intros [= <- _]. apply andb_prop in Hok as [Ha Hall].
  apply all_chars_lower in Hall. simpl in *.
  by rewrite (alpha_lower _ Ha), Hall.
Qed.

Lemma remove_chars_scheme s t :
  Urllib.all_chars Urllib.scheme_char s = true →
  Py.remove_chars Urllib.unsafe_byte (s ++ t)
  = s ++ Py.remove_chars Urllib.unsafe_byte t.
Proof.
  induction s as [|c s IH]; simpl; [done|].
  intros [Hc Hs]%andb_prop. rewrite (scheme_char_not_removed _ Hc).
  by rewrite IH.
Qed.

Lemma cut_colon_scheme s t :
  Urllib.all_chars Urllib.scheme_char s = true →
  Py.cut ":" (s ++ String ":" t) = (s, Some t).
Proof.
  induction s as [|c s IH]; [done|].
  intros H. cbn [Urllib.all_chars] in H. apply andb_prop in H as [Hc Hs].
  cbn [String.append Py.cut]. rewrite (scheme_char_not_colon _ Hc).
  by rewrite IH.
Qed.

(** A valid scheme, a colon and anything: urlsplit finds the scheme. *)
Lemma explicit_scheme_unparsed s t :
  valid_scheme s = true →
  ∃ rest, Urllib.explicit_scheme (Urllib.clean (s ++ String ":" t))
          = Some (Py.lower s, rest).
Proof.
  destruct s as [|c0 s]; [done|].
  intros H. cbn [valid_scheme] in H. apply andb_prop in H as [Ha Hall].
  assert (Urllib.scheme_char c0 = true) as Hc0.
  { cbn [Urllib.all_chars] in Hall. by apply andb_prop in Hall as [? _]. }
  unfold Urllib.clean.
  assert (Py.lstrip_by Urllib.c0_or_space (String c0 s ++ String ":" t)
          = String c0 s ++ String ":" t) as ->.
  { cbn [String.append Py.lstrip_by]. by rewrite (scheme_char_not_stripped _ Hc0). }
  rewrite (remove_chars_scheme _ _ Hall).
  cbn [Py.remove_chars]. 
  assert (Urllib.unsafe_byte ":" = false) as -> by reflexivity.
  unfold Urllib.explicit_scheme. rewrite (cut_colon_scheme _ _ Hall).
  rewrite Ha, Hall. simpl. eauto.
Qed.

Lemma is_absolute_unparsed s t :
  valid_scheme s = true → Urllib.is_absolute (s ++ String ":" t) = true.
Proof.
  intros Hs. unfold Urllib.is_absolute.
  by destruct (explicit_scheme_unparsed s t Hs) as [rest ->].
Qed.

Lemma append_assoc (a b c : string) : (a ++ b) ++ c = a ++ (b ++ c).
Proof. induction a as [|x a IH]; simpl; [done|]. by rewrite IH. Qed.

Lemma append_nil_r (a : string) : a ++ "" = a.
Proof. induction a as [|x a IH]; simpl; [done|]. by rewrite IH. Qed.

Lemma urlsplit_scheme bok u d r :
  Urllib.urlsplit bok u d = Some r →
  Urllib.scheme r
  = match Urllib.explicit_scheme (Urllib.clean u) with
    | Some (s, _) => s
    | None => clean_default d
    end.
Proof.
  unfold Urllib.urlsplit, clean_default.
  destruct (Urllib.explicit_scheme (Urllib.clean u)) as [[s rest]|];
    repeat match goal with
           | |- context [let '(_, _) := ?e in _] => destruct e
           | |- context [if ?b then _ else _] => destruct b
           | |- context [match Py.cut ?c ?x with _ => _ end] =>
               destruct (Py.cut c x) as [? [?|]]
           end; try done; by intros [= <-].
Qed.

Lemma urlparse_scheme bok u d r :
  Urllib.urlparse bok u d = Some r →
  Urllib.p_scheme r
  = match Urllib.explicit_scheme (Urllib.clean u) with
    | Some (s, _) => s
    | None => clean_default d
    end.
Proof.
  unfold Urllib.urlparse.
  destruct (Urllib.urlsplit bok u d) as [sr|] eqn:Hs; [|done].
  apply urlsplit_scheme in Hs as <-.
  by destruct (_ && _); [destruct (Urllib.splitparams _)|]; intros [= <-].
Qed.

(** What urlunparse returns starts with the scheme and a colon. *)
Lemma urlunparse_starts s n p pa q f :
  Py.truthy_str s = true →
  ∃ t, Urllib.urlunparse s n p pa q f = s ++ String ":" t.
Proof.
  intros Hs. unfold Urllib.urlunparse, Urllib.urlunsplit. rewrite Hs.
  destruct (Py.truthy_str q), (Py.truthy_str f);
    rewrite ?append_assoc; simpl; rewrite ?append_assoc; simpl; eauto.
Qed.

Lemma valid_scheme_truthy s : valid_scheme s = true → Py.truthy_str s = true.
Proof. by destruct s. Qed.

Lemma urlunparse_absolute s n p pa q f :
  valid_scheme s = true →
  Urllib.is_absolute (Urllib.urlunparse s n p pa q f) = true.
Proof.
  intros Hs.
  destruct (urlunparse_starts s n p pa q f (valid_scheme_truthy _ Hs)) as [t ->].
  by apply is_absolute_unparsed.
Qed.

Lemma lstrip_scheme s :
  valid_scheme s = true → Py.lstrip_by Urllib.c0_or_space s = s.
Proof.
  destruct s as [|c s]; [done|]. intros H. cbn [valid_scheme Urllib.all_chars] in H.
  apply andb_prop in H as [_ [Hc _]%andb_prop].
  cbn [Py.lstrip_by]. by rewrite (scheme_char_not_stripped _ Hc).
Qed.

Lemma rstrip_scheme s :
  Urllib.all_chars Urllib.scheme_char s = true →
  Py.rstrip_by Urllib.c0_or_space s = s.
Proof.
  induction s as [|c s IH]; [done|]. intros H. cbn [Urllib.all_chars] in H.
  apply andb_prop in H as [Hc Hs]. cbn [Py.rstrip_by]. rewrite (IH Hs).
  destruct s; [|done]. by rewrite (scheme_char_not_stripped _ Hc).
Qed.

Lemma valid_scheme_all s :
  valid_scheme s = true → Urllib.all_chars Urllib.scheme_char s = true.
Proof. destruct s; [done|]. by intros [_ ?]%andb_prop. Qed.

Lemma clean_default_scheme s : valid_scheme s = true → clean_default s = s.
Proof.
  intros Hs. unfold clean_default.
  rewrite (lstrip_scheme _ Hs), (rstrip_scheme _ (valid_scheme_all _ Hs)).
  rewrite <- (append_nil_r s) at 1.
  rewrite (remove_chars_scheme _ _ (valid_scheme_all _ Hs)). simpl.
  apply append_nil_r.
Qed.

Section urljoin_absolute.
Variable bok : string → bool.

(** The tail of urljoin, after the two parses: every way out but the
    first returns urlunparse of the scheme of the url. *)
Lemma urljoin_cases base u r :
  Urllib.urljoin bok base u = Some r →
  (Py.truthy_str base = false ∧ r = u)
  ∨ (Py.truthy_str base = true ∧ Py.truthy_str u = false ∧ r = base)
  ∨ (Py.truthy_str base = true ∧ Py.truthy_str u = true ∧
     ∃ b pu, Urllib.urlparse bok base "" = Some b
       ∧ Urllib.urlparse bok u (Urllib.p_scheme b) = Some pu
       ∧ ((r = u ∧ (Urllib.p_scheme pu ≠ Urllib.p_scheme b
                     ∨ Urllib.in_list (Urllib.p_scheme pu) Urllib.uses_relative = false))
          ∨ ∃ n p pa q f, r = Urllib.urlunparse (Urllib.p_scheme pu) n p pa q f)).
Proof.
  unfold Urllib.urljoin.
  destruct (Py.truthy_str base) eqn:Hb; cbn [negb]; [|intros [= <-]; auto].
  destruct (Py.truthy_str u) eqn:Hu; cbn [negb]; [|intros [= <-]; auto].
  destruct (Urllib.urlparse bok base "") as [b|] eqn:Hpb; [|done].
  destruct (Urllib.urlparse bok u (Urllib.p_scheme b)) as [pu|] eqn:Hpu; [|done].
  intros H. right. right. split; [done|]. split; [done|].
  exists b, pu. split; [done|]. split; [done|].
  destruct (String.eqb_spec (Urllib.p_scheme pu) (Urllib.p_scheme b)) as [Heq|Hne];
    cbn [negb orb] in H.
  - destruct (Urllib.in_list (Urllib.p_scheme pu) Urllib.uses_relative) eqn:Hrel;
      cbn [negb orb] in H; [|injection H as <-; auto].
    right.
    repeat match type of H with
           | (if ?c then _ else _) = _ => destruct c
           end; injection H as <-; eauto 10.
  - injection H as <-. auto.
Qed.

(** Joining a url that states its scheme gives an absolute url, whatever
    the base. *)
Lemma urljoin_explicit_absolute base u r s rest :
  Urllib.explicit_scheme (Urllib.clean u) = Some (s, rest) →
  Urllib.urljoin bok base u = Some r →
  Urllib.is_absolute r = true.
Proof.
  intros Hex Hj.
  assert (Urllib.is_absolute u = true) as Hu
    by (unfold Urllib.is_absolute; by rewrite Hex).
  apply urljoin_cases in Hj
    as [[_ ->]|[(_ & Hempty & ->)|(_ & _ & b & pu & Hb & Hpu & Hr)]]; [done| |].
  - destruct u; [done|done].
  - destruct Hr as [[-> _]|(n & p & pa & q & f & ->)]; [done|].
    apply urlunparse_absolute. apply urlparse_scheme in Hpu. rewrite Hex in Hpu.
    rewrite Hpu. by apply explicit_scheme_valid in Hex.
Qed.

(** Joining anything to a base whose scheme allows relative references
    gives an absolute url. *)
Lemma urljoin_base_absolute s t u r :
  valid_scheme s = true →
  Urllib.in_list (Py.lower s) Urllib.uses_relative = true →
  Urllib.urljoin bok (s ++ String ":" t) u = Some r →
  Urllib.is_absolute r = true.
Proof.
  intros Hs Hrel Hj.
  destruct (explicit_scheme_unparsed s t Hs) as [rest Hbase].
  pose proof (explicit_scheme_valid _ _ _ Hbase) as Hvalid.
  apply urljoin_cases in Hj
    as [[Hb _]|[(_ & _ & ->)|(_ & _ & b & pu & Hb & Hpu & Hr)]].
  - by destruct s.
  - by apply is_absolute_unparsed.
  - apply urlparse_scheme in Hb. rewrite Hbase in Hb.
    apply urlparse_scheme in Hpu. rewrite Hb in Hpu.
    destruct (Urllib.explicit_scheme (Urllib.clean u)) as [[su ru]|] eqn:Hex.
    + destruct Hr as [[-> _]|(n & p & pa & q & f & ->)].
      * unfold Urllib.is_absolute. by rewrite Hex.
      * apply urlunparse_absolute. rewrite Hpu.
        by apply explicit_scheme_valid in Hex.
    + rewrite (clean_default_scheme _ Hvalid) in Hpu.
      destruct Hr as [[_ [Hne|Hnot]]|(n & p & pa & q & f & ->)].
      * congruence.
      * congruence.
      * apply urlunparse_absolute. by rewrite Hpu.
Qed.

End urljoin_absolute.

(** What the two stream patterns match states the scheme http or https. *)
Lemma http_prefix_explicit r x :
  Re.lang (Re.Seq (Re.lit "http")
             (Re.Seq (Re.Opt (Re.Chr (Re.ci "s"))) (Re.Seq (Re.lit "://") r))) x →
  ∃ s rest, Urllib.explicit_scheme (Urllib.clean x) = Some (s, rest).
Proof.
  cbn [Re.lang Re.lit].
  intros (w1 & w2 & -> & Hhttp & wo & w3 & -> & Hopt & w4 & w5 & -> & Hsep & _).
  destruct Hhttp as (? & ? & -> & (c1 & -> & H1)
                     & ? & ? & -> & (c2 & -> & H2)
                     & ? & ? & -> & (c3 & -> & H3)
                     & ? & ? & -> & (c4 & -> & H4) & ->).
  destruct Hsep as (? & ? & -> & (c5 & -> & H5) & _).
  apply ci_colon in H5 as ->.
  apply ci_h in H1. apply ci_t in H2. apply ci_t in H3. apply ci_p in H4.
  destruct Hopt as [(c & -> & Hs)| ->].
  - apply ci_s in Hs.
    destruct H1 as [-> | ->], H2 as [-> | ->], H3 as [-> | ->], H4 as [-> | ->],
      Hs as [-> | ->]; cbn; eauto.
  - destruct H1 as [-> | ->], H2 as [-> | ->], H3 as [-> | ->], H4 as [-> | ->];
      cbn; eauto.
Qed.

Lemma m3u8_pattern_explicit text x :
  x ∈ Re.findall m3u8_pattern text →
  ∃ s rest, Urllib.explicit_scheme (Urllib.clean x) = Some (s, rest).
Proof.
  intros H%findall_group_lang. by apply http_prefix_explicit in H.
Qed.

Lemma video_pattern_explicit text x :
  x ∈ Re.findall video_pattern text →
  ∃ s rest, Urllib.explicit_scheme (Urllib.clean x) = Some (s, rest).
Proof.
  intros H%findall_group_lang. by apply http_prefix_explicit in H.
Qed.

(** ** The stream endpoint *)

Lemma elem_of_filter {A} (p : A → bool) l x :
  x ∈ List.filter p l ↔ x ∈ l ∧ p x = true.
Proof. rewrite !list_elem_of_In. apply filter_In. Qed.

Lemma NoDup_filter {A} (p : A → bool) l : NoDup l → NoDup (List.filter p l).
Proof.
  induction 1 as [|x l Hx Hl IH]; simpl; [constructor|].
  destruct (p x); [|done]. constructor; [|done].
  rewrite elem_of_filter. tauto.
Qed.

Section stream_facts.
Context (P : platform).

Lemma join_all_inv base urls l :
  join_all P base urls = inr l →
  ∀ y, y ∈ l → ∃ x, x ∈ urls ∧ Urllib.urljoin (bracket_ok P) base x = Some y.
Proof.
  unfold join_all.
  destruct (mapM _ urls) as [l'|] eqn:Hm; [|done]. intros [= <-] y Hy.
  apply mapM_Some in Hm.
  destruct (list_elem_of_lookup_1 _ _ Hy) as [i Hi].
  destruct (Forall2_lookup_r _ _ _ _ _ Hm Hi) as (x & Hx & Hj).
  exists x. split; [by eapply list_elem_of_lookup_2|done].
Qed.

(** Every URL find_urls_in_text returns is absolute. *)
Lemma find_urls_in_text_absolute text base l :
  find_urls_in_text P text base = inr l →
  ∀ u, u ∈ l → Urllib.is_absolute u = true.
Proof.
  unfold find_urls_in_text.
  destruct (join_all P base _) as [e|joined] eqn:Hj; [done|].
  intros [= <-] u Hu%list_set_elem.
  destruct (join_all_inv _ _ _ Hj u Hu) as (x & Hx & Hjoin).
  apply elem_of_app in Hx as [Hx|Hx].
  - destruct (m3u8_pattern_explicit _ _ Hx) as (s & rest & Hex).
    by eapply urljoin_explicit_absolute.
  - destruct (video_pattern_explicit _ _ Hx) as (s & rest & Hex).
    by eapply urljoin_explicit_absolute.
Qed.

Lemma scan_js_file_absolute s js_url :
  ∀ u, u ∈ scan_js_file P s js_url → Urllib.is_absolute u = true.
Proof.
  unfold scan_js_file. intros u.
  destruct (s _) as [e|resp]; [by intros ?%elem_of_nil|].
  destruct (raise_for_status resp); [by intros ?%elem_of_nil|].
  destruct (find_urls_in_text P _ _) as [e|l] eqn:Hf; [by intros ?%elem_of_nil|].
  by eapply find_urls_in_text_absolute.
Qed.

(** What the loop over the completed scans gathers comes from a scan. *)
Lemma gather_js_elem completed : ∀ acc x,
  x ∈ fold_left
        (λ js_streams outcome,
           match outcome with
           | inr found_in_js =>
               match found_in_js with
               | [] => js_streams
               | _ => (js_streams ++ found_in_js)%list
               end
           | inl _ => js_streams
           end) completed acc →
  x ∈ acc ∨ ∃ l : list string, (inr l : exn + list string) ∈ completed ∧ x ∈ l.
Proof.
  induction completed as [|o completed IH]; intros acc x; simpl; [auto|].
  intros [Hacc|(l & Hl & Hx)]%IH.
  - destruct o as [e|[|y l]]; [auto|auto|].
    apply elem_of_app in Hacc as [?|?]; [auto|].
    right. exists (y :: l). split; [left|done].
  - right. exists l. split; [by right|done].
Qed.

Lemma as_completed_elem {A} (order : list nat) (futures : list A) x :
  x ∈ as_completed order futures → x ∈ futures.
Proof.
  unfold as_completed. intros (i & _ & Hi)%list_elem_of_omap.
  by eapply list_elem_of_lookup_2.
Qed.

Lemma js_streams_absolute s order urls :
  ∀ u, u ∈ gather_js (as_completed order
                        (map (λ js_url, inr (scan_js_file P s js_url)) urls)) →
       Urllib.is_absolute u = true.
Proof.
  intros u [Hnil|(l & Hl & Hu)]%gather_js_elem; [by apply elem_of_nil in Hnil|].
  apply as_completed_elem in Hl.
  apply list_elem_of_In, in_map_iff in Hl as (js_url & [= <-] & _).
  by eapply scan_js_file_absolute.
Qed.

(** The result built from absolute streams and distinct absolute iframes. *)
Lemma build_result_ok url_path html_streams js_streams found_iframes :
  (∀ u, u ∈ html_streams → Urllib.is_absolute u = true) →
  (∀ u, u ∈ js_streams → Urllib.is_absolute u = true) →
  (∀ u, u ∈ found_iframes → Urllib.is_absolute u = true) →
  NoDup found_iframes →
  stream_ok (build_result P url_path html_streams js_streams found_iframes).
Proof.
  intros Hh Hj Hi Hnd. unfold build_result.
  set (all_streams := list_set P (html_streams ++ js_streams)).
  assert (∀ u, u ∈ all_streams → Urllib.is_absolute u = true) as Hall.
  { intros u [?|?]%list_set_elem%elem_of_app; auto. }
  pose proof (list_set_NoDup P (html_streams ++ js_streams)) as Hnd_all.
  fold all_streams in Hnd_all.
  constructor; simpl.
  - done.
  - intros u [Hu|[Hu|Hu]]; [| |auto];
      apply elem_of_filter in Hu as [Hu _];
      apply elem_of_filter in Hu as [Hu _]; auto.
  - by do 2 apply NoDup_filter.
  - by do 2 apply NoDup_filter.
  - done.
  - eexists. split; [by apply NoDup_filter|]. split; [|done].
    intros u [_ Hu]%elem_of_filter. by apply negb_true_iff in Hu.
Qed.

End stream_facts.

(** ** What the cache holds *)

Lemma cache_ok_init ttl : cache_ok (CacheManager.init ttl).
Proof. intros key v ts. simpl. by rewrite lookup_empty. Qed.

Lemma cache_ok_clear c : cache_ok (CacheManager.clear c).
Proof. intros key v ts. simpl. by rewrite lookup_empty. Qed.

Lemma cache_ok_set c now key v :
  cache_ok c → entry_ok key v → cache_ok (CacheManager.set now key v c).
Proof.
  intros Hc Hv key' v' ts'. simpl. rewrite lookup_insert.
  case_decide as Hk; [|by apply Hc]. intros [= <- _]. by subst.
Qed.

Lemma cache_ok_get c now key :
  cache_ok c → cache_ok (snd (CacheManager.get now key c)).
Proof.
  intros Hc key' v' ts' Hk.
  apply CacheFacts.get_lookup_Some in Hk. by eapply Hc.
Qed.

Lemma preserves_ret {A} (x : A) : preserves (ret x).
Proof. by intros w r w' Hc [= _ <-]. Qed.

Lemma preserves_raise {A} e : preserves (@raise A e).
Proof. by intros w r w' Hc [= _ <-]. Qed.

Lemma preserves_lift {A} (x : exn + A) : preserves (lift x).
Proof. by intros w r w' Hc [= _ <-]. Qed.

Lemma preserves_bind {A B} (m : M A) (f : A → M B) :
  preserves m → (∀ x, preserves (f x)) → preserves (bind m f).
Proof.
  intros Hm Hf w r w' Hc. unfold bind.
  destruct (m w) as [[e|x] w1] eqn:Hmw.
  - intros [= _ <-]. by eapply Hm.
  - intros Hfx. eapply Hf; [|done]. by eapply Hm.
Qed.

Lemma preserves_try_except {A} (m : M A) (h : exn → M A) :
  preserves m → (∀ e, preserves (h e)) → preserves (try_except m h).
Proof.
  intros Hm Hh w r w' Hc. unfold try_except.
  destruct (m w) as [[e|x] w1] eqn:Hmw.
  - intros Hhe. eapply Hh; [|done]. by eapply Hm.
  - intros [= _ <-]. by eapply Hm.
Qed.

Lemma preserves_read {A} (f : world → exn + A) : preserves (λ w, (f w, w)).
Proof. by intros w r w' Hc [= _ <-]. Qed.

Lemma preserves_time_time : preserves time_time.
Proof. by intros w r w' Hc [= _ <-]. Qed.

Lemma preserves_session_get u t : preserves (session_get u t).
Proof. by intros w r w' Hc [= _ <-]. Qed.

Lemma preserves_cache_get key : preserves (cache_get key).
Proof.
  intros w r w' Hc. unfold cache_get.
  destruct (CacheManager.cache (cache w) !! key); [|by intros [= _ <-]].
  simpl. destruct (CacheManager.get _ _ _) as [o c] eqn:Hg.
  intros [= _ <-]. simpl.
  change c with (snd (o, c)). rewrite <- Hg. by apply cache_ok_get.
Qed.

Lemma preserves_cache_set key v : entry_ok key v → preserves (cache_set key v).
Proof.
  intros Hv w r w' Hc. rewrite cache_set_eq. intros [= _ <-]. simpl.
  by apply cache_ok_set.
Qed.

Lemma preserves_cache_clear : preserves cache_clear.
Proof. intros w r w' Hc [= _ <-]. simpl. apply cache_ok_clear. Qed.

Lemma preserves_if {A} (b : bool) (m1 m2 : M A) :
  preserves m1 → preserves m2 → preserves (if b then m1 else m2).
Proof. by destruct b. Qed.

Create HintDb preserves.
#[export] Hint Resolve preserves_ret preserves_raise preserves_lift
  preserves_bind preserves_try_except preserves_read preserves_time_time
  preserves_session_get preserves_cache_get preserves_cache_set
  preserves_cache_clear preserves_if : preserves.

(** ** The keys of the cache *)

Lemma prefix_inv p : ∀ s, String.prefix p s = true → ∃ t, s = p ++ t.
Proof.
  induction p as [|c p IH]; intros s; [simpl; eauto|].
  destruct s as [|d s]; simpl; [done|].
  destruct (ascii_dec c d) as [->|]; [|done].
  intros (t & ->)%IH. eauto.
Qed.

Lemma hexdigit_is_hexdigit n :
  0 ≤ n < 16 → Md5.is_hexdigit (Md5.hexdigit n) = true.
Proof.
  intros Hn.
  assert (n = 0 ∨ n = 1 ∨ n = 2 ∨ n = 3 ∨ n = 4 ∨ n = 5 ∨ n = 6 ∨ n = 7
          ∨ n = 8 ∨ n = 9 ∨ n = 10 ∨ n = 11 ∨ n = 12 ∨ n = 13 ∨ n = 14
          ∨ n = 15) as Hcases by lia.
  repeat (destruct Hcases as [->|Hcases]; [reflexivity|]). by subst.
Qed.

(** A hexdigest starts with two hexadecimal digits. *)
Lemma hexdigest_head msg :
  ∃ c1 c2 rest, Md5.hexdigest msg = String c1 (String c2 rest)
    ∧ Md5.is_hexdigit c1 = true ∧ Md5.is_hexdigit c2 = true.
Proof.
  unfold Md5.hexdigest. destruct (Md5.digest_state msg) as [[[a b] c] d].
  unfold Md5.hex_word at 1. cbn [Md5.word_bytes fold_right].
  unfold Md5.hex_byte at 1. do 3 eexists. split; [done|].
  split; apply hexdigit_is_hexdigit.
  - pose proof (Z.mod_pos_bound a 256). 
    split; [apply Z.div_pos; lia|apply Z.div_lt_upper_bound; lia].
  - apply Z.mod_pos_bound. lia.
Qed.

(** The fingerprint of a url is no key of the detail or stream endpoint. *)
Lemma md5_key_entry_ok u v : entry_ok (md5_key u) v.
Proof.
  unfold md5_key.
  destruct (hexdigest_head (Md5.encode u)) as (c1 & c2 & rest & -> & H1 & H2).
  split; unfold Py.startswith; intros (t & Heq)%prefix_inv;
    simpl in Heq; injection Heq as -> ->; done.
Qed.

Lemma home_key_entry_ok v : entry_ok "homepage_data" v.
Proof. by split. Qed.

Lemma search_key_entry_ok q v : entry_ok ("search_" ++ q) v.
Proof. by split. Qed.

Lemma anime_key_entry_ok path a :
  anime_ok a → entry_ok ("anime_info_" ++ path) (VAnime a).
Proof. intros Ha. split; [eauto|done]. Qed.

Lemma stream_key_entry_ok path r :
  stream_ok r → entry_ok ("stream_" ++ path) (VStream r).
Proof. intros Hr. split; [done|eauto]. Qed.

Lemma prefix_append p t : String.prefix p (p ++ t) = true.
Proof.
  induction p as [|c p IH]; [by destruct t|].
  cbn [String.append String.prefix]. by destruct (ascii_dec c c).
Qed.

Lemma anime_key_prefixed path :
  Py.startswith ("anime_info_" ++ path) "anime_info_" = true.
Proof. apply prefix_append. Qed.

Lemma stream_key_prefixed path :
  Py.startswith ("stream_" ++ path) "stream_" = true.
Proof. apply prefix_append. Qed.

#[export] Hint Resolve md5_key_entry_ok home_key_entry_ok search_key_entry_ok
  : preserves.

Section handler_facts.
Context (P : platform).

Lemma preserves_fetch_from_network u use_cache :
  preserves (fetch_from_network P u use_cache (md5_key u)).
Proof.
  unfold fetch_from_network.
  apply preserves_try_except; [|intros []; auto with preserves].
  repeat (apply preserves_bind; [|intros ?]); auto with preserves.
  - destruct (content_encoding _) as [enc|]; [|auto with preserves].
    destruct (String.eqb enc "gzip"); [|auto with preserves].
    destruct (gzip_decompress P _); auto with preserves.
Qed.

Lemma preserves_fetch_with_cache u use_cache :
  preserves (fetch_with_cache P u use_cache).
Proof.
  pose proof (preserves_fetch_from_network u use_cache).
  unfold fetch_with_cache. apply preserves_bind; [auto with preserves|].
  intros [v|]; [destruct (truthy v)|]; auto with preserves.
Qed.

(** An uncached fetch leaves the cache as it was. *)
Lemma fetch_uncached_frame u w r w1 :
  fetch_with_cache P u false w = (r, w1) → cache w1 = cache w.
Proof.
  unfold fetch_with_cache, fetch_from_network, try_except, bind, ret,
    session_get, lift. simpl.
  destruct (upstream w _) as [e|resp]; simpl.
  - destruct e; by intros [= _ <-].
  - destruct (raise_for_status resp) as [e|[]]; simpl.
    + destruct e; by intros [= _ <-].
    + destruct (content_encoding resp) as [enc|];
        [destruct (String.eqb enc "gzip");
           [destruct (gzip_decompress P (content resp))|]|];
        simpl; by intros [= _ <-].
Qed.

(** What a cache hit hands to a handler is a well-formed entry. *)
Lemma hit_entry_ok key w c w1 v :
  cache_ok (cache w) → cache_get key w = (inr c, w1) → hit c = Some v →
  entry_ok key v.
Proof.
  intros Hc Hget Hhit. destruct c as [v0|]; [|done]. simpl in Hhit.
  destruct (truthy v0); [|done]. injection Hhit as ->.
  apply cache_get_Some in Hget as (_ & ts & Hk & _). by eapply Hc.
Qed.

End handler_facts.

Lemma preserves_bind_from {A B} (m : M A) (f : A → M B) :
  preserves m →
  (∀ x, (∃ w w1, m w = (inr x, w1)) → preserves (f x)) →
  preserves (bind m f).
Proof.
  intros Hm Hf w r w' Hc. unfold bind.
  destruct (m w) as [[e|x] w1] eqn:Hmw.
  - intros [= _ <-]. by eapply Hm.
  - intros Hfx. eapply Hf; [eauto| |done]. by eapply Hm.
Qed.

Lemma lift_inr {A} (e : exn + A) x w w1 : lift e w = (inr x, w1) → e = inr x.
Proof. by intros [= -> _]. Qed.

Section stream_handler.
Context (P : platform).

(** The url of the page of a stream request. *)
Lemma stream_source_url url_path :
  ∃ t, add_base_url
         (if Py.startswith url_path "movies/" || Py.startswith url_path "episode/"
          then url_path else "episode/" ++ url_path)
       = "https" ++ String ":" t.
Proof.
  destruct (Py.startswith url_path "movies/") eqn:Hm; simpl.
  - apply prefix_inv in Hm as [t ->]. eexists. reflexivity.
  - destruct (Py.startswith url_path "episode/") eqn:He.
    + apply prefix_inv in He as [t ->]. eexists. reflexivity.
    + eexists. reflexivity.
Qed.

(** The result of a stream request, from the streams of the page, the
    scans in any order of completion, and the iframes of the page. *)
Lemma stream_result_ok url_path t html_content html_streams s order urls joined :
  find_urls_in_text P html_content ("https" ++ String ":" t) = inr html_streams →
  join_all P ("https" ++ String ":" t) (Re.findall iframe_pattern html_content)
    = inr joined →
  stream_ok
    (build_result P url_path html_streams
       (gather_js (as_completed order
                     (map (λ js_url, inr (scan_js_file P s js_url)) urls)))
       (list_set P joined)).
Proof.
  intros Hfind Hjoin. apply build_result_ok.
  - by eapply find_urls_in_text_absolute.
  - apply js_streams_absolute.
  - intros u Hu%list_set_elem.
    destruct (join_all_inv _ _ _ _ Hjoin u Hu) as (x & _ & Hx).
    by eapply (urljoin_base_absolute _ "https").
  - apply list_set_NoDup.
Qed.

Lemma stream_body_response url_path t cache_key order w st body w' :
  stream_body P url_path ("https" ++ String ":" t) cache_key order w
  = (inr (st, body), w') →
  st = 200 ∧ ∃ r, body = BValue (VStream r) ∧ stream_ok r.
Proof.
  unfold stream_body. intros H.
  inv_bind H. inv_bind H. inv_bind H. inv_bind H. inv_bind H. inv_bind H.
  inv_bind H. injection H as <- <- _.
  split; [done|]. eexists. split; [done|].
  apply lift_inr in Hm1, Hm4. injection Hm3 as <- _.
  by eapply stream_result_ok.
Qed.

Lemma preserves_stream_body url_path t order :
  preserves (stream_body P url_path ("https" ++ String ":" t)
               ("stream_" ++ url_path) order).
Proof.
  unfold stream_body.
  apply preserves_bind; [apply preserves_fetch_with_cache|]. intros page.
  apply preserves_bind; [auto with preserves|]. intros html_content.
  apply preserves_bind_from; [auto with preserves|].
  intros html_streams (w1 & w2 & Hfind%lift_inr).
  apply preserves_bind; [auto with preserves|]. intros js_file_urls.
  apply preserves_bind_from; [apply preserves_read|].
  intros js_streams (w3 & w4 & Hjs). injection Hjs as <- _.
  apply preserves_bind_from; [auto with preserves|].
  intros joined (w5 & w6 & Hjoin%lift_inr).
  apply preserves_bind; [|auto with preserves].
  apply preserves_cache_set, stream_key_entry_ok.
  by eapply stream_result_ok.
Qed.

Lemma preserves_get_streaming_links url_path order :
  preserves (get_streaming_links P url_path order).
Proof.
  unfold get_streaming_links.
  apply preserves_bind; [auto with preserves|]. intros c.
  destruct (hit c); [auto with preserves|].
  unfold stream_fresh. destruct (stream_source_url url_path) as [t ->].
  apply preserves_try_except; [|auto with preserves].
  apply preserves_stream_body.
Qed.

(** Every 200 answer of the stream endpoint carries a well-formed result,
    whether it was just built or comes from the cache. *)
Lemma stream_response_ok url_path order w body w' :
  cache_ok (cache w) →
  get_streaming_links P url_path order w = (inr (200, body), w') →
  ∃ r, body = BValue (VStream r) ∧ stream_ok r.
Proof.
  intros Hc H. unfold get_streaming_links in H. inv_bind H.
  destruct (hit x) as [v|] eqn:Hhit.
  - injection H as <- _.
    destruct (hit_entry_ok _ _ _ _ _ Hc Hm Hhit) as [_ Hs].
    destruct (Hs (stream_key_prefixed url_path)) as (r & -> & Hr). eauto.
  - unfold stream_fresh in H. destruct (stream_source_url url_path) as [t Ht].
    rewrite Ht in H. unfold try_except in H.
    destruct (stream_body _ _ _ _ _ _) as [[e|[st b]] w2] eqn:Hbody.
    + by injection H.
    + injection H as -> -> _.
      by apply stream_body_response in Hbody as [_ ?].
Qed.

End stream_handler.

(** ** The season fan-out *)

Lemma length_fill completed : ∀ results,
  length (fill results completed) = length results.
Proof.
  induction completed as [|[i o] completed IH]; intros results; simpl; [done|].
  unfold fill in *. simpl. by rewrite IH, length_insert.
Qed.

Lemma collect_season_in_range results i o :
  (i < length results)%nat →
  collect_season results (i, o) = inr (<[i := Some (recover o)]> results).
Proof.
  intros Hi%Nat.ltb_lt. unfold collect_season, assign. rewrite Hi.
  by destruct o.
Qed.

Lemma collect_season_out_of_range results i o :
  (length results ≤ i)%nat →
  collect_season results (i, o)
  = inl (IndexError "list assignment index out of range").
Proof.
  intros Hi%Nat.ltb_ge. unfold collect_season, assign. rewrite Hi.
  by destruct o.
Qed.

Lemma collect_seasons_in_range completed : ∀ results,
  Forall (λ done, (fst done < length results)%nat) completed →
  collect_seasons results completed = inr (fill results completed).
Proof.
  induction completed as [|[i o] completed IH]; intros results Hall; [done|].
  apply Forall_cons in Hall as [Hi Hall]. simpl in Hi.
  cbn [collect_seasons]. rewrite (collect_season_in_range _ _ _ Hi).
  rewrite IH; [done|]. by rewrite length_insert.
Qed.

(** One index outside the list is enough for the loop to raise. *)
Lemma collect_seasons_out_of_range completed : ∀ results,
  Exists (λ done, (length results ≤ fst done)%nat) completed →
  collect_seasons results completed
  = inl (IndexError "list assignment index out of range").
Proof.
  induction completed as [|[i o] completed IH]; intros results Hex;
    [by apply Exists_nil in Hex|].
  cbn [collect_seasons].
  destruct (decide (i < length results)%nat) as [Hi|Hi].
  - rewrite (collect_season_in_range _ _ _ Hi). apply IH.
    apply Exists_cons in Hex as [Hhd|Htl]; [simpl in Hhd; lia|].
    by rewrite length_insert.
  - rewrite collect_season_out_of_range; [done|lia].
Qed.



Lemma as_completed_map {A B} (f : A → B) order (futures : list A) :
  as_completed order (map f futures) = map f (as_completed order futures).
Proof.
  unfold as_completed. induction order as [|i order IH]; [done|].
  cbn [omap list_omap]. 
  change (map f futures) with (f <$> futures). rewrite list_lookup_fmap.
  change (f <$> futures) with (map f futures).
  destruct (futures !! i); simpl; by rewrite IH.
Qed.

Lemma enumerate_lookup_from {A} (l : list A) : ∀ n i,
  zip (seq n (length l)) l !! i = (λ x, ((n + i)%nat, x)) <$> l !! i.
Proof.
  induction l as [|x l IH]; intros n i; [done|].
  destruct i as [|i]; simpl.
  - by rewrite Nat.add_0_r.
  - rewrite IH. by rewrite Nat.add_succ_r.
Qed.

Lemma enumerate_lookup {A} (l : list A) i :
  enumerate l !! i = (λ x, (i, x)) <$> l !! i.
Proof. unfold enumerate. by rewrite enumerate_lookup_from. Qed.

Lemma enumerate_elem {A} (l : list A) i x :
  (i, x) ∈ enumerate l ↔ l !! i = Some x.
Proof.
  rewrite list_elem_of_lookup. split.
  - intros [k Hk]. rewrite enumerate_lookup in Hk.
    destruct (l !! k) eqn:Hl; [|done]. by injection Hk as -> ->.
  - intros Hl. exists i. by rewrite enumerate_lookup, Hl.
Qed.

Lemma enumerate_fst {A} (l : list A) : map fst (enumerate l) = seq 0 (length l).
Proof.
  unfold enumerate. generalize 0%nat.
  induction l as [|x l IH]; intros n; [done|]. simpl. by rewrite IH.
Qed.

Lemma length_enumerate {A} (l : list A) : length (enumerate l) = length l.
Proof. by rewrite <- (length_map fst), enumerate_fst, length_seq. Qed.

Lemma filter_all {A} (p : A → bool) l :
  Forall (λ x, p x = true) l → List.filter p l = l.
Proof.
  induction 1 as [|x l Hx _ IH]; [done|]. simpl. by rewrite Hx, IH.
Qed.

(** Reading the futures in the order of submission gives them back. *)
Lemma omap_lookup_seq {A} (l : list A) : ∀ (f : nat → option A) n,
  (∀ i, (i < length l)%nat → f (n + i)%nat = l !! i) →
  omap f (seq n (length l)) = l.
Proof.
  induction l as [|x l IH]; intros f n Hf; [done|].
  cbn [length seq omap list_omap].
  rewrite <- (Nat.add_0_r n) at 1. rewrite (Hf 0%nat); [|simpl; lia].
  simpl. f_equal. apply IH. intros i Hi.
  replace (S n + i)%nat with (n + S i)%nat by lia.
  rewrite Hf; [done|simpl; lia].
Qed.

(** A schedule hands back every future, once. *)
Lemma as_completed_schedule {A} order (futures : list A) :
  is_schedule order futures → as_completed order futures ≡ₚ futures.
Proof.
  unfold is_schedule, as_completed. intros ->.
  by rewrite (omap_lookup_seq futures (λ i, futures !! i) 0).
Qed.

Section seasons.
Context (P : platform) (s : site).

Implicit Types season_buttons : list Soup.node.

Lemma submit_seasons_all season_buttons :
  Forall (λ b, has_post_and_season b = true) season_buttons →
  submit_seasons P s season_buttons
  = map (λ ib, (fst ib, season_task P s (snd ib))) (enumerate season_buttons).
Proof.
  intros Hall. unfold submit_seasons. rewrite filter_all.
  - apply map_ext. by intros [i b].
  - apply Forall_forall. intros [i b] Hib%enumerate_elem.
    rewrite Forall_forall in Hall. apply Hall. by eapply list_elem_of_lookup_2.
Qed.

Lemma submit_seasons_all_lookup season_buttons p :
  Forall (λ b, has_post_and_season b = true) season_buttons →
  submit_seasons P s season_buttons !! p
  = (λ b, (p, season_task P s b)) <$> season_buttons !! p.
Proof.
  intros Hall. rewrite (submit_seasons_all _ Hall).
  change (map ?f ?l) with (f <$> l).
  rewrite list_lookup_fmap, enumerate_lookup.
  by destruct (season_buttons !! p).
Qed.

Lemma submit_seasons_all_length season_buttons :
  Forall (λ b, has_post_and_season b = true) season_buttons →
  length (submit_seasons P s season_buttons) = length season_buttons.
Proof.
  intros Hall. by rewrite (submit_seasons_all _ Hall), length_map, length_enumerate.
Qed.

(** With every button valid, a slot holds what its own button's task
    contributes as soon as that task has been collected. *)
Lemma fill_lookup season_buttons :
  Forall (λ b, has_post_and_season b = true) season_buttons →
  ∀ order results j b,
    NoDup order → length results = length season_buttons →
    season_buttons !! j = Some b →
    fill results (as_completed order (submit_seasons P s season_buttons)) !! j
    = if decide (j ∈ order) then Some (Some (recover (season_task P s b)))
      else results !! j.
Proof.
  intros Hall order. induction order as [|p order IH];
    intros results j b Hnd Hlen Hj.
  - by rewrite decide_False by apply not_elem_of_nil.
  - apply NoDup_cons in Hnd as [Hp Hnd].
    unfold as_completed. cbn [omap list_omap].
    rewrite (submit_seasons_all_lookup _ _ Hall).
    destruct (season_buttons !! p) as [bp|] eqn:Hbp; simpl.
    + fold (as_completed order (submit_seasons P s season_buttons)).
      unfold fill. cbn [fold_left fst snd].
      fold (fill (<[p:=Some (recover (season_task P s bp))]> results)
              (as_completed order (submit_seasons P s season_buttons))).
      rewrite (IH _ j b Hnd); [|by rewrite length_insert|done].
      destruct (decide (j = p)) as [->|Hne].
      * rewrite decide_False by done. rewrite decide_True by left.
        rewrite list_lookup_insert_eq; [congruence|].
        rewrite Hlen. by eapply lookup_lt_Some.
      * rewrite list_lookup_insert_ne by done.
        destruct (decide (j ∈ order)) as [Hin|Hnin].
        -- by rewrite decide_True by (by right).
        -- rewrite decide_False; [done|]. by intros [?|?]%elem_of_cons.
    + fold (as_completed order (submit_seasons P s season_buttons)).
      rewrite (IH _ j b Hnd Hlen Hj).
      assert (j ≠ p) by congruence.
      destruct (decide (j ∈ order)) as [Hin|Hnin].
      * by rewrite decide_True by (by right).
      * rewrite decide_False; [done|]. by intros [?|?]%elem_of_cons.
Qed.

(** Order preservation: with every season button valid, whatever the
    order of completion, the items are those of the seasons in the order
    of the buttons, a failed season contributing none. *)
Lemma fetch_all_seasons_ordered season_buttons order :
  Forall (λ b, has_post_and_season b = true) season_buttons →
  is_schedule order (submit_seasons P s season_buttons) →
  fetch_all_seasons P s season_buttons order
  = inr (flat_map (λ b, recover (season_task P s b)) season_buttons).
Proof.
  intros Hall Hsched. unfold fetch_all_seasons.
  pose proof (submit_seasons_all_length _ Hall) as Hlen.
  unfold is_schedule in Hsched. rewrite Hlen in Hsched.
  assert (NoDup order) as Hnd by (rewrite Hsched; apply NoDup_seq).
  rewrite collect_seasons_in_range.
  - f_equal. unfold merge_seasons.
    assert (fill (replicate (length (submit_seasons P s season_buttons)) None)
              (as_completed order (submit_seasons P s season_buttons))
            = map (λ b, Some (recover (season_task P s b))) season_buttons) as ->.
    { apply list_eq. intros j.
      change (map ?f ?l) with (f <$> l). rewrite list_lookup_fmap.
      destruct (season_buttons !! j) as [b|] eqn:Hj; simpl.
      - rewrite (fill_lookup _ Hall order _ j b Hnd); [| |done].
        + rewrite decide_True; [done|].
          rewrite Hsched. apply elem_of_seq. apply lookup_lt_Some in Hj. lia.
        + by rewrite length_replicate.
      - apply lookup_ge_None. rewrite length_fill, length_replicate, Hlen.
        by apply lookup_ge_None. }
    clear. induction season_buttons as [|b bs IH]; [done|]. simpl.
    by rewrite IH.
  - apply Forall_forall. intros [i o] Hio%as_completed_elem.
    rewrite length_replicate. simpl.
    apply list_elem_of_lookup in Hio as [p Hp].
    rewrite (submit_seasons_all_lookup _ _ Hall) in Hp.
    destruct (season_buttons !! p) eqn:Hb; [|done]. injection Hp as <- _.
    rewrite Hlen. by eapply lookup_lt_Some.
Qed.

End seasons.

Section out_of_range.
Context (P : platform) (s : site).

Implicit Types season_buttons : list Soup.node.

Lemma submit_seasons_elem season_buttons x o :
  (x, o) ∈ submit_seasons P s season_buttons ↔
  ∃ b, season_buttons !! x = Some b ∧ has_post_and_season b = true
       ∧ o = season_task P s b.
Proof.
  unfold submit_seasons. rewrite list_elem_of_In, in_map_iff. split.
  - intros ([i b] & [= <- <-] & Hin).
    apply filter_In in Hin as [Hin Hv].
    apply list_elem_of_In, enumerate_elem in Hin. eauto.
  - intros (b & Hb & Hv & ->). exists (x, b). split; [done|].
    apply filter_In. split; [|done].
    by apply list_elem_of_In, enumerate_elem.
Qed.

Lemma NoDup_map_fst_filter {A B} (p : A * B → bool) (l : list (A * B)) :
  NoDup (map fst l) → NoDup (map fst (List.filter p l)).
Proof.
  induction l as [|x l IH]; simpl; [done|].
  intros [Hx Hl]%NoDup_cons. destruct (p x); [|auto].
  simpl. apply NoDup_cons. split; [|auto].
  intros Hin. apply Hx.
  apply list_elem_of_In, in_map_iff in Hin as (y & Hy & Hin).
  apply filter_In in Hin as [Hin _].
  apply list_elem_of_In, in_map_iff. eauto.
Qed.

Lemma submit_seasons_NoDup season_buttons :
  NoDup (map fst (submit_seasons P s season_buttons)).
Proof.
  unfold submit_seasons. rewrite map_map.
  rewrite (map_ext _ fst) by (by intros [i b]).
  apply NoDup_map_fst_filter. rewrite enumerate_fst. apply NoDup_seq.
Qed.

(** A button without the attributes before one that has them: some
    submitted task carries an index that is not below the number of
    submitted tasks. *)
Lemma submit_seasons_out_of_range season_buttons i j bi bj :
  (i < j)%nat →
  season_buttons !! i = Some bi → has_post_and_season bi = false →
  season_buttons !! j = Some bj → has_post_and_season bj = true →
  Exists (λ done, (length (submit_seasons P s season_buttons) ≤ fst done)%nat)
    (submit_seasons P s season_buttons).
Proof.
  intros Hij Hi Hbi Hj Hbj.
  set (submitted := submit_seasons P s season_buttons).
  destruct (decide (Exists (λ done, (length submitted ≤ fst done)%nat) submitted))
    as [Hex|Hnex]; [done|exfalso].
  apply not_Exists_Forall in Hnex; [|apply _].
  rewrite Forall_forall in Hnex.
  assert (∀ x, x ∈ map fst submitted → (x < length submitted)%nat ∧ x ≠ i) as Hin.
  { intros x ([x' o] & [= <-] & Hxo)%list_elem_of_In%in_map_iff.
    apply list_elem_of_In in Hxo. split.
    - specialize (Hnex _ Hxo). simpl in Hnex. lia.
    - intros ->. apply submit_seasons_elem in Hxo as (b & Hb & Hv & _).
      congruence. }
  assert ((j, season_task P s bj) ∈ submitted) as Hjin
    by (apply submit_seasons_elem; eauto).
  assert (j < length submitted)%nat as HjK.
  { apply Hin, list_elem_of_In, in_map_iff. exists (j, season_task P s bj).
    split; [done|]. by apply list_elem_of_In. }
  assert (map fst submitted
            ⊆+ (seq 0 i ++ seq (S i) (length submitted - S i))%list) as Hsub.
  { apply NoDup_submseteq; [apply submit_seasons_NoDup|].
    intros x [Hx Hne]%Hin. apply elem_of_app.
    rewrite !elem_of_seq. lia. }
  apply submseteq_length in Hsub.
  rewrite length_map, length_app, !length_seq in Hsub. lia.
Qed.

(** Then the fan-in raises, whatever the order of completion. *)
Lemma fetch_all_seasons_out_of_range season_buttons order i j bi bj :
  (i < j)%nat →
  season_buttons !! i = Some bi → has_post_and_season bi = false →
  season_buttons !! j = Some bj → has_post_and_season bj = true →
  is_schedule order (submit_seasons P s season_buttons) →
  fetch_all_seasons P s season_buttons order
  = inl (IndexError "list assignment index out of range").
Proof.
  intros Hij Hi Hbi Hj Hbj Hsched. unfold fetch_all_seasons.
  rewrite collect_seasons_out_of_range; [done|].
  rewrite length_replicate.
  pose proof (submit_seasons_out_of_range _ _ _ _ _ Hij Hi Hbi Hj Hbj) as Hex.
  apply Exists_exists in Hex as (done & Hin & Hge).
  apply Exists_exists. exists done. split; [|done].
  by rewrite (as_completed_schedule _ _ Hsched).
Qed.

End out_of_range.

(** ** The detail endpoint *)

Section detail_handler.
Context (P : platform).

(** The [try] block of get_anime_info, once the page is fetched and
    parsed. *)
Lemma anime_body_run url_path full_url cache_key order w html_content w2 soup :
  fetch_with_cache P full_url true w = (inr (VText html_content), w2) →
  html_parser P html_content = Some soup →
  anime_body P url_path full_url cache_key order w
  = match find_season_buttons soup with
    | [] => (inr (404, BError "No season buttons found"), w2)
    | _ =>
        match fetch_all_seasons P (upstream w2) (find_season_buttons soup) order with
        | inr all_episode_items =>
            let anime_data := assemble url_path soup all_episode_items in
            (inr (200, BValue (VAnime anime_data)),
             with_cache
               (CacheManager.set (clock w2 (ticks w2)) cache_key
                  (VAnime anime_data) (cache w2))
               (tick w2))
        | inl e => (inl e, w2)
        end
    end.
Proof.
  intros Hfetch Hparse. unfold anime_body.
  rewrite (bind_step _ _ _ _ _ Hfetch). simpl.
  unfold bind at 1. simpl. unfold bind at 1, parse_html. rewrite Hparse. simpl.
  destruct (find_season_buttons soup) as [|b bs]; [done|].
  unfold bind at 1.
  destruct (fetch_all_seasons P (upstream w2) (b :: bs) order); [done|].
  by rewrite (bind_step _ _ _ _ _ (cache_set_eq _ _ _)).
Qed.

(** The handler after a cache miss. *)
Lemma get_anime_info_miss url_path order w c w1 :
  cache_get ("anime_info_" ++ url_path) w = (inr c, w1) → hit c = None →
  get_anime_info P url_path order w
  = try_except
      (anime_body P url_path (add_base_url url_path)
         ("anime_info_" ++ url_path) order)
      (λ e, ret (500, BError (str e))) w1.
Proof.
  intros Hget Hhit. unfold get_anime_info.
  rewrite (bind_step _ _ _ _ _ Hget). by rewrite Hhit.
Qed.

Lemma preserves_anime_body url_path full_url order :
  preserves (anime_body P url_path full_url ("anime_info_" ++ url_path) order).
Proof.
  unfold anime_body.
  apply preserves_bind; [apply preserves_fetch_with_cache|]. intros page.
  apply preserves_bind; [auto with preserves|]. intros html_content.
  apply preserves_bind; [auto with preserves|]. intros soup.
  destruct (find_season_buttons soup); [auto with preserves|].
  apply preserves_bind; [apply preserves_read|]. intros items.
  apply preserves_bind; [|auto with preserves].
  by apply preserves_cache_set, anime_key_entry_ok.
Qed.

Lemma preserves_get_anime_info url_path order :
  preserves (get_anime_info P url_path order).
Proof.
  unfold get_anime_info.
  apply preserves_bind; [auto with preserves|]. intros c.
  destruct (hit c); [auto with preserves|].
  apply preserves_try_except; [|auto with preserves].
  apply preserves_anime_body.
Qed.

(** Every 200 answer of the detail endpoint carries a well-formed
    record, whether it was just built or comes from the cache. *)
Lemma anime_response_ok url_path order w body w' :
  cache_ok (cache w) →
  get_anime_info P url_path order w = (inr (200, body), w') →
  ∃ a, body = BValue (VAnime a) ∧ anime_ok a.
Proof.
  intros Hc H. unfold get_anime_info in H. inv_bind H.
  destruct (hit x) as [v|] eqn:Hhit.
  - injection H as <- _.
    destruct (hit_entry_ok _ _ _ _ _ Hc Hm Hhit) as [Ha _].
    destruct (Ha (anime_key_prefixed url_path)) as (a & -> & Hok). eauto.
  - unfold try_except in H.
    destruct (anime_body _ _ _ _ _ _) as [[e|[st b]] w2] eqn:Hbody.
    + by injection H.
    + injection H as -> -> _. unfold anime_body in Hbody.
      inv_bind Hbody. inv_bind Hbody. inv_bind Hbody.
      destruct (find_season_buttons x2); [by injection Hbody|].
      inv_bind Hbody. inv_bind Hbody. injection Hbody as <- _.
      eexists. split; [done|]. reflexivity.
Qed.

Section other_handlers.
Context (scrape_home : Soup.node → exn + list (string * list item)).
Context (scrape_search : Soup.node → exn + list item).
Context (quote_plus : string → string).

Lemma preserves_get_homepage_data :
  preserves (get_homepage_data P scrape_home).
Proof.
  unfold get_homepage_data.
  apply preserves_bind; [auto with preserves|]. intros c.
  destruct (hit c); [auto with preserves|].
  apply preserves_try_except; [|auto with preserves].
  apply preserves_bind; [apply preserves_fetch_with_cache|]. intros page.
  repeat (apply preserves_bind; [auto with preserves|]; intros ?).
  auto with preserves.
Qed.

Lemma preserves_search_anime q :
  preserves (search_anime P scrape_search quote_plus q).
Proof.
  unfold search_anime. destruct q as [search_query|]; [|auto with preserves].
  destruct (negb _); [auto with preserves|].
  apply preserves_bind; [auto with preserves|]. intros c.
  destruct (hit c); [auto with preserves|].
  apply preserves_try_except; [|auto with preserves].
  apply preserves_bind; [apply preserves_fetch_with_cache|]. intros page.
  repeat (apply preserves_bind; [auto with preserves|]; intros ?).
  auto with preserves.
Qed.

Lemma preserves_clear_cache : preserves clear_cache.
Proof. unfold clear_cache. auto with preserves. Qed.

Local Abbreviation reachable := (reachable P scrape_home scrape_search quote_plus).

Lemma preserves_snd {A} (m : M A) w :
  preserves m → cache_ok (cache w) → cache_ok (cache (snd (m w))).
Proof. intros Hm Hc. destruct (m w) as [r w'] eqn:Hmw. by eapply Hm. Qed.

(** In every reachable world the cache is well-formed. *)
Lemma reachable_cache_ok w : reachable w → cache_ok (cache w).
Proof.
  induction 1 as [ttl clk s|w clk n s _ IH|w _ IH|w q _ IH
                 |w url_path order _ IH|w url_path order _ IH|w _ IH].
  - apply cache_ok_init.
  - exact IH.
  - exact (preserves_snd _ w preserves_get_homepage_data IH).
  - exact (preserves_snd _ w (preserves_search_anime q) IH).
  - exact (preserves_snd _ w (preserves_get_anime_info url_path order) IH).
  - exact (preserves_snd _ w (preserves_get_streaming_links P url_path order) IH).
  - exact (preserves_snd _ w preserves_clear_cache IH).
Qed.

End other_handlers.

End detail_handler.

(** * The claims *)


(** C5, as amended. When fetch is called with the cache on and the cache
    holds, under the url's fingerprint, an unexpired body that is not
    empty, the call returns that body, sends nothing on the network and
    leaves the cache as it was. Hence after a cached fetch that returned a
    non-empty body, a later cached fetch of the same url within the TTL
    of the stored entry returns the same body and sends nothing. *)
Theorem C5_cached_fetch_skips_network (P : platform) (u : string) (w : world) :
  (∀ v ts,
     CacheManager.cache (cache w) !! md5_key u = Some (v, ts) →
     clock w (ticks w) - ts < CacheManager.ttl (cache w) →
     truthy v = true →
     ∃ w', fetch_with_cache P u true w = (inr v, w')
           ∧ session_log w' = session_log w ∧ cache w' = cache w)
  ∧ (∀ v w1,
       fetch_with_cache P u true w = (inr v, w1) →
       truthy v = true →
       ∃ ts, CacheManager.cache (cache w1) !! md5_key u = Some (v, ts)
             ∧ ∀ w2, cache w2 = cache w1 →
                 clock w2 (ticks w2) - ts < CacheManager.ttl (cache w1) →
                 ∃ w3, fetch_with_cache P u true w2 = (inr v, w3)
                       ∧ session_log w3 = session_log w2).
Proof.
  split.
  - intros v ts Hk Hlt Ht. exists (tick w).
    by rewrite (fetch_hit P u w v ts Hk Hlt Ht).
  - intros v w1 Hfetch Ht.
    destruct (fetch_stores P u w v w1 Hfetch) as [ts Hk].
    exists ts. split; [done|]. intros w2 Hc Hlt. exists (tick w2).
    rewrite <- Hc in Hk, Hlt.
    by rewrite (fetch_hit P u w2 v ts Hk Hlt Ht).
Qed.

Lemma filter_Permutation {A} (p : A → bool) (l k : list A) :
  l ≡ₚ k → List.filter p l ≡ₚ List.filter p k.
Proof.
  induction 1 as [|x l k _ IH|x y l|l k m _ IH1 _ IH2]; simpl.
  - done.
  - destruct (p x); [by constructor|done].
  - destruct (p x), (p y); try done. apply perm_swap.
  - by rewrite IH1.
Qed.

Lemma filter_twice {A} (p q : A → bool) (l : list A) :
  List.filter q (List.filter p l) = List.filter (λ x, p x && q x) l.
Proof.
  induction l as [|x l IH]; simpl; [done|].
  destruct (p x); simpl; [|done]. destruct (q x); by rewrite IH.
Qed.

Section classification.
Context (P : platform).


(** A stream that passes no test of a bucket and is filtered or not does
    not change the size of the buckets. *)
Lemma list_set_cons_filter (p : string → bool) u l :
  p u = false →
  List.filter p (list_set P (u :: l)) ≡ₚ List.filter p (list_set P l).
Proof.
  intros Hu. apply NoDup_Permutation.
  - apply NoDup_filter, list_set_NoDup.
  - apply NoDup_filter, list_set_NoDup.
  - intros x. rewrite !elem_of_filter, !list_set_elem, elem_of_cons.
    split; [|tauto]. intros [[->|?] Hp]; [congruence|done].
Qed.

End classification.


Section claims.
Context (P : platform).
Context (scrape_home : Soup.node → exn + list (string * list item)).
Context (scrape_search : Soup.node → exn + list item).
Context (quote_plus : string → string).

Local Abbreviation reachable := (reachable P scrape_home scrape_search quote_plus).

(** C2, as amended. In every 200 answer of the stream endpoint, every URL
    of m3u8_links, video_links and iframes is absolute and each of the
    three lists is free of duplicates. m3u8_links and video_links are
    two independent selections from one duplicate-free list of filtered
    streams, by the test for .m3u8 and by the test for the video
    extensions: a URL of m3u8_links is also in video_links exactly when
    it passes the video test. (The three collections need not be
    disjoint.) *)
Theorem C2_stream_links_absolute_and_classified w url_path order body w' :
  reachable w →
  get_streaming_links P url_path order w = (inr (200, body), w') →
  ∃ r, body = BValue (VStream r)
    ∧ (∀ u, u ∈ m3u8_links r ∨ u ∈ video_links r ∨ u ∈ iframes r →
            Urllib.is_absolute u = true)
    ∧ NoDup (m3u8_links r) ∧ NoDup (video_links r) ∧ NoDup (iframes r)
    ∧ (∃ filtered_streams,
         NoDup filtered_streams
         ∧ (∀ u, u ∈ filtered_streams → any_ext non_stream_exts u = false)
         ∧ m3u8_links r = List.filter is_m3u8 filtered_streams
         ∧ video_links r = List.filter (any_ext video_exts) filtered_streams)
    ∧ (∀ u, u ∈ m3u8_links r →
            (u ∈ video_links r ↔ any_ext video_exts u = true)).
Proof.
  intros Hreach Hget.
  apply reachable_cache_ok in Hreach.
  destruct (stream_response_ok P _ _ _ _ _ Hreach Hget) as (r & -> & Hr).
  exists r. destruct Hr as [_ Habs Hn1 Hn2 Hn3 Hbuckets].
  repeat (split; [done|]).
  destruct Hbuckets as (filtered & _ & _ & Hm & Hv).
  intros u. rewrite Hm, Hv, !elem_of_filter. tauto.
Qed.

(** C6. In every 200 answer of the stream endpoint, total_streams is the
    sum of the lengths of m3u8_links, video_links and iframes; and a
    stream that passes the filter but the test of neither bucket adds
    nothing to it. *)
Theorem C6_total_streams_is_sum w url_path order body w' :
  reachable w →
  get_streaming_links P url_path order w = (inr (200, body), w') →
  (∃ r, body = BValue (VStream r)
     ∧ total_streams r
       = (length (m3u8_links r) + length (video_links r)
          + length (iframes r))%nat)
  ∧ (∀ path u html_streams js_streams found_iframes,
       any_ext non_stream_exts u = false →
       is_m3u8 u = false → any_ext video_exts u = false →
       total_streams
         (build_result P path (u :: html_streams) js_streams found_iframes)
       = total_streams
           (build_result P path html_streams js_streams found_iframes)).
Proof.
  intros Hreach Hget. split.
  - apply reachable_cache_ok in Hreach.
    destruct (stream_response_ok P _ _ _ _ _ Hreach Hget) as (r & -> & Hr).
    exists r. split; [done|]. apply Hr.
  - intros path u hs js ifr Hfilter Hm Hv. unfold build_result.
    cbn [total_streams]. rewrite !filter_twice.
    change ((u :: hs) ++ js)%list with (u :: hs ++ js)%list.
    f_equal. f_equal.
    + apply Permutation_length, list_set_cons_filter.
      unfold is_m3u8 in Hm. rewrite Hm. apply andb_false_r.
    + apply Permutation_length, list_set_cons_filter.
      rewrite Hv. apply andb_false_r.
Qed.

(** C9. In every 200 answer of the detail endpoint, total_episodes is the
    length of episodes. *)
Theorem C9_total_episodes_is_length w url_path order body w' :
  reachable w →
  get_anime_info P url_path order w = (inr (200, body), w') →
  ∃ a, body = BValue (VAnime a) ∧ total_episodes a = length (episodes a).
Proof.
  intros Hreach Hget. apply reachable_cache_ok in Hreach.
  by apply (anime_response_ok P _ _ _ _ _ Hreach Hget).
Qed.

(** C7. A detail request whose fetched page has no season button is
    answered 404 with an error, not with a record and not with 500. *)
Theorem C7_no_season_buttons_not_found url_path order w c w1 html_content w2 soup :
  cache_get ("anime_info_" ++ url_path) w = (inr c, w1) → hit c = None →
  fetch_with_cache P (add_base_url url_path) true w1
  = (inr (VText html_content), w2) →
  html_parser P html_content = Some soup →
  find_season_buttons soup = [] →
  get_anime_info P url_path order w
  = (inr (404, BError "No season buttons found"), w2).
Proof.
  intros Hget Hhit Hfetch Hparse Hnone.
  rewrite (get_anime_info_miss P _ _ _ _ _ Hget Hhit).
  apply try_except_inr.
  rewrite (anime_body_run P _ _ _ _ _ _ _ _ Hfetch Hparse).
  by rewrite Hnone.
Qed.

(** C3. A detail request whose page has season buttons, each with a post
    identifier and a season number, is answered 200 with the episodes of
    the seasons in the order of the buttons, for every order in which
    the season tasks complete; a season whose task fails adds none. *)
Theorem C3_seasons_merged_in_button_order
    url_path order w c w1 html_content w2 soup :
  cache_get ("anime_info_" ++ url_path) w = (inr c, w1) → hit c = None →
  fetch_with_cache P (add_base_url url_path) true w1
  = (inr (VText html_content), w2) →
  html_parser P html_content = Some soup →
  find_season_buttons soup ≠ [] →
  Forall (λ b, has_post_and_season b = true) (find_season_buttons soup) →
  is_schedule order (submit_seasons P (upstream w2) (find_season_buttons soup)) →
  ∃ a w',
    get_anime_info P url_path order w = (inr (200, BValue (VAnime a)), w')
    ∧ episodes a
      = omap process_item
          (flat_map (λ b, recover (season_task P (upstream w2) b))
             (find_season_buttons soup)).
Proof.
  intros Hget Hhit Hfetch Hparse Hsome Hvalid Hsched.
  rewrite (get_anime_info_miss P _ _ _ _ _ Hget Hhit).
  unfold try_except.
  rewrite (anime_body_run P _ _ _ _ _ _ _ _ Hfetch Hparse).
  rewrite (fetch_all_seasons_ordered P _ _ _ Hvalid Hsched).
  destruct (find_season_buttons soup) as [|b bs] eqn:Hbuttons; [done|].
  cbn zeta. eauto.
Qed.

(** C10, as amended. When a season button without data-post or
    data-season stands before one that has both, at least one button
    that has both has a position that is not below the number of such
    buttons, so that its result slot lies outside the results list, and
    the request is answered 500, for every order in which the season
    tasks complete. *)
Theorem C10_missing_attributes_fail_request
    url_path order w c w1 html_content w2 soup i j bi bj :
  cache_get ("anime_info_" ++ url_path) w = (inr c, w1) → hit c = None →
  fetch_with_cache P (add_base_url url_path) true w1
  = (inr (VText html_content), w2) →
  html_parser P html_content = Some soup →
  (i < j)%nat →
  find_season_buttons soup !! i = Some bi → has_post_and_season bi = false →
  find_season_buttons soup !! j = Some bj → has_post_and_season bj = true →
  is_schedule order (submit_seasons P (upstream w2) (find_season_buttons soup)) →
  Exists (λ done,
            (length (submit_seasons P (upstream w2) (find_season_buttons soup))
             ≤ fst done)%nat)
    (submit_seasons P (upstream w2) (find_season_buttons soup))
  ∧ get_anime_info P url_path order w
    = (inr (500, BError "list assignment index out of range"), w2).
Proof.
  intros Hget Hhit Hfetch Hparse Hij Hi Hbi Hj Hbj Hsched. split.
  - by eapply submit_seasons_out_of_range.
  - rewrite (get_anime_info_miss P _ _ _ _ _ Hget Hhit).
    unfold try_except.
    rewrite (anime_body_run P _ _ _ _ _ _ _ _ Hfetch Hparse).
    rewrite (fetch_all_seasons_out_of_range P _ _ _ _ _ _ _
               Hij Hi Hbi Hj Hbj Hsched).
    by destruct (find_season_buttons soup).
Qed.


End claims.

(** ** The claims at concrete inputs *)



(** C2 as stated fails: a URL that contains .m3u8 and .mp4 is returned in
    m3u8_links and in video_links. *)
Lemma C2_links_overlap :
  ∃ r w',
    get_streaming_links (Fixtures.platform_of []) "naruto-1x1" [] overlap_world
    = (inr (200, BValue (VStream r)), w')
    ∧ overlap_url ∈ m3u8_links r ∧ overlap_url ∈ video_links r.
Proof.
  eexists (mkStream "naruto-1x1" [overlap_url] [overlap_url] [] 2), _.
  split; [vm_compute; reflexivity|]. split; apply list_elem_of_singleton; done.
Qed.

Lemma C2_witness :
  ∃ r, fst (get_streaming_links (Fixtures.platform_of []) "naruto-1x1" []
              overlap_world)
       = inr (200, BValue (VStream r))
    ∧ Urllib.is_absolute overlap_url = true
    ∧ (overlap_url ∈ video_links r ↔ any_ext video_exts overlap_url = true).
Proof.
  destruct (C2_stream_links_absolute_and_classified (Fixtures.platform_of [])
              no_home no_search (λ q, q) overlap_world "naruto-1x1" []
              (BValue (VStream (mkStream "naruto-1x1" [overlap_url] [overlap_url] [] 2)))
              (snd (get_streaming_links (Fixtures.platform_of []) "naruto-1x1" []
                      overlap_world)))
    as (r & Hr & Habs & _ & _ & _ & _ & Hboth).
  - apply reach_start.
  - vm_compute. reflexivity.
  - injection Hr as <-. eexists. split; [vm_compute; reflexivity|].
    split.
    + apply Habs. left. by apply list_elem_of_singleton.
    + apply Hboth. by apply list_elem_of_singleton.
Defined.

(** C5 as stated fails for an empty body: the cache holds the unexpired
    body [""] for the url, and the cached fetch goes to the network and
    returns what the network answers. *)
Lemma C5_empty_body_is_refetched :
  let P := Fixtures.platform_of [] in
  let u := "https://animesalt.cc/series/naruto" in
  let w := mkWorld (CacheManager.set 0 (md5_key u) (VText "") (CacheManager.init 300))
             (λ _, 1) 0 (Fixtures.site_of [(u, "<html>new</html>")]) [] in
  CacheManager.cache (cache w) !! md5_key u = Some (VText "", 0)
  ∧ clock w (ticks w) - 0 < CacheManager.ttl (cache w)
  ∧ fst (fetch_with_cache P u true w) = inr (VText "<html>new</html>")
  ∧ session_log (snd (fetch_with_cache P u true w)) = [mkRequest u [] 10].
Proof.
  intros P u w. split; [|split; [|split]].
  - apply lookup_insert_eq.
  - simpl. lia.
  - vm_compute. reflexivity.
  - vm_compute. reflexivity.
Qed.

(** The amended C5 at a concrete world: a page fetched at tick 0 is
    served from the cache at tick 2 without a second request. *)
Lemma C5_witness :
  let P := Fixtures.platform_of [] in
  let u := "https://animesalt.cc/series/naruto" in
  let w := Fixtures.fresh_world (Fixtures.site_of [(u, "<html>page</html>")]) in
  let w1 := snd (fetch_with_cache P u true w) in
  ∃ w3, fetch_with_cache P u true w1 = (inr (VText "<html>page</html>"), w3)
        ∧ session_log w3 = session_log w1.
Proof.
  intros P u w w1.
  destruct (C5_cached_fetch_skips_network P u w) as [_ H].
  destruct (H (VText "<html>page</html>") w1) as (ts & Hk & Hnext).
  - vm_compute. reflexivity.
  - reflexivity.
  - apply (Hnext w1); [reflexivity|].
    assert (ts = 0) as ->.
    { assert (CacheManager.cache (cache w1) !! md5_key u
              = Some (VText "<html>page</html>", 0)) as Hk0
        by (vm_compute; reflexivity).
      rewrite Hk0 in Hk. by injection Hk. }
    vm_compute. reflexivity.
Defined.

Lemma C6_witness :
  ∃ r, fst (get_streaming_links (Fixtures.platform_of []) "naruto-1x1" []
              overlap_world)
       = inr (200, BValue (VStream r))
    ∧ total_streams r = 2%nat.
Proof.
  destruct (C6_total_streams_is_sum (Fixtures.platform_of [])
              no_home no_search (λ q, q) overlap_world "naruto-1x1" []
              (BValue (VStream (mkStream "naruto-1x1" [overlap_url] [overlap_url] [] 2)))
              (snd (get_streaming_links (Fixtures.platform_of []) "naruto-1x1" []
                      overlap_world)))
    as [(r & Hr & Htotal) _].
  - apply reach_start.
  - vm_compute. reflexivity.
  - injection Hr as <-. eexists. split; [vm_compute; reflexivity|].
    exact Htotal.
Defined.

(** C3 with the second season completing first. *)
Lemma C3_witness :
  ∃ a w',
    get_anime_info (naruto_platform two_seasons) "series/naruto" [1; 0]%nat
      (Fixtures.fresh_world naruto_site)
    = (inr (200, BValue (VAnime a)), w')
    ∧ map episode_number (episodes a) = ["1x1"; "1x2"; "2x1"].
Proof.
  set (P := naruto_platform two_seasons). set (w := Fixtures.fresh_world naruto_site).
  destruct (C3_seasons_merged_in_button_order P "series/naruto" [1; 0]%nat
              w None w "detail"
              (snd (fetch_with_cache P "https://animesalt.cc/series/naruto" true w))
              (detail_page two_seasons))
    as (a & w' & Hrun & Heps).
  - by apply cache_get_absent.
  - reflexivity.
  - vm_compute. reflexivity.
  - reflexivity.
  - vm_compute. discriminate.
  - repeat constructor.
  - unfold is_schedule.
    assert (length (submit_seasons P
                      (upstream (snd (fetch_with_cache P
                                        "https://animesalt.cc/series/naruto" true w)))
                      (find_season_buttons (detail_page two_seasons))) = 2%nat)
      as -> by (vm_compute; reflexivity).
    apply perm_swap.
  - exists a, w'. split; [exact Hrun|]. rewrite Heps. vm_compute. reflexivity.
Defined.


Lemma C7_witness :
  fst (get_anime_info (naruto_platform []) "series/naruto" []
         (Fixtures.fresh_world naruto_site))
  = inr (404, BError "No season buttons found").
Proof.
  set (P := naruto_platform []). set (w := Fixtures.fresh_world naruto_site).
  rewrite (C7_no_season_buttons_not_found P "series/naruto" [] w None w "detail"
             (snd (fetch_with_cache P "https://animesalt.cc/series/naruto" true w))
             (detail_page [])).
  - reflexivity.
  - by apply cache_get_absent.
  - reflexivity.
  - vm_compute. reflexivity.
  - reflexivity.
  - reflexivity.
Defined.

Lemma C9_witness :
  ∃ a, fst (get_anime_info (naruto_platform two_seasons) "series/naruto" [0; 1]%nat
              (Fixtures.fresh_world naruto_site))
       = inr (200, BValue (VAnime a))
    ∧ total_episodes a = 3%nat ∧ length (episodes a) = 3%nat.
Proof.
  set (P := naruto_platform two_seasons). set (w := Fixtures.fresh_world naruto_site).
  destruct (get_anime_info P "series/naruto" [0; 1]%nat w) as [r w'] eqn:Hrun.
  assert (∃ a, r = inr (200, BValue (VAnime a)) ∧ length (episodes a) = 3%nat)
    as (a & -> & Hlen).
  { assert (r = fst (get_anime_info P "series/naruto" [0; 1]%nat w)) as ->
      by (by rewrite Hrun).
    eexists. split; [vm_compute; reflexivity|]. reflexivity. }
  destruct (C9_total_episodes_is_length P no_home no_search (λ q, q)
              w "series/naruto" [0; 1]%nat (BValue (VAnime a)) w')
    as (a' & Ha' & Htotal).
  - apply reach_start.
  - exact Hrun.
  - injection Ha' as <-. exists a. split; [done|]. split; [|done].
    by rewrite Htotal.
Defined.

(** C10 as stated fails: the button at position 2 has both attributes and
    follows a button without them, and its slot 2 is inside the results
    list, which has three slots. *)
Lemma C10_later_slot_inside :
  find_season_buttons (detail_page gap_buttons) !! 1%nat = Some bare_button
  ∧ has_post_and_season bare_button = false
  ∧ find_season_buttons (detail_page gap_buttons) !! 2%nat
    = Some (season_button "77" "2")
  ∧ has_post_and_season (season_button "77" "2") = true
  ∧ (2 < length (submit_seasons (naruto_platform gap_buttons) naruto_site
                   (find_season_buttons (detail_page gap_buttons))))%nat.
Proof.
  repeat split; try reflexivity. vm_compute. lia.
Qed.

(** C10, as amended, with a bare button before a valid one. *)
Lemma C10_witness :
  get_anime_info (naruto_platform [bare_button; season_button "77" "2"])
    "series/naruto" [0]%nat (Fixtures.fresh_world naruto_site)
  = (inr (500, BError "list assignment index out of range"),
     snd (fetch_with_cache (naruto_platform [bare_button; season_button "77" "2"])
            "https://animesalt.cc/series/naruto" true (Fixtures.fresh_world naruto_site))).
Proof.
  set (buttons := [bare_button; season_button "77" "2"]).
  set (P := naruto_platform buttons). set (w := Fixtures.fresh_world naruto_site).
  destruct (C10_missing_attributes_fail_request P "series/naruto" [0]%nat
              w None w "detail"
              (snd (fetch_with_cache P "https://animesalt.cc/series/naruto" true w))
              (detail_page buttons) 0%nat 1%nat bare_button (season_button "77" "2"))
    as [_ Hrun].
  - by apply cache_get_absent.
  - reflexivity.
  - vm_compute. reflexivity.
  - reflexivity.
  - lia.
  - reflexivity.
  - reflexivity.
  - reflexivity.
  - reflexivity.
  - unfold is_schedule.
    assert (length (submit_seasons P
                      (upstream (snd (fetch_with_cache P
                                        "https://animesalt.cc/series/naruto" true w)))
                      (find_season_buttons (detail_page buttons))) = 1%nat)
      as -> by (vm_compute; reflexivity).
    reflexivity.
  - exact Hrun.
Defined.

(** * Further properties *)

(** ** The cache over time *)









(** ** Relative and absolute urls *)

Lemma replace_go_skip old new r : ∀ s,
  Py.replace_go old new (String.length r) (r ++ s) = Py.replace_go old new 0 s.
Proof.
  induction r as [|c r IH]; intros s; simpl.
  - by destruct s.
  - apply IH.
Qed.

(** An occurrence at the front is replaced, and the rest is treated alike. *)
Lemma replace_prefix old new s :
  old ≠ "" → Py.replace old new (old ++ s) = new ++ Py.replace old new s.
Proof.
  intros Hold. unfold Py.replace. destruct old as [|c r]; [done|].
  change (String c r ++ s) with (String c (r ++ s)).
  cbn [Py.replace_go].
  change (String c (r ++ s)) with (String c r ++ s). rewrite prefix_append.
  replace (String.length (String c r) - 1)%nat with (String.length r)
    by (cbn [String.length]; lia).
  f_equal. apply replace_go_skip.
Qed.

(** A string without an occurrence is left as it is. *)
Lemma replace_absent old new s :
  Py.contains old s = false → Py.replace old new s = s.
Proof.
  unfold Py.replace. induction s as [|c s IH]; [done|].
  cbn [Py.contains Py.replace_go]. intros [Hp Hc]%orb_false_iff.
  rewrite Hp. f_equal. by apply IH.
Qed.

Lemma remove_base_url_prefix s :
  Py.contains BASE_URL s = false → remove_base_url (BASE_URL ++ s) = s.
Proof.
  intros Hs. unfold remove_base_url, Py.startswith. rewrite prefix_append.
  rewrite replace_prefix by done. by rewrite replace_absent.
Qed.

(** X3. add_base_url is idempotent. For a path that does not start with
    http and does not contain the base url, remove_base_url undoes
    add_base_url up to the leading slash, which the round trip adds when
    it is missing; and add_base_url undoes remove_base_url on the url of
    a page of the site. *)
Theorem X3_base_url_round_trip (u : string) :
  add_base_url (add_base_url u) = add_base_url u
  ∧ (Py.startswith u "http" = false → Py.contains BASE_URL u = false →
     remove_base_url (add_base_url u)
     = if Py.startswith u "/" then u else "/" ++ u)
  ∧ (Py.contains BASE_URL u = false →
     add_base_url (remove_base_url (BASE_URL ++ "/" ++ u)) = BASE_URL ++ "/" ++ u).
Proof.
  split; [|split].
  - assert (∃ t, add_base_url u = "http" ++ t) as [t ->].
    { unfold add_base_url. destruct (Py.startswith u "http") eqn:Hh; simpl.
      - apply prefix_inv in Hh as [t ->]. by exists t.
      - destruct (Py.startswith u "/"); eexists; reflexivity. }
    unfold add_base_url, Py.startswith. by rewrite (prefix_append "http" t).
  - intros Hh Hc. unfold add_base_url. rewrite Hh. simpl.
    destruct (Py.startswith u "/") eqn:Hs.
    + by apply remove_base_url_prefix.
    + change (BASE_URL ++ "/" ++ u) with (BASE_URL ++ String "/" u).
      apply remove_base_url_prefix. cbn [Py.contains]. by rewrite Hc.
  - intros Hc.
    change (BASE_URL ++ "/" ++ u) with (BASE_URL ++ String "/" u).
    rewrite remove_base_url_prefix; [|cbn [Py.contains]; by rewrite Hc].
    unfold add_base_url, Py.startswith.
    change (String "/" u) with ("/" ++ u). by rewrite (prefix_append "/" u).
Qed.

Lemma X3_witness :
  remove_base_url (add_base_url "series/naruto") = "/series/naruto"
  ∧ add_base_url (remove_base_url "https://animesalt.cc/series/naruto")
    = "https://animesalt.cc/series/naruto".
Proof.
  destruct (X3_base_url_round_trip "series/naruto") as (_ & H1 & H2).
  split; [apply H1|apply H2]; vm_compute; reflexivity.
Defined.

(** ** The fetcher, in full *)

Lemma no_new_entry_refl c : no_new_entry c c.
Proof. by intros k x. Qed.

Lemma cache_get_no_new_entry key w c w1 :
  cache_get key w = (inr c, w1) → no_new_entry (cache w) (cache w1).
Proof.
  destruct (CacheManager.cache (cache w) !! key) as [[v0 ts]|] eqn:Hk.
  - rewrite (cache_get_present _ _ _ _ Hk). intros [= _ <-] k x. simpl.
    apply CacheFacts.get_lookup_Some.
  - rewrite (cache_get_absent _ _ Hk). by intros [= _ <-] k x.
Qed.

Lemma cache_get_other key w c w1 k :
  cache_get key w = (inr c, w1) → key ≠ k →
  CacheManager.cache (cache w1) !! k = CacheManager.cache (cache w) !! k.
Proof.
  destruct (CacheManager.cache (cache w) !! key) as [[v0 ts]|] eqn:Hk.
  - rewrite (cache_get_present _ _ _ _ Hk). intros [= _ <-] Hne. simpl.
    by apply CacheFacts.get_other.
  - rewrite (cache_get_absent _ _ Hk). by intros [= _ <-].
Qed.

Lemma hit_Some c v : hit c = Some v → c = Some v ∧ truthy v = true.
Proof.
  destruct c as [v0|]; [|done]. simpl. destruct (truthy v0) eqn:Ht; [|done].
  by intros [= <-].
Qed.

(** A read that gives nothing usable, with what it leaves under the key:
    nothing, or the falsy entry that was there. *)
Lemma cache_get_falsy key w c w1 :
  cache_get key w = (inr c, w1) → hit c = None →
  CacheManager.cache (cache w1) !! key = None
  ∨ ∃ v ts, CacheManager.cache (cache w1) !! key = Some (v, ts)
            ∧ CacheManager.cache (cache w) !! key = Some (v, ts)
            ∧ truthy v = false.
Proof.
  destruct (CacheManager.cache (cache w) !! key) as [[v0 ts]|] eqn:Hk.
  - rewrite (cache_get_present _ _ _ _ Hk). intros [= <- <-]. simpl.
    unfold CacheManager.get. rewrite Hk.
    destruct (_ <? _); simpl.
    + destruct (truthy v0) eqn:Ht; [done|]. intros _. right. eauto.
    + intros _. left. apply lookup_delete_eq.
  - rewrite (cache_get_absent _ _ Hk). intros [= <- <-] _. by left.
Qed.

Section fetcher_in_full.
Context (P : platform).

(** Everything a network fetch does. *)
Lemma fetch_from_network_run u use_cache key w r w' :
  fetch_from_network P u use_cache key w = (r, w') →
  session_log w' = mkRequest u [] 10 :: session_log w
  ∧ upstream w' = upstream w ∧ clock w' = clock w
  ∧ match r with
    | inl e =>
        cache w' = cache w ∧ ticks w' = ticks w
        ∧ is_request_exception e = false
        ∧ (∀ e0, upstream w (mkRequest u [] 10) = inl e0 → e = wrapped e0)
        ∧ (∀ resp, upstream w (mkRequest u [] 10) = inr resp →
             400 ≤ status_code resp < 600 →
             ∃ m, e = Exception ("Error fetching URL: " ++ m))
    | inr v =>
        (∃ resp html, upstream w (mkRequest u [] 10) = inr resp
           ∧ ¬ (400 ≤ status_code resp < 600) ∧ v = VText html)
        ∧ if use_cache
          then cache w' = CacheManager.set (clock w (ticks w)) key v (cache w)
               ∧ ticks w' = S (ticks w)
          else cache w' = cache w ∧ ticks w' = ticks w
    end.
Proof.
  unfold fetch_from_network, try_except, bind, session_get, lift.
  destruct (upstream w _) as [e0|resp] eqn:Hup; simpl.
  { destruct e0; intros [= <- <-]; simpl; do 6 (split; [done|]);
      (split; [by intros ? [= <-]|by intros ? [=]]). }
  unfold raise_for_status.
  destruct ((400 <=? status_code resp) && (status_code resp <? 600)) eqn:Hst; simpl.
  { intros [= <- <-]; simpl. do 6 (split; [done|]). split; [by intros ? [=]|].
    intros ? _ _. eauto. }
  assert (¬ (400 ≤ status_code resp < 600)) as Hok.
  { intros [H1%Z.leb_le H2%Z.ltb_lt]. by rewrite H1, H2 in Hst. }
  destruct (content_encoding resp) as [enc|];
    [destruct (String.eqb enc "gzip");
     [destruct (gzip_decompress P (content resp))|]|]; simpl.
  all: destruct use_cache; simpl; intros [= <- <-]; simpl.
  all: do 3 (split; [done|]).
  all: try by (split; [eauto 10|done]).
  all: do 3 (split; [done|]).
  all: split; [by intros ? [=]|].
  all: by intros resp' [= <-] Hbad.
Qed.

(** A cached fetch either answers from the store or goes to the network
    after a read that gave nothing usable. *)
Lemma fetch_with_cache_cases u w r w' :
  fetch_with_cache P u true w = (r, w') →
  (∃ v ts, r = inr v ∧ w' = tick w ∧ truthy v = true
           ∧ CacheManager.cache (cache w) !! md5_key u = Some (v, ts)
           ∧ clock w (ticks w) - ts < CacheManager.ttl (cache w))
  ∨ (∃ c w1, cache_get (md5_key u) w = (inr c, w1) ∧ hit c = None
             ∧ fetch_from_network P u true (md5_key u) w1 = (r, w')).
Proof.
  unfold fetch_with_cache, bind.
  destruct (cache_get_total w (md5_key u)) as (c & w1 & Hget). rewrite Hget.
  destruct c as [v|].
  - destruct (truthy v) eqn:Ht.
    + intros [= <- <-]. left.
      apply cache_get_Some in Hget as (-> & ts & Hk & Hlt). eauto 10.
    + intros Hf. right. exists (Some v), w1. simpl. by rewrite Ht.
  - intros Hf. right. by exists None, w1.
Qed.

Lemma fetch_uncached_eq u w :
  fetch_with_cache P u false w = fetch_from_network P u false (md5_key u) w.
Proof. reflexivity. Qed.

(** A fetch changes no entry but the one of its url. *)
Lemma fetch_with_cache_other u use_cache w r w' k :
  fetch_with_cache P u use_cache w = (r, w') → md5_key u ≠ k →
  CacheManager.cache (cache w') !! k = CacheManager.cache (cache w) !! k.
Proof.
  intros H Hne. destruct use_cache.
  - apply fetch_with_cache_cases in H
      as [(v & ts & -> & -> & _)|(c & w1 & Hget & _ & Hnet)]; [done|].
    rewrite <- (cache_get_other _ _ _ _ k Hget Hne).
    apply fetch_from_network_run in Hnet as (_ & _ & _ & Hr).
    destruct r as [e|v].
    + by destruct Hr as (-> & _).
    + destruct Hr as (_ & -> & _). simpl. by apply lookup_insert_ne.
  - rewrite fetch_uncached_eq in H.
    apply fetch_from_network_run in H as (_ & _ & _ & Hr).
    destruct r as [e|v]; [by destruct Hr as (-> & _)|by destruct Hr as (_ & -> & _)].
Qed.

(** X4. A fetch with use_cache false neither reads nor writes the cache:
    it leaves the store as it was, does not read the clock, sends one
    request for the url with the timeout of 10 seconds on the shared
    session, and returns the same whatever the store holds. *)
Theorem X4_uncached_fetch_bypasses_cache (u : string) (w : world) :
  let out := fetch_with_cache P u false w in
  cache (snd out) = cache w
  ∧ ticks (snd out) = ticks w
  ∧ session_log (snd out) = mkRequest u [] 10 :: session_log w
  ∧ ∀ c, fst (fetch_with_cache P u false (with_cache c w)) = fst out.
Proof.
  intros out. unfold out. rewrite fetch_uncached_eq.
  destruct (fetch_from_network P u false (md5_key u) w) as [r w'] eqn:H.
  pose proof H as Hrun.
  apply fetch_from_network_run in Hrun as (Hl & _ & _ & Hr). simpl.
  assert (cache w' = cache w ∧ ticks w' = ticks w) as [Hc Ht].
  { destruct r; [by destruct Hr as (? & ? & _)|by destruct Hr as (_ & ? & ?)]. }
  repeat (split; [done|]). intros c. rewrite fetch_uncached_eq.
  revert H. clear.
  unfold fetch_from_network, try_except, bind, session_get, lift. simpl.
  destruct (upstream w _) as [[]|resp]; simpl; try by intros [= <- _].
  destruct (raise_for_status resp) as [[]|[]]; simpl; try by intros [= <- _].
  destruct (content_encoding resp) as [enc|];
    [destruct (String.eqb enc "gzip");
     [destruct (gzip_decompress P (content resp))|]|]; by intros [= <- _].
Qed.

(** X5. A fetch that raises stores nothing: the store gains no entry.
    One request was sent on the shared session; the exception is never
    a RequestException, since one raised by the request is raised again
    as an Exception whose message starts with Error fetching URL, as is
    the HTTPError of an answer with a status from 400 to 599. *)
Theorem X5_failed_fetch_is_not_stored (u : string) (use_cache : bool)
    (w : world) (e : exn) (w' : world) :
  fetch_with_cache P u use_cache w = (inl e, w') →
  no_new_entry (cache w) (cache w')
  ∧ session_log w' = mkRequest u [] 10 :: session_log w
  ∧ is_request_exception e = false
  ∧ (∀ e0, upstream w (mkRequest u [] 10) = inl e0 → e = wrapped e0)
  ∧ (∀ resp, upstream w (mkRequest u [] 10) = inr resp →
       400 ≤ status_code resp < 600 →
       ∃ m, e = Exception ("Error fetching URL: " ++ m)).
Proof.
  intros H. destruct use_cache.
  - apply fetch_with_cache_cases in H
      as [(v & ts & [=] & _)|(c & w1 & Hget & _ & Hnet)].
    apply fetch_from_network_run in Hnet as (Hl & _ & _ & Hc & _ & He & Hw & Hs).
    pose proof (cache_get_frame _ _ _ _ Hget) as (Hl1 & Hu1 & _).
    rewrite Hu1 in Hw, Hs. rewrite Hl1 in Hl. rewrite Hc.
    split; [by eapply cache_get_no_new_entry|]. done.
  - rewrite fetch_uncached_eq in H.
    apply fetch_from_network_run in H as (Hl & _ & _ & Hc & _ & He & Hw & Hs).
    rewrite Hc. split; [apply no_new_entry_refl|]. done.
Qed.

End fetcher_in_full.

(** X5 at a site that cannot be reached. *)
Lemma X5_witness :
  let P := Fixtures.platform_of [] in
  let w := Fixtures.fresh_world down_site in
  fst (fetch_with_cache P BASE_URL true w)
  = inl (Exception "Error fetching URL: ConnectionError")
  ∧ no_new_entry (cache w) (cache (snd (fetch_with_cache P BASE_URL true w))).
Proof.
  intros P w.
  destruct (X5_failed_fetch_is_not_stored P BASE_URL true w
              (Exception "Error fetching URL: ConnectionError")
              (snd (fetch_with_cache P BASE_URL true w)))
    as (Hnew & _).
  - vm_compute. reflexivity.
  - split; [vm_compute; reflexivity|exact Hnew].
Defined.

(** ** How the handlers run *)

Section cache_aside_facts.
Context (key : string) (fresh : M response).

Lemma cache_aside_replay w v ts :
  CacheManager.cache (cache w) !! key = Some (v, ts) →
  clock w (ticks w) - ts < CacheManager.ttl (cache w) →
  truthy v = true →
  cache_aside key fresh w = (inr (200, BValue v), tick w).
Proof.
  intros Hk Hlt Ht. unfold cache_aside.
  rewrite (bind_step _ _ _ _ _ (cache_get_hit _ _ _ _ Hk Hlt)).
  simpl. by rewrite Ht.
Qed.

Lemma cache_aside_cases w r w' :
  cache_aside key fresh w = (r, w') →
  (∃ v ts, r = inr (200, BValue v) ∧ w' = tick w ∧ truthy v = true
           ∧ CacheManager.cache (cache w) !! key = Some (v, ts)
           ∧ clock w (ticks w) - ts < CacheManager.ttl (cache w))
  ∨ (∃ c w1, cache_get key w = (inr c, w1) ∧ hit c = None ∧ fresh w1 = (r, w')).
Proof.
  unfold cache_aside, bind.
  destruct (cache_get_total w key) as (c & w1 & Hget). rewrite Hget.
  destruct (hit c) as [v|] eqn:Hhit.
  - intros [= <- <-]. left. apply hit_Some in Hhit as [-> Ht].
    apply cache_get_Some in Hget as (-> & ts & Hk & Hlt). eauto 10.
  - intros Hf. right. eauto.
Qed.

End cache_aside_facts.

(** [except Exception as e: return jsonify(error=str(e)), 500] *)
Lemma handled_cases (m : M response) w r w' :
  try_except m (λ e, ret (500, BError (str e))) w = (r, w') →
  (∃ e, m w = (inl e, w') ∧ r = inr (500, BError (str e)))
  ∨ (∃ x, m w = (inr x, w') ∧ r = inr x).
Proof.
  unfold try_except. destruct (m w) as [[e|x] w1].
  - intros [= <- <-]. left. eauto.
  - intros [= <- <-]. right. eauto.
Qed.

Lemma add_base_url_final_path url_path :
  add_base_url (final_path url_path) = BASE_URL ++ "/" ++ final_path url_path.
Proof.
  unfold final_path.
  destruct (Py.startswith url_path "movies/") eqn:Hm; simpl.
  - apply prefix_inv in Hm as [t ->]. reflexivity.
  - destruct (Py.startswith url_path "episode/") eqn:He.
    + apply prefix_inv in He as [t ->]. reflexivity.
    + reflexivity.
Qed.

Section runs.
Context (P : platform).

(** Everything the [try] block of get_streaming_links does to the world. *)
Lemma stream_body_run url_path source_url cache_key order w r w' :
  stream_body P url_path source_url cache_key order w = (r, w') →
  session_log w' = mkRequest source_url [] 10 :: session_log w
  ∧ match r with
    | inl _ => cache w' = cache w
    | inr (st, b) =>
        st = 200
        ∧ ∃ res, b = BValue (VStream res)
            ∧ cache w'
              = CacheManager.set (clock w (ticks w)) cache_key (VStream res) (cache w)
    end.
Proof.
  unfold stream_body, bind.
  destruct (fetch_with_cache P source_url false w) as [[e|page] w1] eqn:Hf.
  all: rewrite fetch_uncached_eq in Hf.
  all: apply fetch_from_network_run in Hf as (Hl & Hu & Hclk & Hr).
  - destruct Hr as (Hc & _). by intros [= <- <-].
  - destruct Hr as (_ & Hc & Ht).
    unfold lift. destruct (as_text page) as [e|html_content].
    { by intros [= <- <-]. }
    destruct (find_urls_in_text P html_content source_url) as [e|html_streams].
    { by intros [= <- <-]. }
    destruct (find_js_file_urls P html_content source_url) as [e|js_file_urls].
    { by intros [= <- <-]. }
    destruct (join_all P source_url _) as [e|joined].
    { by intros [= <- <-]. }
    unfold ret. intros [= <- <-]. simpl.
    split; [done|]. split; [done|]. eexists. split; [done|].
    by rewrite Hc, Ht, Hclk.
Qed.

Lemma stream_fresh_run url_path cache_key order w r w' :
  stream_fresh P url_path cache_key order w = (r, w') →
  session_log w'
  = mkRequest (BASE_URL ++ "/" ++ final_path url_path) [] 10 :: session_log w
  ∧ ((∃ m, r = inr (500, BError m) ∧ cache w' = cache w)
     ∨ (∃ res, r = inr (200, BValue (VStream res))
          ∧ cache w'
            = CacheManager.set (clock w (ticks w)) cache_key (VStream res) (cache w))).
Proof.
  intros H. unfold stream_fresh, try_except in H.
  fold (final_path url_path) in H. rewrite add_base_url_final_path in H.
  destruct (stream_body P url_path _ cache_key order w)
    as [[e|[st b]] w2] eqn:Hbody;
    apply stream_body_run in Hbody as [Hl Hr].
  - injection H as <- <-. split; [done|]. left. eauto.
  - injection H as <- <-. destruct Hr as (-> & res & -> & Hc).
    split; [done|]. right. eauto.
Qed.

Lemma get_streaming_links_aside url_path order :
  get_streaming_links P url_path order
  = cache_aside ("stream_" ++ url_path)
      (stream_fresh P url_path ("stream_" ++ url_path) order).
Proof. reflexivity. Qed.

(** The page request of a stream request. *)
Lemma stream_page_request url_path order w c w1 :
  cache_get ("stream_" ++ url_path) w = (inr c, w1) →
  session_log (snd (get_streaming_links P url_path order w))
  = match hit c with
    | Some _ => session_log w
    | None =>
        mkRequest ("https://animesalt.cc/" ++ final_path url_path) [] 10
        :: session_log w
    end.
Proof.
  intros Hget. unfold get_streaming_links.
  rewrite (bind_step _ _ _ _ _ Hget).
  apply cache_get_frame in Hget as (Hl & _).
  destruct (hit c); [done|].
  destruct (stream_fresh _ _ _ _ _) as [r w'] eqn:Hf.
  apply stream_fresh_run in Hf as [Hl' _]. simpl. by rewrite Hl', Hl.
Qed.

Lemma get_anime_info_aside url_path order :
  get_anime_info P url_path order
  = cache_aside ("anime_info_" ++ url_path)
      (try_except
         (anime_body P url_path (add_base_url url_path)
            ("anime_info_" ++ url_path) order)
         (λ e, ret (500, BError (str e)))).
Proof. reflexivity. Qed.

(** Everything the [try] block of get_anime_info does to the world. *)
Lemma anime_body_cases url_path full_url cache_key order w r w' :
  anime_body P url_path full_url cache_key order w = (r, w') →
  ∃ rf w1,
    fetch_with_cache P full_url true w = (rf, w1)
    ∧ session_log w' = session_log w1
    ∧ match r with
      | inl e => cache w' = cache w1
      | inr (st, b) =>
          (st = 404 ∧ b = BError "No season buttons found" ∧ w' = w1
           ∧ ∃ html, rf = inr (VText html))
          ∨ (st = 200
             ∧ ∃ a, b = BValue (VAnime a)
                 ∧ cache w'
                   = CacheManager.set (clock w1 (ticks w1)) cache_key (VAnime a)
                       (cache w1))
      end.
Proof.
  unfold anime_body, bind.
  destruct (fetch_with_cache P full_url true w) as [[e|page] w1] eqn:Hf.
  { intros [= <- <-]. by exists (inl e), w1. }
  intros H. exists (inr page), w1. split; [done|]. revert H.
  unfold lift. destruct page as [html| | | |]; simpl; try by intros [= <- <-].
  destruct (parse_html P html) as [e|soup]; [by intros [= <- <-]|].
  destruct (find_season_buttons soup) as [|b0 bs].
  { unfold ret. intros [= <- <-]. split; [done|]. left. eauto 10. }
  destruct (fetch_all_seasons P (upstream w1) (b0 :: bs) order) as [e|items].
  { by intros [= <- <-]. }
  unfold ret. intros [= <- <-]. simpl. split; [done|]. right. eauto.
Qed.

(** The page request of a detail request on a cold cache. *)
Lemma detail_cold_request url_path order w :
  CacheManager.cache (cache w) !! ("anime_info_" ++ url_path) = None →
  CacheManager.cache (cache w) !! md5_key (add_base_url url_path) = None →
  session_log (snd (get_anime_info P url_path order w))
  = mkRequest (add_base_url url_path) [] 10 :: session_log w.
Proof.
  intros Ha Hp. unfold get_anime_info.
  rewrite (bind_step _ _ _ _ _ (cache_get_absent _ _ Ha)). simpl.
  destruct (try_except _ _ w) as [r w'] eqn:H. simpl.
  assert (∃ r0 w0, anime_body P url_path (add_base_url url_path)
                     ("anime_info_" ++ url_path) order w = (r0, w0)
                   ∧ session_log w' = session_log w0) as (r0 & w0 & Hbody & ->).
  { apply handled_cases in H as [(e & Hbody & _)|(x & Hbody & _)]; eauto. }
  apply anime_body_cases in Hbody as (rf & w1 & Hfetch & -> & _).
  apply fetch_with_cache_cases in Hfetch
    as [(v & ts & _ & _ & _ & Hk & _)|(c & w2 & Hget & _ & Hnet)]; [congruence|].
  rewrite (cache_get_absent _ _ Hp) in Hget. injection Hget as _ <-.
  by apply fetch_from_network_run in Hnet as (-> & _).
Qed.

Context (scrape_home : Soup.node → exn + list (string * list item)).
Context (scrape_search : Soup.node → exn + list item).
Context (quote_plus : string → string).

Lemma get_homepage_data_aside :
  get_homepage_data P scrape_home
  = cache_aside "homepage_data"
      (try_except
         (let! page := fetch_with_cache P BASE_URL true in
          let! html_content := lift (as_text page) in
          let! soup := lift (parse_html P html_content) in
          let! all_anime_data := lift (scrape_home soup) in
          let! _ := cache_set "homepage_data" (VHome all_anime_data) in
          ret (200, BValue (VHome all_anime_data)))
         (λ e, ret (500, BError (str e)))).
Proof. reflexivity. Qed.

Lemma search_anime_aside search_query :
  Py.truthy_str search_query = true →
  search_anime P scrape_search quote_plus (Some search_query)
  = cache_aside ("search_" ++ search_query)
      (try_except
         (let! page := fetch_with_cache P
                         (BASE_URL ++ "?s=" ++ quote_plus search_query) true in
          let! html_content := lift (as_text page) in
          let! soup := lift (parse_html P html_content) in
          let! scraped_data := lift (scrape_search soup) in
          let result := VSearch scraped_data (length scraped_data) in
          let! _ := cache_set ("search_" ++ search_query) result in
          ret (200, BValue result))
         (λ e, ret (500, BError (str e)))).
Proof. intros Hq. unfold search_anime. by rewrite Hq. Qed.

End runs.

(** ** The families of keys *)

Lemma md5_key_head u :
  ∃ c1 c2 rest, md5_key u = String c1 (String c2 rest)
    ∧ Md5.is_hexdigit c1 = true ∧ Md5.is_hexdigit c2 = true.
Proof. apply hexdigest_head. Qed.

Lemma md5_key_not_home u : md5_key u ≠ "homepage_data".
Proof.
  destruct (md5_key_head u) as (c1 & c2 & rest & -> & H1 & _).
  intros [= -> _]. done.
Qed.

Lemma md5_key_not_search u q : md5_key u ≠ "search_" ++ q.
Proof.
  destruct (md5_key_head u) as (c1 & c2 & rest & -> & H1 & _).
  intros [= -> _]. done.
Qed.

Lemma md5_key_not_anime u url_path : md5_key u ≠ "anime_info_" ++ url_path.
Proof.
  destruct (md5_key_head u) as (c1 & c2 & rest & -> & _ & H2).
  intros [= _ ->]. done.
Qed.

Lemma md5_key_not_stream u url_path : md5_key u ≠ "stream_" ++ url_path.
Proof.
  destruct (md5_key_head u) as (c1 & c2 & rest & -> & H1 & _).
  intros [= -> _]. done.
Qed.

(** X6. The five families of cache keys are pairwise disjoint: the
    fingerprint of a url is never the key of the home page, of a search,
    of a detail record or of a stream result, whatever the url, the
    query and the paths are, and no key of one endpoint is a key of
    another. *)
Theorem X6_key_families_are_disjoint (u q url_path url_path' : string) :
  md5_key u ≠ "homepage_data"
  ∧ md5_key u ≠ "search_" ++ q
  ∧ md5_key u ≠ "anime_info_" ++ url_path
  ∧ md5_key u ≠ "stream_" ++ url_path
  ∧ "homepage_data" ≠ "search_" ++ q
  ∧ "homepage_data" ≠ "anime_info_" ++ url_path
  ∧ "homepage_data" ≠ "stream_" ++ url_path
  ∧ "search_" ++ q ≠ "anime_info_" ++ url_path
  ∧ "search_" ++ q ≠ "stream_" ++ url_path
  ∧ "anime_info_" ++ url_path ≠ "stream_" ++ url_path'.
Proof.
  split; [apply md5_key_not_home|].
  split; [apply md5_key_not_search|].
  split; [apply md5_key_not_anime|].
  split; [apply md5_key_not_stream|].
  repeat split; done.
Qed.

(** ** What each family of keys holds *)

Section keeping.
Context (Inv : string → value → Prop).

Lemma holds_init ttl : holds Inv (CacheManager.init ttl).
Proof. intros key v ts. simpl. by rewrite lookup_empty. Qed.

Lemma keeps_ret {A} (x : A) : keeps Inv (ret x).
Proof. by intros w r w' Hc [= _ <-]. Qed.

Lemma keeps_raise {A} e : keeps Inv (@raise A e).
Proof. by intros w r w' Hc [= _ <-]. Qed.

Lemma keeps_lift {A} (x : exn + A) : keeps Inv (lift x).
Proof. by intros w r w' Hc [= _ <-]. Qed.

Lemma keeps_bind {A B} (m : M A) (f : A → M B) :
  keeps Inv m → (∀ x, keeps Inv (f x)) → keeps Inv (bind m f).
Proof.
  intros Hm Hf w r w' Hc. unfold bind.
  destruct (m w) as [[e|x] w1] eqn:Hmw.
  - intros [= _ <-]. by eapply Hm.
  - intros Hfx. eapply Hf; [|done]. by eapply Hm.
Qed.

Lemma keeps_bind_lift {A B} (x : exn + A) (f : A → M B) :
  (∀ y, x = inr y → keeps Inv (f y)) → keeps Inv (bind (lift x) f).
Proof.
  intros Hf. destruct x as [e|y].
  - by intros w r w' Hc [= _ <-].
  - unfold bind, lift. intros w r w' Hc Hfy. by eapply (Hf y).
Qed.

Lemma keeps_try_except {A} (m : M A) (h : exn → M A) :
  keeps Inv m → (∀ e, keeps Inv (h e)) → keeps Inv (try_except m h).
Proof.
  intros Hm Hh w r w' Hc. unfold try_except.
  destruct (m w) as [[e|x] w1] eqn:Hmw.
  - intros Hhe. eapply Hh; [|done]. by eapply Hm.
  - intros [= _ <-]. by eapply Hm.
Qed.

Lemma keeps_read {A} (f : world → exn + A) : keeps Inv (λ w, (f w, w)).
Proof. by intros w r w' Hc [= _ <-]. Qed.

Lemma keeps_cache_get key : keeps Inv (cache_get key).
Proof.
  intros w r w' Hc Hget k v ts Hk.
  destruct (cache_get_total w key) as (c & w1 & Hget1).
  rewrite Hget1 in Hget. injection Hget as _ <-.
  apply (cache_get_no_new_entry _ _ _ _ Hget1) in Hk. by eapply Hc.
Qed.

Lemma keeps_cache_set key v : Inv key v → keeps Inv (cache_set key v).
Proof.
  intros Hv w r w' Hc. rewrite cache_set_eq. intros [= _ <-] k v' ts. simpl.
  rewrite lookup_insert. case_decide as Hk; [|by apply Hc].
  intros [= <- _]. by subst.
Qed.

Lemma keeps_cache_clear : keeps Inv cache_clear.
Proof.
  intros w r w' Hc [= _ <-] k v ts. simpl. by rewrite lookup_empty.
Qed.

Lemma keeps_snd {A} (m : M A) w :
  keeps Inv m → holds Inv (cache w) → holds Inv (cache (snd (m w))).
Proof. intros Hm Hc. destruct (m w) as [r w'] eqn:Hmw. by eapply Hm. Qed.

End keeping.

Create HintDb keeps.
#[export] Hint Resolve keeps_ret keeps_raise keeps_lift keeps_bind
  keeps_try_except keeps_read keeps_cache_get keeps_cache_set
  keeps_cache_clear : keeps.

Section typed.
Context (Qh : list (string * list item) → Prop) (Qs : list item → Prop).

Lemma typed_md5 u html : entry_typed Qh Qs (md5_key u) (VText html).
Proof.
  split; [|split].
  - intros Heq. by apply md5_key_not_home in Heq.
  - intros (t & Heq)%prefix_inv. by apply md5_key_not_search in Heq.
  - eauto.
Qed.

Lemma typed_home sections :
  Qh sections → entry_typed Qh Qs "homepage_data" (VHome sections).
Proof.
  intros Hs. split; [eauto|]. split; [done|].
  intros u Heq. symmetry in Heq. by apply md5_key_not_home in Heq.
Qed.

Lemma typed_search q results :
  Qs results →
  entry_typed Qh Qs ("search_" ++ q) (VSearch results (length results)).
Proof.
  intros Hs. split; [done|]. split; [eauto|].
  intros u Heq. symmetry in Heq. by apply md5_key_not_search in Heq.
Qed.

Lemma typed_anime url_path v : entry_typed Qh Qs ("anime_info_" ++ url_path) v.
Proof.
  split; [done|]. split; [done|].
  intros u Heq. symmetry in Heq. by apply md5_key_not_anime in Heq.
Qed.

Lemma typed_stream url_path v : entry_typed Qh Qs ("stream_" ++ url_path) v.
Proof.
  split; [done|]. split; [done|].
  intros u Heq. symmetry in Heq. by apply md5_key_not_stream in Heq.
Qed.

Context (P : platform).
Context (scrape_home : Soup.node → exn + list (string * list item)).
Context (scrape_search : Soup.node → exn + list item).
Context (quote_plus : string → string).
Hypothesis scrape_home_ok :
  ∀ soup sections, scrape_home soup = inr sections → Qh sections.
Hypothesis scrape_search_ok :
  ∀ soup results, scrape_search soup = inr results → Qs results.

Local Abbreviation typed := (entry_typed Qh Qs).
Local Abbreviation reachable := (reachable P scrape_home scrape_search quote_plus).

Lemma keeps_fetch_with_cache u use_cache :
  keeps typed (fetch_with_cache P u use_cache).
Proof.
  intros w r w' Hc Hf k v ts Hk.
  destruct (decide (md5_key u = k)) as [<-|Hne].
  - destruct use_cache.
    + apply fetch_with_cache_cases in Hf
        as [(v0 & ts0 & -> & -> & _)|(c & w1 & Hget & _ & Hnet)];
        [by eapply Hc|].
      apply fetch_from_network_run in Hnet as (_ & _ & _ & Hr).
      destruct r as [e|v1].
      * destruct Hr as (Hc1 & _). rewrite Hc1 in Hk.
        apply (cache_get_no_new_entry _ _ _ _ Hget) in Hk. by eapply Hc.
      * destruct Hr as ((resp & html & _ & _ & ->) & Hc1 & _).
        rewrite Hc1 in Hk. simpl in Hk. rewrite lookup_insert_eq in Hk.
        injection Hk as <- _. apply typed_md5.
    + rewrite fetch_uncached_eq in Hf.
      apply fetch_from_network_run in Hf as (_ & _ & _ & Hr).
      assert (cache w' = cache w) as Heq
        by (destruct r; [by destruct Hr as (? & _)|by destruct Hr as (_ & ? & _)]).
      rewrite Heq in Hk. by eapply Hc.
  - rewrite (fetch_with_cache_other P _ _ _ _ _ k Hf Hne) in Hk. by eapply Hc.
Qed.

Lemma keeps_get_streaming_links url_path order :
  keeps typed (get_streaming_links P url_path order).
Proof.
  unfold get_streaming_links.
  apply keeps_bind; [auto with keeps|]. intros c.
  destruct (hit c); [auto with keeps|].
  unfold stream_fresh.
  apply keeps_try_except; [|auto with keeps].
  unfold stream_body.
  apply keeps_bind; [apply keeps_fetch_with_cache|]. intros page.
  do 5 (apply keeps_bind; [auto with keeps|]; intros ?).
  apply keeps_bind; [|auto with keeps].
  apply keeps_cache_set, typed_stream.
Qed.

Lemma keeps_get_anime_info url_path order :
  keeps typed (get_anime_info P url_path order).
Proof.
  unfold get_anime_info.
  apply keeps_bind; [auto with keeps|]. intros c.
  destruct (hit c); [auto with keeps|].
  apply keeps_try_except; [|auto with keeps].
  unfold anime_body.
  apply keeps_bind; [apply keeps_fetch_with_cache|]. intros page.
  apply keeps_bind; [auto with keeps|]. intros html_content.
  apply keeps_bind; [auto with keeps|]. intros soup.
  destruct (find_season_buttons soup); [auto with keeps|].
  apply keeps_bind; [apply keeps_read|]. intros items.
  apply keeps_bind; [|auto with keeps].
  apply keeps_cache_set, typed_anime.
Qed.

Lemma keeps_get_homepage_data : keeps typed (get_homepage_data P scrape_home).
Proof.
  unfold get_homepage_data.
  apply keeps_bind; [auto with keeps|]. intros c.
  destruct (hit c); [auto with keeps|].
  apply keeps_try_except; [|auto with keeps].
  apply keeps_bind; [apply keeps_fetch_with_cache|]. intros page.
  apply keeps_bind; [auto with keeps|]. intros html_content.
  apply keeps_bind; [auto with keeps|]. intros soup.
  apply keeps_bind_lift. intros sections Hs.
  apply keeps_bind; [|auto with keeps].
  apply keeps_cache_set, typed_home. by eapply scrape_home_ok.
Qed.

Lemma keeps_search_anime q :
  keeps typed (search_anime P scrape_search quote_plus q).
Proof.
  unfold search_anime. destruct q as [search_query|]; [|auto with keeps].
  destruct (negb _); [auto with keeps|].
  apply keeps_bind; [auto with keeps|]. intros c.
  destruct (hit c); [auto with keeps|].
  apply keeps_try_except; [|auto with keeps].
  apply keeps_bind; [apply keeps_fetch_with_cache|]. intros page.
  apply keeps_bind; [auto with keeps|]. intros html_content.
  apply keeps_bind; [auto with keeps|]. intros soup.
  apply keeps_bind_lift. intros results Hs.
  apply keeps_bind; [|auto with keeps].
  apply keeps_cache_set, typed_search. by eapply scrape_search_ok.
Qed.

Lemma keeps_clear_cache : keeps typed clear_cache.
Proof. unfold clear_cache. auto with keeps. Qed.

(** In every reachable world each family of keys holds its own kind of
    value. *)
Lemma reachable_typed w : reachable w → holds typed (cache w).
Proof.
  induction 1 as [ttl clk s|w clk n s _ IH|w _ IH|w q _ IH
                 |w url_path order _ IH|w url_path order _ IH|w _ IH].
  - apply holds_init.
  - exact IH.
  - exact (keeps_snd _ _ w keeps_get_homepage_data IH).
  - exact (keeps_snd _ _ w (keeps_search_anime q) IH).
  - exact (keeps_snd _ _ w (keeps_get_anime_info url_path order) IH).
  - exact (keeps_snd _ _ w (keeps_get_streaming_links url_path order) IH).
  - exact (keeps_snd _ _ w keeps_clear_cache IH).
Qed.

(** A 200 answer of the search endpoint, fresh or from the cache. *)
Lemma search_response_typed q w b w' :
  reachable w →
  search_anime P scrape_search quote_plus q w = (inr (200, b), w') →
  ∃ results, b = BValue (VSearch results (length results)) ∧ Qs results.
Proof.
  intros Hreach Hs. apply reachable_typed in Hreach.
  destruct q as [search_query|]; [|done].
  destruct (Py.truthy_str search_query) eqn:Hq;
    [|unfold search_anime in Hs; by rewrite Hq in Hs].
  rewrite (search_anime_aside _ _ _ _ Hq) in Hs.
  apply cache_aside_cases in Hs
    as [(v & ts & [= ->] & _ & _ & Hk & _)|(c & w1 & _ & _ & Hf)].
  - destruct (Hreach _ _ _ Hk) as (_ & Hsearch & _).
    destruct (Hsearch (prefix_append _ _)) as (results & -> & Hr). eauto.
  - apply handled_cases in Hf as [(e & _ & [=])|(x & Hbody & [= <-])].
    inv_bind Hbody. inv_bind Hbody. inv_bind Hbody. inv_bind Hbody.
    inv_bind Hbody. injection Hbody as <- _.
    apply lift_inr in Hm2. eauto.
Qed.

(** What a cached fetch returns is the text of a page. *)
Lemma fetch_response_typed u w v w' :
  reachable w → fetch_with_cache P u true w = (inr v, w') →
  ∃ html, v = VText html.
Proof.
  intros Hreach Hf. apply reachable_typed in Hreach.
  apply fetch_with_cache_cases in Hf
    as [(v0 & ts & [= <-] & _ & _ & Hk & _)|(c & w1 & _ & _ & Hnet)].
  - destruct (Hreach _ _ _ Hk) as (_ & _ & Hmd5). by apply (Hmd5 u).
  - apply fetch_from_network_run in Hnet
      as (_ & _ & _ & (resp & html & _ & _ & ->) & _).
    eauto.
Qed.

End typed.

(** X7. In every world the server can reach, what a cached fetch returns
    is the text of a page: an entry under the fingerprint of a url was
    stored by the fetcher, never by a handler under its own key. *)
Theorem X7_cached_fetch_returns_text (P : platform)
    (scrape_home : Soup.node → exn + list (string * list item))
    (scrape_search : Soup.node → exn + list item)
    (quote_plus : string → string)
    (u : string) (w : world) (v : value) (w' : world) :
  reachable P scrape_home scrape_search quote_plus w →
  fetch_with_cache P u true w = (inr v, w') →
  ∃ html, v = VText html.
Proof.
  apply (fetch_response_typed (λ _, True) (λ _, True) P scrape_home
           scrape_search quote_plus (λ _ _ _, I) (λ _ _ _, I)).
Qed.

Lemma X7_witness :
  ∃ html,
    fst (fetch_with_cache search_platform "https://animesalt.cc?s=naruto" true
           (Fixtures.fresh_world search_site))
    = inr (VText html).
Proof.
  set (w := Fixtures.fresh_world search_site).
  destruct (X7_cached_fetch_returns_text search_platform (scrape_home_page [] [])
              scrape_search_page Quote.quote_plus "https://animesalt.cc?s=naruto" w
              (VText "found")
              (snd (fetch_with_cache search_platform "https://animesalt.cc?s=naruto"
                      true w)))
    as [html Heq].
  - apply reach_start.
  - vm_compute. reflexivity.
  - exists html. rewrite <- Heq. vm_compute. reflexivity.
Defined.

(** ** The answers of the handlers *)

Lemma answers_handled (m : M response) statuses w :
  500 ∈ statuses →
  (∀ st b w', m w = (inr (st, b), w') →
     st ∈ statuses ∧ (st ≠ 200 → ∃ msg, b = BError msg)) →
  answers (try_except m (λ e, ret (500, BError (str e)))) statuses w.
Proof.
  intros H500 Hm. unfold answers, try_except.
  destruct (m w) as [[e|[st b]] w1] eqn:Hmw.
  - exists 500, (BError (str e)), w1. split; [done|]. split; [done|]. eauto.
  - exists st, b, w1. split; [done|]. by apply (Hm st b w1).
Qed.

Lemma answers_aside key fresh statuses w :
  200 ∈ statuses →
  (∀ w1, answers fresh statuses w1) →
  answers (cache_aside key fresh) statuses w.
Proof.
  intros H200 Hfresh. unfold answers, cache_aside, bind.
  destruct (cache_get_total w key) as (c & w1 & ->).
  destruct (hit c) as [v|].
  - exists 200, (BValue v), w1. done.
  - apply Hfresh.
Qed.

(** X8. No exception leaves a handler: in every world each handler
    returns an answer. The stream and home handlers answer 200 or 500,
    the detail handler 200, 404 or 500, the search handler 200, 400 or
    500, and clear_cache 200; every answer other than 200 carries an
    error message. *)
Theorem X8_handlers_always_answer (P : platform)
    (scrape_home : Soup.node → exn + list (string * list item))
    (scrape_search : Soup.node → exn + list item)
    (quote_plus : string → string) (w : world) :
  (∀ url_path order, answers (get_streaming_links P url_path order) [200; 500] w)
  ∧ (∀ url_path order, answers (get_anime_info P url_path order) [200; 404; 500] w)
  ∧ answers (get_homepage_data P scrape_home) [200; 500] w
  ∧ (∀ q, answers (search_anime P scrape_search quote_plus q) [200; 400; 500] w)
  ∧ answers clear_cache [200] w.
Proof.
  split; [|split; [|split; [|split]]].
  - intros url_path order. rewrite get_streaming_links_aside.
    apply answers_aside; [set_solver|]. intros w1.
    destruct (stream_fresh P url_path ("stream_" ++ url_path) order w1)
      as [r w2] eqn:Hf.
    pose proof Hf as Hrun.
    apply stream_fresh_run in Hrun as [_ [(m & -> & _)|(res & -> & _)]].
    + exists 500, (BError m), w2. split; [done|]. split; [set_solver|]. eauto.
    + exists 200, (BValue (VStream res)), w2. split; [done|].
      split; [set_solver|done].
  - intros url_path order. rewrite get_anime_info_aside.
    apply answers_aside; [set_solver|]. intros w1.
    apply answers_handled; [set_solver|]. intros st b w' Hbody.
    apply anime_body_cases in Hbody as (rf & w2 & _ & _ & Hr).
    destruct Hr as [(-> & -> & _)|(-> & _)].
    + split; [set_solver|]. eauto.
    + split; [set_solver|done].
  - rewrite get_homepage_data_aside.
    apply answers_aside; [set_solver|]. intros w1.
    apply answers_handled; [set_solver|]. intros st b w' H.
    do 5 inv_bind H. injection H as <- _ _. split; [set_solver|done].
  - intros [search_query|].
    + destruct (Py.truthy_str search_query) eqn:Hq.
      * rewrite (search_anime_aside _ _ _ _ Hq).
        apply answers_aside; [set_solver|]. intros w1.
        apply answers_handled; [set_solver|]. intros st b w' H.
        do 5 inv_bind H. injection H as <- _ _. split; [set_solver|done].
      * unfold search_anime. rewrite Hq. simpl.
        exists 400, missing_query, w. split; [done|]. split; [set_solver|].
        unfold missing_query. eauto.
    + exists 400, missing_query, w. split; [done|]. split; [set_solver|].
      unfold missing_query. eauto.
  - exists 200, (BStatus "Cache cleared"),
      (with_cache (CacheManager.clear (cache w)) w).
    split; [done|]. split; [set_solver|done].
Qed.

(** ** The home page *)





Lemma existsb_key_elem {A} (d : list (string * A)) k :
  existsb (λ kv, String.eqb (fst kv) k) d = true ↔ k ∈ map fst d.
Proof.
  induction d as [|[k0 v0] d IH]; simpl.
  - split; [done|]. by intros ?%elem_of_nil.
  - rewrite orb_true_iff, IH, elem_of_cons.
    split; (intros [Hk|?]; [left|by right]).
    + by apply String.eqb_eq in Hk.
    + by apply String.eqb_eq.
Qed.



Lemma dict_set_fresh {A} (d : list (string * A)) k v :
  k ∉ map fst d → dict_set d k v = (d ++ [(k, v)])%list.
Proof.
  intros Hk. unfold dict_set.
  destruct (existsb _ d) eqn:Hex; [|done].
  by apply existsb_key_elem in Hex.
Qed.

Lemma fold_dict_set_fresh {A} (l : list (string * A)) : ∀ d,
  NoDup (map fst d ++ map fst l) →
  fold_left (λ d kv, dict_set d (fst kv) (snd kv)) l d = (d ++ l)%list.
Proof.
  induction l as [|[k v] l IH]; intros d Hnd; simpl.
  - by rewrite app_nil_r.
  - apply NoDup_app in Hnd as (Hd & Hdl & Hl).
    apply NoDup_cons in Hl as [Hk Hl].
    rewrite dict_set_fresh.
    + rewrite IH; [by rewrite <- app_assoc|].
      rewrite map_app. simpl. rewrite <- app_assoc. simpl.
      apply NoDup_app. split; [done|]. split; [|by constructor].
      intros x Hx. by apply Hdl.
    + intros Hin. apply (Hdl k Hin). by left.
Qed.

Lemma fold_charts l : ∀ d,
  fold_left
    (λ d (done : string * list item),
       let '(section_name, section_data) := done in
       match section_data with
       | [] => d
       | _ => dict_set d section_name section_data
       end) l d
  = fold_left (λ d kv, dict_set d (fst kv) (snd kv)) (omap chart_section l) d.
Proof.
  induction l as [|[name [|i data]] l IH]; intros d; simpl; [done|..]; apply IH.
Qed.

Lemma fold_swipers l : ∀ d,
  fold_left
    (λ d result,
       match result with
       | Titled section_name ((_ :: _) as section_data) =>
           dict_set d section_name section_data
       | _ => d
       end) l d
  = fold_left (λ d kv, dict_set d (fst kv) (snd kv)) (omap swiper_section l) d.
Proof.
  induction l as [|[|name [|i data]] l IH]; intros d; simpl; [done|..]; apply IH.
Qed.

(** X10. When the sections found on the home page have distinct names,
    the dict returned holds each of them exactly once, with its items,
    for every order in which the chart tasks and the swiper tasks
    complete: the order of completion only changes the order of the
    sections. *)
Theorem X10_home_sections_in_any_order
    (order_charts order_swipers : list nat) (soup : Soup.node) :
  NoDup (map fst (home_sections soup)) →
  is_schedule order_charts (chart_tasks soup) →
  is_schedule order_swipers (swiper_tasks soup) →
  ∃ sections,
    scrape_home_page order_charts order_swipers soup = inr sections
    ∧ sections ≡ₚ home_sections soup.
Proof.
  intros Hnd Hc Hs. eexists. split; [reflexivity|].
  fold (chart_tasks soup). fold (swiper_tasks soup).
  apply as_completed_schedule in Hc, Hs.
  rewrite fold_charts, fold_swipers.
  assert (omap chart_section (as_completed order_charts (chart_tasks soup))
          ≡ₚ omap chart_section (chart_tasks soup)) as Hc' by (by rewrite Hc).
  assert (omap swiper_section (as_completed order_swipers (swiper_tasks soup))
          ≡ₚ omap swiper_section (swiper_tasks soup)) as Hs' by (by rewrite Hs).
  unfold home_sections in *.
  assert (NoDup (map fst (omap chart_section
                            (as_completed order_charts (chart_tasks soup)))
                 ++ map fst (omap swiper_section
                               (as_completed order_swipers (swiper_tasks soup)))))
    as Hnd'.
  { rewrite <- map_app. by rewrite Hc', Hs'. }
  rewrite (fold_dict_set_fresh _ []).
  - rewrite fold_dict_set_fresh; [|done]. simpl. by rewrite Hc', Hs'.
  - simpl. by apply NoDup_app in Hnd' as (? & _).
Qed.

(** X10 on a page with a chart and two swipers, the second swiper
    completing first. *)
Lemma X10_witness :
  ∃ sections,
    scrape_home_page [0]%nat [1; 0]%nat home_page = inr sections
    ∧ map fst sections = ["Most-Watched Series"; "Movies"; "Fresh Drops"].
Proof.
  destruct (X10_home_sections_in_any_order [0]%nat [1; 0]%nat home_page)
    as (sections & Hrun & _).
  - assert (map fst (home_sections home_page)
            = ["Most-Watched Series"; "Fresh Drops"; "Movies"]) as ->
      by (vm_compute; reflexivity).
    repeat (apply NoDup_cons; split;
            [rewrite ?not_elem_of_cons; repeat split;
             (done || apply not_elem_of_nil)|]).
    apply NoDup_nil_2.
  - unfold is_schedule.
    assert (length (chart_tasks home_page) = 1%nat) as -> by (vm_compute; reflexivity).
    reflexivity.
  - unfold is_schedule.
    assert (length (swiper_tasks home_page) = 2%nat) as -> by (vm_compute; reflexivity).
    apply perm_swap.
  - exists sections. split; [exact Hrun|].
    assert (inr sections = scrape_home_page [0]%nat [1; 0]%nat home_page) as Heq
      by done.
    vm_compute in Heq. injection Heq as ->. vm_compute. reflexivity.
Defined.

(** ** The search endpoint *)

(** X11. The search handler answers 400 exactly when the query is
    missing or empty, and then it touches nothing: no cache read, no
    request, the world is as it was. *)
Theorem X11_search_without_query (P : platform)
    (scrape_search : Soup.node → exn + list item) (quote_plus : string → string)
    (q : option string) (w : world) :
  (q = None ∨ q = Some "" →
   search_anime P scrape_search quote_plus q w = (inr (400, missing_query), w))
  ∧ (∀ b w', search_anime P scrape_search quote_plus q w = (inr (400, b), w') →
             q = None ∨ q = Some "").
Proof.
  split.
  - by intros [->| ->].
  - intros b w' H. destruct q as [search_query|]; [|by left].
    destruct search_query as [|c s]; [by right|].
    rewrite search_anime_aside in H by done.
    apply cache_aside_cases in H
      as [(v & ts & [=] & _)|(c0 & w1 & _ & _ & Hf)].
    apply handled_cases in Hf as [(e & _ & [=])|(x & Hbody & [= <-])].
    do 5 inv_bind Hbody. by injection Hbody.
Qed.

Lemma X11_witness :
  search_anime (Fixtures.platform_of []) no_search (λ q, q) (Some "")
    (Fixtures.fresh_world down_site)
  = (inr (400, missing_query), Fixtures.fresh_world down_site).
Proof.
  apply (X11_search_without_query (Fixtures.platform_of []) no_search (λ q, q)).
  by right.
Defined.

Lemma quote_cons safe c rest :
  Quote.quote safe (String c rest)
  = Quote.quote safe (String c EmptyString) ++ Quote.quote safe rest.
Proof.
  unfold Quote.quote. cbn [Md5.encode].
  destruct (Z.of_nat (nat_of_ascii c) <? 128); cbn [fold_right].
  - by rewrite append_nil_r.
  - by rewrite append_nil_r, append_assoc.
Qed.

(** Replacing a single character goes through a concatenation. *)
Lemma replace_single_app old new a : ∀ b,
  Py.replace (String old EmptyString) new (a ++ b)
  = Py.replace (String old EmptyString) new a
    ++ Py.replace (String old EmptyString) new b.
Proof.
  unfold Py.replace. induction a as [|c a IH]; intros b; [done|].
  cbn [String.append Py.replace_go String.length].
  assert (∀ s, String.prefix (String old EmptyString) (String c s)
               = Ascii.eqb old c) as Hp.
  { intros s. cbn [String.prefix].
    destruct (ascii_dec old c) as [->|Hne].
    - rewrite Ascii.eqb_refl. by destruct s.
    - by apply Ascii.eqb_neq in Hne as ->. }
  rewrite !Hp. destruct (Ascii.eqb old c); cbn [Nat.sub].
  - rewrite IH. by rewrite append_assoc.
  - by rewrite IH.
Qed.

Lemma plus_char_no_space c :
  c ≠ " "%char → Quote.quote "" (String c EmptyString) = plus_char c.
Proof.
  intros Hc. unfold plus_char, Quote.quote_plus. cbn [Py.has_char].
  destruct (Ascii.eqb " " c) eqn:He; [|done].
  apply Ascii.eqb_eq in He. congruence.
Qed.

Lemma plus_char_replace c :
  Py.replace " " "+" (Quote.quote " " (String c EmptyString)) = plus_char c.
Proof. destruct c as [[] [] [] [] [] [] [] []]; vm_compute; reflexivity. Qed.

(** With or without a space in the string, quote_plus is the replacement
    in the quoting that keeps the space. *)
Lemma quote_plus_replace s :
  Py.replace " " "+" (Quote.quote " " s) = Quote.quote_plus s.
Proof.
  induction s as [|d s IH]; [reflexivity|].
  rewrite quote_cons, replace_single_app, IH, plus_char_replace.
  unfold Quote.quote_plus at 2. destruct (Py.has_char " " (String d s)) eqn:Hs.
  - simpl. by rewrite quote_cons, replace_single_app, IH, plus_char_replace.
  - simpl. cbn [Py.has_char] in Hs. apply orb_false_iff in Hs as [Hd Hs].
    assert (Quote.quote "" s = Quote.quote_plus s) as Hnone
      by (unfold Quote.quote_plus; by rewrite Hs).
    rewrite quote_cons, Hnone, plus_char_no_space; [done|].
    intros ->. done.
Qed.

(** quote_plus works character by character. *)
Lemma quote_plus_cons c rest :
  Quote.quote_plus (String c rest) = plus_char c ++ Quote.quote_plus rest.
Proof.
  by rewrite <- (quote_plus_replace (String c rest)), quote_cons,
    replace_single_app, !quote_plus_replace.
Qed.

Lemma plus_char_safe c : Urllib.all_chars query_char (plus_char c) = true.
Proof. destruct c as [[] [] [] [] [] [] [] []]; vm_compute; reflexivity. Qed.

Lemma unquote_head_plus_char c rest :
  unquote_head (plus_char c ++ rest) = Some (c, rest).
Proof. destruct c as [[] [] [] [] [] [] [] []]; vm_compute; reflexivity. Qed.

Lemma all_chars_app p a b :
  Urllib.all_chars p (a ++ b) = Urllib.all_chars p a && Urllib.all_chars p b.
Proof.
  induction a as [|c a IH]; [done|].
  cbn [String.append Urllib.all_chars]. rewrite IH. by rewrite andb_assoc.
Qed.

(** X12. The query of the search url is encoded safely and without loss:
    what quote_plus writes consists of letters, digits, the marks
    underscore, dot, hyphen and tilde, plus signs and percent signs
    only, and two queries with the same encoding are the same query. *)
Theorem X12_query_is_encoded_without_loss (q q' : string) :
  Urllib.all_chars query_char (Quote.quote_plus q) = true
  ∧ (q ≠ q' → Quote.quote_plus q ≠ Quote.quote_plus q').
Proof.
  split.
  - induction q as [|c q IH]; [done|].
    rewrite quote_plus_cons, all_chars_app, IH. by rewrite plus_char_safe.
  - intros Hne Heq. apply Hne. clear Hne.
    revert q' Heq. induction q as [|c q IH]; intros [|c' q'] Heq.
    + done.
    + rewrite quote_plus_cons in Heq.
      pose proof (unquote_head_plus_char c' (Quote.quote_plus q')) as Hd.
      by rewrite <- Heq in Hd.
    + rewrite quote_plus_cons in Heq.
      pose proof (unquote_head_plus_char c (Quote.quote_plus q)) as Hd.
      by rewrite Heq in Hd.
    + rewrite !quote_plus_cons in Heq.
      pose proof (unquote_head_plus_char c (Quote.quote_plus q)) as Hd.
      rewrite Heq, unquote_head_plus_char in Hd. injection Hd as -> Hq.
      f_equal. by apply IH.
Qed.

(** X12 for a query with a space and a query with a plus sign. *)
Lemma X12_witness :
  Quote.quote_plus "one piece" = "one+piece"
  ∧ Quote.quote_plus "one+piece" = "one%2Bpiece"
  ∧ Quote.quote_plus "one piece" ≠ Quote.quote_plus "one+piece".
Proof.
  destruct (X12_query_is_encoded_without_loss "one piece" "one+piece")
    as [_ Hinj].
  split; [vm_compute; reflexivity|]. split; [vm_compute; reflexivity|].
  apply Hinj. discriminate.
Defined.

Lemma search_item_cases x :
  if link_without_href x then search_item x = inl (KeyError "href")
  else ∃ anime_info, search_item x = inr anime_info
                     ∧ map fst anime_info = search_keys.
Proof.
  unfold link_without_href, search_item, Soup.has_attr.
  destruct (Soup.find (tag_class "a" "lnk-blk") (Bs4.here x)) as [link_element|].
  - destruct (Soup.get "href" link_element) as [href|]; simpl; [|done].
    eexists. split; [reflexivity|done].
  - eexists. split; [reflexivity|done].
Qed.

Lemma search_items_cases items :
  if existsb link_without_href items
  then search_items items = inl (OtherException "'href'")
  else ∃ results, search_items items = inr results
                  ∧ length results = length items
                  ∧ Forall (λ anime_info, map fst anime_info = search_keys) results.
Proof.
  induction items as [|x items IH]; simpl.
  - by exists [].
  - pose proof (search_item_cases x) as Hx.
    destruct (link_without_href x); simpl.
    + by rewrite Hx.
    + destruct Hx as (info & -> & Hkeys).
      destruct (existsb link_without_href items).
      * by rewrite IH.
      * destruct IH as (results & -> & Hlen & Hall).
        exists (info :: results). split; [done|]. simpl. split; [by rewrite Hlen|].
        by constructor.
Qed.

(** X13. The loop over the results of a search never skips a result: no
    round can raise the AttributeError its handler is written for. When
    the link tag of some result has no href the scrape raises the
    KeyError of that round; otherwise it returns one dict for each [li]
    selected, with the keys title, link, image_url and categories. *)
Theorem X13_search_loop_skips_nothing (soup : Soup.node) :
  if existsb link_without_href (results_container soup)
  then scrape_search_page soup = inl (OtherException "'href'")
  else ∃ results,
         scrape_search_page soup = inr results
         ∧ length results = length (results_container soup)
         ∧ Forall (λ anime_info, map fst anime_info = search_keys) results.
Proof. apply search_items_cases. Qed.

(** X14. One result whose link tag has no href fails the whole search:
    after a cache miss and a successful fetch and parse, the handler
    answers 500 with the message of the KeyError, and stores no search
    result. *)
Theorem X14_search_link_without_href_fails (P : platform)
    (search_query : string) (w : world) (c : option value) (w1 : world)
    (html_content : string) (w2 : world) (soup : Soup.node) :
  Py.truthy_str search_query = true →
  cache_get ("search_" ++ search_query) w = (inr c, w1) → hit c = None →
  fetch_with_cache P
    ("https://animesalt.cc?s=" ++ Quote.quote_plus search_query) true w1
  = (inr (VText html_content), w2) →
  html_parser P html_content = Some soup →
  existsb link_without_href (results_container soup) = true →
  search_anime P scrape_search_page Quote.quote_plus (Some search_query) w
  = (inr (500, BError "'href'"), w2).
Proof.
  intros Hq Hget Hhit Hfetch Hparse Hbad.
  rewrite (search_anime_aside P scrape_search_page Quote.quote_plus _ Hq).
  unfold cache_aside. rewrite (bind_step _ _ _ _ _ Hget). rewrite Hhit.
  unfold try_except.
  change (BASE_URL ++ "?s=" ++ Quote.quote_plus search_query)
    with ("https://animesalt.cc?s=" ++ Quote.quote_plus search_query).
  rewrite (bind_step _ _ _ _ _ Hfetch). simpl.
  unfold bind at 1. simpl. unfold bind at 1, parse_html. rewrite Hparse. simpl.
  pose proof (search_items_cases (results_container soup)) as Hloop.
  change (search_items (results_container soup)) with (scrape_search_page soup)
    in Hloop.
  rewrite Hbad in Hloop. unfold bind at 1, lift. by rewrite Hloop.
Qed.

Lemma X14_witness :
  fst (search_anime search_platform scrape_search_page Quote.quote_plus
         (Some "one piece") (Fixtures.fresh_world search_site))
  = inr (500, BError "'href'").
Proof.
  set (w := Fixtures.fresh_world search_site).
  rewrite (X14_search_link_without_href_fails search_platform "one piece" w None w
             "bad"
             (snd (fetch_with_cache search_platform
                     "https://animesalt.cc?s=one+piece" true w))
             bad_search_page).
  - reflexivity.
  - reflexivity.
  - by apply cache_get_absent.
  - reflexivity.
  - vm_compute. reflexivity.
  - reflexivity.
  - vm_compute. reflexivity.
Defined.

(** X15. In every 200 answer of the search endpoint, fresh or served
    from the cache, count is the number of results. *)
Theorem X15_search_count_is_length (P : platform)
    (scrape_home : Soup.node → exn + list (string * list item))
    (scrape_search : Soup.node → exn + list item)
    (quote_plus : string → string)
    (q : option string) (w : world) (b : body) (w' : world) :
  reachable P scrape_home scrape_search quote_plus w →
  search_anime P scrape_search quote_plus q w = (inr (200, b), w') →
  ∃ results, b = BValue (VSearch results (length results)).
Proof.
  intros Hreach Hs.
  destruct (search_response_typed (λ _, True) (λ _, True) P scrape_home
              scrape_search quote_plus (λ _ _ _, I) (λ _ _ _, I)
              q w b w' Hreach Hs) as (results & -> & _).
  eauto.
Qed.

Lemma X15_witness :
  ∃ results,
    fst (search_anime search_platform scrape_search_page Quote.quote_plus
           (Some "naruto") (Fixtures.fresh_world search_site))
    = inr (200, BValue (VSearch results 2)) ∧ length results = 2%nat.
Proof.
  set (w := Fixtures.fresh_world search_site).
  destruct (search_anime search_platform scrape_search_page Quote.quote_plus
              (Some "naruto") w) as [r w'] eqn:Hrun.
  assert (∃ results, r = inr (200, BValue (VSearch results 2))) as (results & ->).
  { assert (r = fst (search_anime search_platform scrape_search_page
                       Quote.quote_plus (Some "naruto") w)) as ->
      by (by rewrite Hrun).
    eexists. vm_compute. reflexivity. }
  destruct (X15_search_count_is_length search_platform (scrape_home_page [] [])
              scrape_search_page Quote.quote_plus (Some "naruto") w
              (BValue (VSearch results 2)) w') as (results' & Heq).
  - apply reach_start.
  - exact Hrun.
  - injection Heq as -> Hlen. exists results'. by split.
Defined.

(** ** The detail endpoint *)

(** X16. On a cold cache a detail request sends one request on the
    shared session, with the timeout of 10 seconds: for the path itself
    when it starts with http, whatever host it names, and otherwise for
    the base url followed by the path. *)
Theorem X16_detail_requests_given_url (P : platform) (url_path : string)
    (order : list nat) (w : world) :
  CacheManager.cache (cache w) !! ("anime_info_" ++ url_path) = None →
  CacheManager.cache (cache w) !! md5_key (add_base_url url_path) = None →
  session_log (snd (get_anime_info P url_path order w))
  = mkRequest
      (if Py.startswith url_path "http" then url_path
       else if Py.startswith url_path "/" then "https://animesalt.cc" ++ url_path
       else "https://animesalt.cc/" ++ url_path) [] 10
    :: session_log w.
Proof.
  intros Ha Hp.
  assert ((if Py.startswith url_path "http" then url_path
           else if Py.startswith url_path "/" then "https://animesalt.cc" ++ url_path
           else "https://animesalt.cc/" ++ url_path) = add_base_url url_path) as ->.
  { unfold add_base_url. destruct (Py.startswith url_path "http"); [done|].
    by destruct (Py.startswith url_path "/"). }
  by apply detail_cold_request.
Qed.

Lemma X16_witness :
  session_log (snd (get_anime_info (naruto_platform two_seasons)
                      "http://other.test/page" []
                      (Fixtures.fresh_world naruto_site)))
  = [mkRequest "http://other.test/page" [] 10].
Proof.
  apply (X16_detail_requests_given_url (naruto_platform two_seasons)
           "http://other.test/page" [] (Fixtures.fresh_world naruto_site));
    apply lookup_empty.
Defined.

(** X17. Only a 200 answer of the detail endpoint is stored: in every
    world the server can reach, after an answer other than 200 there is
    no entry under the key of the detail record; and after a 404 the
    text of the page is in the cache under the fingerprint of its url. *)
Theorem X17_detail_failure_is_not_stored (P : platform)
    (scrape_home : Soup.node → exn + list (string * list item))
    (scrape_search : Soup.node → exn + list item)
    (quote_plus : string → string)
    (url_path : string) (order : list nat) (w : world)
    (st : Z) (b : body) (w' : world) :
  reachable P scrape_home scrape_search quote_plus w →
  get_anime_info P url_path order w = (inr (st, b), w') →
  st ≠ 200 →
  CacheManager.cache (cache w') !! ("anime_info_" ++ url_path) = None
  ∧ (st = 404 →
     ∃ html ts,
       CacheManager.cache (cache w') !! md5_key (add_base_url url_path)
       = Some (VText html, ts)).
Proof.
  intros Hreach H Hst. apply reachable_cache_ok in Hreach.
  rewrite get_anime_info_aside in H.
  apply cache_aside_cases in H
    as [(v & ts & [= -> ->] & _)|(c & w1 & Hget & Hhit & Hf)]; [done|].
  assert (CacheManager.cache (cache w1) !! ("anime_info_" ++ url_path) = None)
    as Hnone.
  { destruct (cache_get_falsy _ _ _ _ Hget Hhit) as [?|(v & ts & _ & Hk & Ht)];
      [done|].
    destruct (Hreach _ _ _ Hk) as [Ha _].
    destruct (Ha (anime_key_prefixed url_path)) as (a & -> & _). done. }
  apply handled_cases in Hf as [(e & Hbody & [= -> ->])|(x & Hbody & [= <-])].
  - apply anime_body_cases in Hbody as (rf & w2 & Hfetch & _ & Hc).
    split; [|done]. rewrite Hc.
    rewrite (fetch_with_cache_other P _ _ _ _ _ _ Hfetch (md5_key_not_anime _ _)).
    done.
  - apply anime_body_cases in Hbody as (rf & w2 & Hfetch & _ & Hr).
    destruct Hr as [(-> & -> & -> & html & ->)|(-> & _)]; [|done].
    split.
    + rewrite (fetch_with_cache_other P _ _ _ _ _ _ Hfetch (md5_key_not_anime _ _)).
      done.
    + intros _. apply fetch_stores in Hfetch as [ts Hk]. eauto.
Qed.

(** X17 on a page without season buttons. *)
Lemma X17_witness :
  let P := naruto_platform [] in
  let w' := snd (get_anime_info P "series/naruto" [] (Fixtures.fresh_world naruto_site)) in
  CacheManager.cache (cache w') !! ("anime_info_" ++ "series/naruto") = None
  ∧ ∃ html ts,
      CacheManager.cache (cache w') !! md5_key "https://animesalt.cc/series/naruto"
      = Some (VText html, ts).
Proof.
  intros P w'.
  destruct (X17_detail_failure_is_not_stored P no_home no_search (λ q, q)
              "series/naruto" [] (Fixtures.fresh_world naruto_site)
              404 (BError "No season buttons found") w')
    as [Hnone Hpage].
  - apply reach_start.
  - vm_compute. reflexivity.
  - done.
  - split; [exact Hnone|]. by apply Hpage.
Defined.

(** X18. A 200 answer of the detail endpoint is stored under the key of
    the record, and every later request for the same path, while less
    than TTL has elapsed since the entry was stored, gets the same
    answer from the cache alone: it reads the clock once and sends no
    request, whatever the site would answer and in whatever order tasks
    would complete. *)
Theorem X18_detail_answer_is_replayed (P : platform) (url_path : string)
    (order : list nat) (w : world) (b : body) (w' : world) :
  get_anime_info P url_path order w = (inr (200, b), w') →
  ∃ v ts, b = BValue v
    ∧ CacheManager.cache (cache w') !! ("anime_info_" ++ url_path) = Some (v, ts)
    ∧ ∀ w2 order2,
        cache w2 = cache w' →
        clock w2 (ticks w2) - ts < CacheManager.ttl (cache w') →
        get_anime_info P url_path order2 w2 = (inr (200, b), tick w2).
Proof.
  rewrite get_anime_info_aside. intros H.
  apply cache_aside_cases in H
    as [(v & ts & [= ->] & -> & Ht & Hk & Hlt)|(c & w1 & Hget & Hhit & Hf)].
  - exists v, ts. split; [done|]. split; [done|].
    intros w2 order2 Hc Hlt2. rewrite get_anime_info_aside.
    apply cache_aside_replay with (ts := ts); [by rewrite Hc|by rewrite Hc|done].
  - apply handled_cases in Hf as [(e & Hbody & [=])|(x & Hbody & [= <-])].
    apply anime_body_cases in Hbody as (rf & w2 & Hfetch & _ & Hr).
    destruct Hr as [([=] & _)|(_ & a & -> & Hc)].
    exists (VAnime a), (clock w2 (ticks w2)).
    split; [done|]. split; [rewrite Hc; apply lookup_insert_eq|].
    intros w3 order2 Hc3 Hlt3. rewrite get_anime_info_aside.
    apply cache_aside_replay with (ts := clock w2 (ticks w2)); [|by rewrite Hc3|done].
    rewrite Hc3, Hc. apply lookup_insert_eq.
Qed.

(** X18: the second request for a series, right after the first. *)
Lemma X18_witness :
  let P := naruto_platform two_seasons in
  let w := Fixtures.fresh_world naruto_site in
  get_anime_info P "series/naruto" []
    (snd (get_anime_info P "series/naruto" [1; 0]%nat w))
  = (fst (get_anime_info P "series/naruto" [1; 0]%nat w),
     tick (snd (get_anime_info P "series/naruto" [1; 0]%nat w))).
Proof.
  intros P w.
  destruct (get_anime_info P "series/naruto" [1; 0]%nat w) as [r w'] eqn:Hrun.
  assert (w' = snd (get_anime_info P "series/naruto" [1; 0]%nat w)) as Hw
    by (by rewrite Hrun).
  assert (∃ b, r = inr (200, b)) as [b ->].
  { assert (r = fst (get_anime_info P "series/naruto" [1; 0]%nat w)) as ->
      by (by rewrite Hrun).
    eexists. vm_compute. reflexivity. }
  destruct (X18_detail_answer_is_replayed P "series/naruto" [1; 0]%nat w b w' Hrun)
    as (v & ts & _ & Hk & Hnext).
  assert (ts = 1) as ->.
  { assert (snd <$> CacheManager.cache (cache w') !! ("anime_info_" ++ "series/naruto")
            = Some 1) as Hk0 by (rewrite Hw; vm_compute; reflexivity).
    rewrite Hk in Hk0. by injection Hk0. }
  simpl. apply Hnext; [reflexivity|]. rewrite Hw. vm_compute. reflexivity.
Defined.

Lemma filter_none {A} (p : A → bool) l :
  Forall (λ x, p x = false) l → List.filter p l = [].
Proof.
  induction 1 as [|x l Hx _ IH]; [done|]. simpl. by rewrite Hx.
Qed.

Lemma zip_seq_app {A} (l1 l2 : list A) n :
  zip (seq n (length (l1 ++ l2))) (l1 ++ l2)
  = (zip (seq n (length l1)) l1 ++ zip (seq (n + length l1) (length l2)) l2)%list.
Proof.
  revert n. induction l1 as [|x l1 IH]; intros n; simpl.
  - by rewrite Nat.add_0_r.
  - f_equal. rewrite IH. by rewrite Nat.add_succ_r.
Qed.

Section trailing.
Context (P : platform) (s : site).

(** Buttons without their attributes at the end submit nothing and move
    no index. *)
Lemma submit_seasons_trailing valid invalid :
  Forall (λ b, has_post_and_season b = false) invalid →
  submit_seasons P s (valid ++ invalid) = submit_seasons P s valid.
Proof.
  intros Hinv. unfold submit_seasons, enumerate.
  rewrite zip_seq_app, List.filter_app.
  rewrite (filter_none _ (zip (seq _ (length invalid)) invalid)).
  - by rewrite app_nil_r.
  - generalize (0 + length valid)%nat. clear valid.
    induction Hinv as [|b l Hb _ IH]; intros n; simpl; [done|].
    constructor; [done|]. apply IH.
Qed.

(** X19. Season buttons without data-post or data-season that come after
    all the buttons that have both do no harm: the fan-out returns the
    episodes of the valid seasons in the order of the buttons, for every
    order of completion. With no valid button at all it returns no
    episode. *)
Theorem X19_trailing_bare_buttons_are_skipped
    (valid invalid : list Soup.node) (order : list nat) :
  Forall (λ b, has_post_and_season b = true) valid →
  Forall (λ b, has_post_and_season b = false) invalid →
  is_schedule order (submit_seasons P s valid) →
  fetch_all_seasons P s (valid ++ invalid) order
  = inr (flat_map (λ b, recover (season_task P s b)) valid).
Proof.
  intros Hvalid Hinvalid Hsched.
  rewrite <- (fetch_all_seasons_ordered P s valid order Hvalid Hsched).
  unfold fetch_all_seasons. by rewrite submit_seasons_trailing.
Qed.

End trailing.

(** X19 with two seasons and a bare button after them, the second season
    completing first. *)
Lemma X19_witness :
  fetch_all_seasons (naruto_platform two_seasons) naruto_site
    (two_seasons ++ [bare_button]) [1; 0]%nat
  = inr (Soup.find_all (Soup.is_tag "li") season_1
         ++ Soup.find_all (Soup.is_tag "li") season_2)%list.
Proof.
  rewrite (X19_trailing_bare_buttons_are_skipped (naruto_platform two_seasons)
             naruto_site two_seasons [bare_button] [1; 0]%nat).
  - vm_compute. reflexivity.
  - repeat constructor.
  - repeat constructor.
  - unfold is_schedule.
    assert (length (submit_seasons (naruto_platform two_seasons) naruto_site
                      two_seasons) = 2%nat) as -> by (vm_compute; reflexivity).
    apply perm_swap.
Defined.

(** X20. The url of an episode depends on how the page writes the link:
    for an href that is a slash followed by a path, the url returned is
    the path without the slash; for an href that is the base url, a
    slash and the path, it is the path with the slash. *)
Theorem X20_episode_url_forms (it link_tag : Soup.node) (path : string) :
  find_link it = Some link_tag →
  Py.contains BASE_URL path = false →
  Py.startswith path "/" = false →
  (Soup.get "href" link_tag = Some ("/" ++ path) →
   ∃ e, process_item it = Some e ∧ ep_url e = path)
  ∧ (Soup.get "href" link_tag = Some ("https://animesalt.cc/" ++ path) →
     ∃ e, process_item it = Some e ∧ ep_url e = "/" ++ path).
Proof.
  unfold find_link. intros Hfind Hc Hs. split; intros Hhref.
  - unfold process_item. rewrite Hfind, Hhref.
    change (negb (Py.truthy_str ("/" ++ path))) with false. cbv iota.
    change ("/" ++ path) with (String "/" path).
    eexists. split; [reflexivity|]. cbn [ep_url].
    unfold Py.startswith at 1.
    change (String "/" path) with ("/" ++ path). rewrite (prefix_append "/" path).
    change ("/" ++ path) with (String "/" path).
    cbn [Py.lstrip_by]. change (Ascii.eqb "/" "/") with true. cbv iota.
    assert (Py.lstrip_by (Ascii.eqb "/") path = path) as ->.
    { destruct path as [|c p]; [done|]. cbn [Py.lstrip_by].
      unfold Py.startswith in Hs. cbn in Hs.
      destruct (Ascii.eqb "/" c) eqn:Hc0; [|done].
      apply Ascii.eqb_eq in Hc0 as <-. simpl in Hs.
      destruct (Ascii.ascii_dec "/" "/"); [|done].
      change ("/" ++ p) with (String "/" p) in Hs.
      pose proof (prefix_append "" p) as Hp. simpl in Hp. congruence. }
    by apply remove_base_url_prefix.
  - unfold process_item. rewrite Hfind, Hhref.
    change (negb (Py.truthy_str ("https://animesalt.cc/" ++ path))) with false.
    cbv iota. eexists. split; [reflexivity|]. cbn [ep_url].
    assert (Py.startswith ("https://animesalt.cc/" ++ path) "/" = false) as ->
      by reflexivity.
    change ("https://animesalt.cc/" ++ path) with (BASE_URL ++ String "/" path).
    apply remove_base_url_prefix.
    change (Py.contains BASE_URL (String "/" path) = false).
    cbn [Py.contains]. by rewrite Hc.
Qed.

(** X20 on the two ways the episodes of the first season are linked. *)
Lemma X20_witness :
  (∃ e, process_item (episode_item "1x2" "My Name is Konohamaru" "/episode/naruto-1x2")
        = Some e ∧ ep_url e = "episode/naruto-1x2")
  ∧ (∃ e, process_item (episode_item "1x1" "Enter Naruto"
                          "https://animesalt.cc/episode/naruto-1x1")
          = Some e ∧ ep_url e = "/episode/naruto-1x1").
Proof.
  split.
  - apply (X20_episode_url_forms
             (episode_item "1x2" "My Name is Konohamaru" "/episode/naruto-1x2")
             (tag "a" [("class", "lnk-blk"); ("href", "/episode/naruto-1x2")] [])
             "episode/naruto-1x2"); vm_compute; reflexivity.
  - apply (X20_episode_url_forms
             (episode_item "1x1" "Enter Naruto" "https://animesalt.cc/episode/naruto-1x1")
             (tag "a" [("class", "lnk-blk");
                       ("href", "https://animesalt.cc/episode/naruto-1x1")] [])
             "episode/naruto-1x1"); vm_compute; reflexivity.
Defined.

(** ** The stream endpoint *)

(** X21. A stream request that is not answered from the cache sends
    exactly one request on the shared session, with the timeout of 10
    seconds, and always to the site: for the base url, a slash and the
    path when the path starts with movies/ or episode/, and with
    episode/ put before the path otherwise. A request answered from the
    cache sends nothing. *)
Theorem X21_stream_requests_its_page (P : platform) (url_path : string)
    (order : list nat) (w : world) (c : option value) (w1 : world) :
  cache_get ("stream_" ++ url_path) w = (inr c, w1) →
  session_log (snd (get_streaming_links P url_path order w))
  = match hit c with
    | Some _ => session_log w
    | None =>
        mkRequest ("https://animesalt.cc/" ++ final_path url_path) [] 10
        :: session_log w
    end.
Proof. apply stream_page_request. Qed.

Lemma X21_witness :
  session_log (snd (get_streaming_links (Fixtures.platform_of []) "naruto-1x1" []
                      overlap_world))
  = [mkRequest "https://animesalt.cc/episode/naruto-1x1" [] 10].
Proof.
  apply (X21_stream_requests_its_page (Fixtures.platform_of []) "naruto-1x1" []
           overlap_world None overlap_world).
  by apply cache_get_absent.
Defined.

(** X22. Only a 200 answer of the stream endpoint is stored: after any
    other answer the store has gained no entry. A 200 answer is stored
    under the key of the stream result, and every later request for the
    same path, while less than the TTL of the cache has elapsed since
    the entry was stored, gets the same answer from the cache alone,
    with no request sent. *)
Theorem X22_stream_answer_is_replayed (P : platform) (url_path : string)
    (order : list nat) (w : world) (st : Z) (b : body) (w' : world) :
  get_streaming_links P url_path order w = (inr (st, b), w') →
  (st ≠ 200 → no_new_entry (cache w) (cache w'))
  ∧ (st = 200 →
     ∃ v ts, b = BValue v
       ∧ CacheManager.cache (cache w') !! ("stream_" ++ url_path) = Some (v, ts)
       ∧ ∀ w2 order2,
           cache w2 = cache w' →
           clock w2 (ticks w2) - ts < CacheManager.ttl (cache w') →
           get_streaming_links P url_path order2 w2 = (inr (200, b), tick w2)).
Proof.
  rewrite get_streaming_links_aside. intros H.
  apply cache_aside_cases in H
    as [(v & ts & [= -> ->] & -> & Ht & Hk & Hlt)|(c & w1 & Hget & Hhit & Hf)].
  - split; [done|]. intros _. exists v, ts. split; [done|]. split; [done|].
    intros w2 order2 Hc Hlt2. rewrite get_streaming_links_aside.
    apply cache_aside_replay with (ts := ts); [by rewrite Hc|by rewrite Hc|done].
  - apply stream_fresh_run in Hf as [_ [(m & [= -> ->] & Hc)|(res & [= -> ->] & Hc)]].
    + split; [|done]. intros _. rewrite Hc. by eapply cache_get_no_new_entry.
    + split; [done|]. intros _. exists (VStream res), (clock w1 (ticks w1)).
      split; [done|]. split; [rewrite Hc; apply lookup_insert_eq|].
      intros w2 order2 Hc2 Hlt2. rewrite get_streaming_links_aside.
      apply cache_aside_replay with (ts := clock w1 (ticks w1)); [|by rewrite Hc2|done].
      rewrite Hc2, Hc. apply lookup_insert_eq.
Qed.

(** X22: the second request for an episode, right after the first. *)
Lemma X22_witness :
  let P := Fixtures.platform_of [] in
  let first := get_streaming_links P "naruto-1x1" [] overlap_world in
  get_streaming_links P "naruto-1x1" [] (snd first) = (fst first, tick (snd first)).
Proof.
  intros P first.
  set (r := mkStream "naruto-1x1" [overlap_url] [overlap_url] [] 2).
  destruct (X22_stream_answer_is_replayed P "naruto-1x1" [] overlap_world 200
              (BValue (VStream r)) (snd first)) as [_ Hreplay].
  - vm_compute. reflexivity.
  - destruct (Hreplay eq_refl) as (v & ts & _ & Hk & Hnext).
    assert (ts = 0) as ->.
    { assert (CacheManager.cache (cache (snd first)) !! ("stream_" ++ "naruto-1x1")
              = Some (VStream r, 0)) as Hk0 by (vm_compute; reflexivity).
      rewrite Hk0 in Hk. by injection Hk. }
    rewrite (Hnext (snd first) []); [|reflexivity|vm_compute; reflexivity].
    assert (fst first = inr (200, BValue (VStream r))) as ->
      by (vm_compute; reflexivity).
    reflexivity.
Defined.

Lemma gather_js_flat_map completed :
  gather_js completed = flat_map recover completed.
Proof.
  unfold gather_js.
  assert (∀ acc, fold_left
            (λ js_streams outcome,
               match outcome with
               | inr found_in_js =>
                   match found_in_js with
                   | [] => js_streams
                   | _ => (js_streams ++ found_in_js)%list
                   end
               | inl _ => js_streams
               end) completed acc
          = (acc ++ flat_map recover completed)%list) as H.
  { induction completed as [|o completed IH]; intros acc; simpl.
    - by rewrite app_nil_r.
    - rewrite IH. destruct o as [e|[|x l]]; simpl; [done| |].
      + done.
      + by rewrite <- app_assoc. }
  by rewrite H.
Qed.

Lemma flat_map_Permutation {A B} (f : A → list B) l k :
  l ≡ₚ k → flat_map f l ≡ₚ flat_map f k.
Proof.
  induction 1 as [|x l k _ IH|x y l|l k m _ IH1 _ IH2]; simpl.
  - done.
  - by rewrite IH.
  - rewrite !app_assoc. by rewrite (Permutation_app_comm (f y) (f x)).
  - by rewrite IH1.
Qed.

Lemma as_completed_Permutation {A} o1 o2 (futures : list A) :
  o1 ≡ₚ o2 → as_completed o1 futures ≡ₚ as_completed o2 futures.
Proof. intros H. unfold as_completed. by rewrite H. Qed.

Section scans.
Context (P : platform).

Lemma list_set_Permutation_app l k1 k2 :
  k1 ≡ₚ k2 → list_set P (l ++ k1) ≡ₚ list_set P (l ++ k2).
Proof.
  intros H. apply NoDup_Permutation; [apply list_set_NoDup..|].
  intros x. rewrite !list_set_elem, !elem_of_app. by rewrite H.
Qed.

Lemma build_result_Permutation url_path html_streams js1 js2 found_iframes :
  js1 ≡ₚ js2 →
  same_streams (build_result P url_path html_streams js1 found_iframes)
               (build_result P url_path html_streams js2 found_iframes).
Proof.
  intros H. pose proof (list_set_Permutation_app html_streams _ _ H) as Hall.
  unfold same_streams, build_result. cbn [episode_url m3u8_links video_links
    iframes total_streams].
  set (keep := λ u : string, negb (any_ext non_stream_exts u)).
  pose proof (filter_Permutation keep _ _ Hall) as Hf.
  pose proof (filter_Permutation (λ u, Py.contains ".m3u8" (Py.lower u)) _ _ Hf) as Hm.
  pose proof (filter_Permutation (any_ext video_exts) _ _ Hf) as Hv.
  split; [done|]. split; [done|]. split; [done|]. split; [done|].
  by rewrite (Permutation_length Hm), (Permutation_length Hv).
Qed.

(** X23. The order in which the script scans complete does not change
    the answer of a stream request beyond the order of the links: for
    two orders that are permutations of each other, the two answers are
    equal, or both are 200 with the same episode_url, iframes and
    total_streams and with m3u8_links and video_links that are
    permutations of each other. *)
Theorem X23_scan_order_is_irrelevant (url_path : string) (order1 order2 : list nat)
    (w : world) :
  order1 ≡ₚ order2 →
  same_answer (fst (get_streaming_links P url_path order1 w))
              (fst (get_streaming_links P url_path order2 w)).
Proof.
  intros Hperm. unfold get_streaming_links, bind.
  destruct (cache_get _ w) as [[e|c] w1]; [by left|].
  destruct (hit c); [by left|].
  unfold stream_fresh, try_except, stream_body, bind.
  destruct (fetch_with_cache P _ false w1) as [[e|page] w2]; [by left|].
  unfold lift. destruct (as_text page) as [e|html_content]; [by left|].
  destruct (find_urls_in_text P html_content _) as [e|html_streams]; [by left|].
  destruct (find_js_file_urls P html_content _) as [e|js_file_urls]; [by left|].
  destruct (join_all P _ _) as [e|joined]; [by left|].
  simpl. right. eexists _, _. split; [done|]. split; [done|].
  apply build_result_Permutation.
  rewrite !gather_js_flat_map. apply flat_map_Permutation.
  by apply as_completed_Permutation.
Qed.

End scans.

Lemma X23_witness :
  same_answer
    (fst (get_streaming_links (Fixtures.platform_of []) "naruto-1x1" [0; 1]%nat
            overlap_world))
    (fst (get_streaming_links (Fixtures.platform_of []) "naruto-1x1" [1; 0]%nat
            overlap_world)).
Proof.
  apply (X23_scan_order_is_irrelevant (Fixtures.platform_of []) "naruto-1x1"
           [0; 1]%nat [1; 0]%nat overlap_world).
  apply perm_swap.
Defined.

(** ** Clearing the cache *)

(** X24. After clear_cache nothing is answered from the cache: the next
    detail request and the next stream request each send their page
    request on the shared session, whatever the cache held before. *)
Theorem X24_clear_cache_forces_a_fetch (P : platform) (url_path : string)
    (order : list nat) (w : world) :
  session_log (snd (get_anime_info P url_path order (snd (clear_cache w))))
  = mkRequest (add_base_url url_path) [] 10 :: session_log w
  ∧ session_log (snd (get_streaming_links P url_path order (snd (clear_cache w))))
    = mkRequest ("https://animesalt.cc/" ++ final_path url_path) [] 10
      :: session_log w.
Proof.
  split.
  - rewrite detail_cold_request; [done|apply lookup_empty..].
  - rewrite (stream_page_request P url_path order _ None (snd (clear_cache w)));
      [done|].
    apply cache_get_absent, lookup_empty.
Qed.
